(** * pdf-editor: annotation model, export/compositing engine, history engine

    A shallow embedding of the TypeScript sources
    [app/components/CanvasDrawing.tsx], [app/components/PDFExporter.tsx],
    [app/components/RichTextEditor.tsx] and the [PDFEditor] component.

    Conventions of the embedding:
    - a JavaScript [number] is a real number ([R]); [NaN] only arises from
      [parseInt] and is carried by [option] ([None] is [NaN]); a division
      is the division of real numbers, and what the export draws is stated
      for a positive scale, where no coordinate is [NaN] or infinite;
    - an optional property [p?: T] is an [option T];
    - arrays and objects held in React state are never mutated in place by
      the sources (every setter receives a fresh array built by spread,
      [map], [filter] or [slice]), so they are values: [list]s and records;
    - a statement that can throw returns a [result];
    - [page.drawText], [page.drawRectangle] and [page.drawCircle] are the
      calls into pdf-lib: a call is recorded as a [DrawCommand] and a page
      keeps the commands it received, in order; pdf-lib's [rgb] throws
      unless its three channels are numbers between 0 and 1, and
      [drawText] throws for a text that the font cannot encode; what a
      font encodes, as the loading and the saving of a document, is a
      parameter;
    - the calls and assignments on the 2D context of the canvas are recorded
      likewise, as [CanvasCommand]s, and [saveAs], [alert] and
      [console.error] as [Effect]s. *)

From Stdlib Require Import Reals Lra List String Ascii ZArith Bool Lia.
From Stdlib Require DecimalString DecimalZ.
Import ListNotations.

Open Scope R_scope.

(** ** JavaScript preliminaries *)

Inductive JsError : Type :=
| TypeError
| PageNotFound (pageNumber : Z)
| NotInRange    (* pdf-lib: [`red` must be at least 0 and at most 1] *)
| CannotEncode  (* pdf-lib: [WinAnsi cannot encode "..."] *).

Inductive result (A : Type) : Type :=
| Ok (a : A)
| Throw (e : JsError).

Arguments Ok {A} a.
Arguments Throw {A} e.

Definition bind {A B : Type} (m : result A) (k : A -> result B) : result B :=
  match m with
  | Ok a => k a
  | Throw e => Throw e
  end.

Notation "'let*' p ':=' m 'in' k" := (bind m (fun p => k))
  (at level 10, p pattern, m at level 100, k at level 200).

(** [arr[i]] followed by a property access: [undefined.x] is a TypeError. *)
Definition at_index {A : Type} (arr : list A) (i : nat) : result A :=
  match nth_error arr i with
  | Some a => Ok a
  | None => Throw TypeError
  end.

(** [a || b] on numbers: [a] is falsy exactly when it is zero. *)
Definition num_or (a b : R) : R :=
  if Req_dec_T a 0 then b else a.

(** [a || b || ...] where [a] is an optional number. *)
Definition opt_num_or (a : option R) (b : R) : R :=
  match a with
  | Some v => num_or v b
  | None => b
  end.

(** Truthiness of an optional string: defined and not empty. *)
Definition truthy_string (s : option string) : bool :=
  match s with
  | Some EmptyString => false
  | Some _ => true
  | None => false
  end.

(** Truthiness of an optional boolean. *)
Definition truthy_bool (b : option bool) : bool :=
  match b with
  | Some true => true
  | _ => false
  end.

(** [Math.atan2(y, x)], the angle of the point [(x, y)] in (-PI, PI]. *)
Definition atan2 (y x : R) : R :=
  if Rlt_dec 0 x then atan (y / x)
  else if Rlt_dec x 0 then
    (if Rle_dec 0 y then atan (y / x) + PI else atan (y / x) - PI)
  else if Rlt_dec 0 y then PI / 2
  else if Rlt_dec y 0 then - (PI / 2)
  else 0.

(** [for (let i = 0; i < n; i++) body(i)], where the body emits commands
    and may throw. *)
Fixpoint for_loop {C : Type} (i n : nat) (body : nat -> result (list C))
  : result (list C) :=
  match n with
  | O => Ok []
  | S n' =>
      let* cs := body i in
      let* rest := for_loop (S i) n' body in
      Ok (cs ++ rest)
  end.

(** ** Annotation model (CanvasDrawing.tsx) *)

Inductive ToolType : Type :=
| Select | Text | Draw | Highlight | Eraser | Rectangle | Circle | Arrow.

Definition ToolType_eqb (a b : ToolType) : bool :=
  match a, b with
  | Select, Select | Text, Text | Draw, Draw | Highlight, Highlight
  | Eraser, Eraser | Rectangle, Rectangle | Circle, Circle | Arrow, Arrow => true
  | _, _ => false
  end.

Module Point.
Record t : Type := mk { x : R; y : R }.
End Point.
Abbreviation Point := Point.t.

Module TextFormat.
Record t : Type := mk {
  fontFamily : string;
  fontSize : R;
  isBold : bool;
  isItalic : bool;
  isUnderline : bool;
  color : string;
  backgroundColor : option string
}.
End TextFormat.
Abbreviation TextFormat := TextFormat.t.

Record DrawingElement : Type := mkElement {
  id : string;
  type : ToolType;
  points : list Point;
  color : string;
  strokeWidth : R;
  text : option string;
  fontSize : option R;
  width : option R;
  height : option R;
  isEditing : option bool;
  textFormat : option TextFormat
}.

(** ** Export/compositing engine (PDFExporter.tsx) *)

(** A colour as [parseColor] returns it; a channel is [None] when it is NaN. *)
Record ParsedColor : Type := mkColor {
  r : option R;
  g : option R;
  b : option R
}.

(** The value of pdf-lib's [rgb(r, g, b)]: three numbers between 0 and 1. *)
Inductive Color : Type :=
| RGB (red green blue : R).

(** pdf-lib's [assertRange(value, name, 0, 1)]: the value must be a number,
    which NaN is not, and must not be below 0 or above 1. *)
Definition assertRange (value : option R) : result R :=
  match value with
  | None => Throw TypeError
  | Some v =>
      if Rlt_dec v 0 then Throw NotInRange
      else if Rlt_dec 1 v then Throw NotInRange
      else Ok v
  end.

(** pdf-lib's [rgb(red, green, blue)]: it asserts the range of the three
    channels, in this order, before it makes the colour. *)
Definition rgb (red green blue : option R) : result Color :=
  let* red' := assertRange red in
  let* green' := assertRange green in
  let* blue' := assertRange blue in
  Ok (RGB red' green' blue').

(** The names [StandardFonts.Helvetica] and [StandardFonts.HelveticaBold]. *)
Inductive StandardFonts : Type :=
| Helvetica
| HelveticaBold.

(** A font object of pdf-lib, as [pdfDoc.embedFont] returns it: [encodes]
    tells whether the font can encode every character of a text that
    [page.drawText] is given; [drawText] throws when it cannot. *)
Record PDFFont : Type := mkFont {
  fontName : StandardFonts;
  encodes : string -> bool
}.

Module TextOptions.
Record t : Type := mk {
  x : R;
  y : R;
  size : R;
  font : PDFFont;
  color : Color
}.
End TextOptions.

Module RectangleOptions.
Record t : Type := mk {
  x : R;
  y : R;
  width : R;
  height : R;
  borderColor : option Color;
  borderWidth : option R;
  color : option Color;
  opacity : option R;
  rotate : option R  (* [{ type: 'degrees', angle }] *)
}.
End RectangleOptions.

Module CircleOptions.
Record t : Type := mk {
  x : R;
  y : R;
  size : R;
  borderColor : Color;
  borderWidth : R
}.
End CircleOptions.

Inductive DrawCommand : Type :=
| drawText (txt : string) (opts : TextOptions.t)
| drawRectangle (opts : RectangleOptions.t)
| drawCircle (opts : CircleOptions.t).

(** *** Strings: [trim], [slice], [parseInt] *)

(** White space and line terminators among the 8-bit code units. *)
Definition isWhiteSpace (c : ascii) : bool :=
  let n := N_of_ascii c in
  ((n =? 9) || (n =? 10) || (n =? 11) || (n =? 12) || (n =? 13)
   || (n =? 32) || (n =? 160))%N.

Fixpoint trimStart (s : string) : string :=
  match s with
  | String c s' => if isWhiteSpace c then trimStart s' else s
  | EmptyString => EmptyString
  end.

Fixpoint trimEnd (s : string) : string :=
  match s with
  | EmptyString => EmptyString
  | String c s' =>
      match trimEnd s' with
      | EmptyString => if isWhiteSpace c then EmptyString else String c EmptyString
      | t => String c t
      end
  end.

(** [s.trim()] *)
Definition trim (s : string) : string := trimEnd (trimStart s).

(** [s.slice(from, to)] for indices that are not negative. *)
Definition slice (s : string) (from to : nat) : string :=
  substring from (to - from) s.

(** [s.slice(from)] for an index that is not negative. *)
Definition slice_from (s : string) (from : nat) : string :=
  substring from (String.length s - from) s.

(** The value of a digit or letter as [parseInt] reads it. *)
Definition digitValue (c : ascii) : option Z :=
  let n := Z.of_N (N_of_ascii c) in
  if ((48 <=? n) && (n <=? 57))%Z then Some (n - 48)%Z
  else if ((97 <=? n) && (n <=? 122))%Z then Some (n - 87)%Z
  else if ((65 <=? n) && (n <=? 90))%Z then Some (n - 55)%Z
  else None.

(** The longest prefix of digits of the radix, read as an integer;
    [acc] is [None] until a digit has been read. *)
Fixpoint parseDigits (radix : Z) (s : string) (acc : option Z) : option Z :=
  match s with
  | String c s' =>
      match digitValue c with
      | Some d =>
          if (d <? radix)%Z
          then parseDigits radix s'
                 (Some (match acc with Some a => a * radix + d | None => d end)%Z)
          else acc
      | None => acc
      end
  | EmptyString => acc
  end.

(** [parseInt(str, radix)] of ECMAScript; [None] is NaN. *)
Definition parseInt (str : string) (radix : Z) : option Z :=
  let s := trimStart str in
  let sign := match s with String "-" _ => (-1)%Z | _ => 1%Z end in
  let s := match s with
           | String "+" t => t
           | String "-" t => t
           | _ => s
           end in
  if ((radix =? 0) || ((2 <=? radix) && (radix <=? 36)))%Z then
    let stripPrefix := ((radix =? 0) || (radix =? 16))%Z in
    let radix := if (radix =? 0)%Z then 10%Z else radix in
    let s := if stripPrefix then
               match s with
               | String "0" (String "x" t) => t
               | String "0" (String "X" t) => t
               | _ => s
               end
             else s in
    option_map (Z.mul sign) (parseDigits radix s None)
  else None.

(** [n / 255] where [n] may be NaN. *)
Definition channel (n : option Z) : option R :=
  option_map (fun v => IZR v / 255) n.

Definition startsWith (s : string) (c : ascii) : bool :=
  match s with
  | String c' _ => Ascii.eqb c' c
  | EmptyString => false
  end.

Definition parseColor (colorStr : string) : ParsedColor :=
  (* Handle hex colors *)
  if startsWith colorStr "#" then
    let hex := slice_from colorStr 1 in
    let r := channel (parseInt (slice hex 0 2) 16) in
    let g := channel (parseInt (slice hex 2 4) 16) in
    let b := channel (parseInt (slice hex 4 6) 16) in
    mkColor r g b
  else
    (* Default to red if parsing fails *)
    mkColor (Some 1) (Some 0) (Some 0).

(** *** Drawing one element *)

(** The closure [convertCoords] of [drawElementOnPDF]; it captures [scale]
    and [pageHeight]. *)
Definition convertCoords (scale pageHeight : R) (x y : R) : Point :=
  Point.mk (x / scale) (pageHeight - y / scale) (* PDF coordinates are bottom-up *).

Definition string_value (s : option string) : string :=
  match s with
  | Some v => v
  | None => EmptyString
  end.

(** [element.points[element.points.length - 1]]; on an empty array the index
    is [-1] and the access yields [undefined], as any index out of range. *)
Definition last_point (pts : list Point) : result Point :=
  at_index pts (List.length pts - 1).

(** A rectangle that simulates a line of the given length from [start]. *)
Definition lineRectangle (start : Point) (len thickness angle : R) (c : Color)
  : RectangleOptions.t :=
  RectangleOptions.mk
    (Point.x start) (Point.y start - thickness / 2)
    len thickness
    None None (Some c) None (Some angle).

(** [drawElementOnPDF].  [rgb(color.r, color.g, color.b)] is evaluated
    where the source has it, in the options of a draw call inside the
    guarded branch: an element that fails the guard of its case throws
    nothing, whatever its colour.  The three calls of the arrow case have
    the same arguments and are evaluated once.  [page.drawText] evaluates
    its options, then encodes the text with the font. *)
Definition drawElementOnPDF (element : DrawingElement) (scale : R)
    (font boldFont : PDFFont) (pageWidth pageHeight : R)
  : result (list DrawCommand) :=
  let convertCoords := convertCoords scale pageHeight in
  (* Parse color *)
  let color := parseColor (color element) in
  let pts := points element in
  match type element with
  | Text =>
      if truthy_string (text element) && (0 <? List.length pts)%nat then
        let* p0 := at_index pts 0 in
        let coords := convertCoords (Point.x p0) (Point.y p0) in
        let* ink := rgb (r color) (g color) (b color) in
        if encodes font (string_value (text element)) then
          Ok [drawText (string_value (text element))
                (TextOptions.mk (Point.x coords) (Point.y coords)
                   (opt_num_or (fontSize element) 16 / scale) font ink)]
        else Throw CannotEncode
      else Ok []
  | Rectangle =>
      if (2 <=? List.length pts)%nat then
        let* p0 := at_index pts 0 in
        let* pn := last_point pts in
        let start := convertCoords (Point.x p0) (Point.y p0) in
        let end_ := convertCoords (Point.x pn) (Point.y pn) in
        let width := Rabs (Point.x end_ - Point.x start) in
        let height := Rabs (Point.y end_ - Point.y start) in
        let* ink := rgb (r color) (g color) (b color) in
        Ok [drawRectangle
              (RectangleOptions.mk
                 (Rmin (Point.x start) (Point.x end_))
                 (Rmin (Point.y start) (Point.y end_))
                 width height
                 (Some ink) (Some (strokeWidth element / scale))
                 None None None)]
      else Ok []
  | Circle =>
      if (2 <=? List.length pts)%nat then
        let* p0 := at_index pts 0 in
        let* pn := last_point pts in
        let start := convertCoords (Point.x p0) (Point.y p0) in
        let end_ := convertCoords (Point.x pn) (Point.y pn) in
        let radius :=
          sqrt ((Point.x end_ - Point.x start) ^ 2
                + (Point.y end_ - Point.y start) ^ 2) / scale in
        let* ink := rgb (r color) (g color) (b color) in
        Ok [drawCircle
              (CircleOptions.mk (Point.x start) (Point.y start)
                 (radius * 2) ink (strokeWidth element / scale))]
      else Ok []
  | Highlight =>
      if (2 <=? List.length pts)%nat then
        let* p0 := at_index pts 0 in
        let* pn := last_point pts in
        let start := convertCoords (Point.x p0) (Point.y p0) in
        let end_ := convertCoords (Point.x pn) (Point.y pn) in
        let width := Rabs (Point.x end_ - Point.x start) in
        (* Default highlight height *)
        let height := num_or (Rabs (Point.y end_ - Point.y start)) (20 / scale) in
        let* ink := rgb (r color) (g color) (b color) in
        Ok [drawRectangle
              (RectangleOptions.mk
                 (Rmin (Point.x start) (Point.x end_))
                 (Rmin (Point.y start) (Point.y end_))
                 width height
                 None None (Some ink) (Some (3 / 10)) None)]
      else Ok []
  | Draw =>
      (* For freehand drawing, approximate with line segments *)
      if (1 <? List.length pts)%nat then
        for_loop 0 (List.length pts - 1) (fun i =>
          let* pi := at_index pts i in
          let* pj := at_index pts (i + 1) in
          let start := convertCoords (Point.x pi) (Point.y pi) in
          let end_ := convertCoords (Point.x pj) (Point.y pj) in
          let dx := Point.x end_ - Point.x start in
          let dy := Point.y end_ - Point.y start in
          let length := sqrt (dx * dx + dy * dy) in
          if Rlt_dec 0 length then
            let* ink := rgb (r color) (g color) (b color) in
            Ok [drawRectangle
                  (lineRectangle start length (strokeWidth element / scale)
                     (atan2 dy dx * 180 / PI) ink)]
          else Ok [])
      else Ok []
  | Arrow =>
      if (2 <=? List.length pts)%nat then
        let* p0 := at_index pts 0 in
        let* pn := last_point pts in
        let start := convertCoords (Point.x p0) (Point.y p0) in
        let end_ := convertCoords (Point.x pn) (Point.y pn) in
        let dx := Point.x end_ - Point.x start in
        let dy := Point.y end_ - Point.y start in
        let length := sqrt (dx * dx + dy * dy) in
        if Rlt_dec 0 length then
          let* ink := rgb (r color) (g color) (b color) in
          (* Draw arrowhead (simplified as a triangle approximation) *)
          let angle := atan2 dy dx in
          let headLength := 15 / scale in
          let leftX := Point.x end_ - headLength * cos (angle - PI / 6) in
          let leftY := Point.y end_ - headLength * sin (angle - PI / 6) in
          let rightX := Point.x end_ - headLength * cos (angle + PI / 6) in
          let rightY := Point.y end_ - headLength * sin (angle + PI / 6) in
          let leftLength :=
            sqrt ((Point.x end_ - leftX) ^ 2 + (Point.y end_ - leftY) ^ 2) in
          let rightLength :=
            sqrt ((Point.x end_ - rightX) ^ 2 + (Point.y end_ - rightY) ^ 2) in
          let headRectangle len ang :=
            RectangleOptions.mk (Point.x end_) (Point.y end_)
              len (strokeWidth element / scale)
              None None (Some ink) None (Some ang) in
          Ok [drawRectangle
                (lineRectangle start length (strokeWidth element / scale)
                   (atan2 dy dx * 180 / PI) ink);
              drawRectangle
                (headRectangle leftLength
                   (atan2 (leftY - Point.y end_) (leftX - Point.x end_) * 180 / PI));
              drawRectangle
                (headRectangle rightLength
                   (atan2 (rightY - Point.y end_) (rightX - Point.x end_) * 180 / PI))]
        else Ok []
      else Ok []
  | Select | Eraser => Ok []  (* no case of the switch *)
  end.

(** *** Merging the annotations into the document *)

Record PDFPage : Type := mkPage {
  pageWidth : R;
  pageHeight : R;
  content : list DrawCommand  (* what has been drawn on the page *)
}.

Definition PDFDocument : Type := list PDFPage.

(** [pages[n]] for a number [n]: [undefined] out of range. *)
Definition page_at (pages : list PDFPage) (n : Z) : option PDFPage :=
  if (n <? 0)%Z then None else nth_error pages (Z.to_nat n).

(** The page objects are shared with the document: drawing on [page]
    changes the page of the document at its index. *)
Fixpoint draw_on_page (pages : list PDFPage) (n : nat) (cmds : list DrawCommand)
  : list PDFPage :=
  match pages, n with
  | [], _ => []
  | p :: rest, O => mkPage (pageWidth p) (pageHeight p) (content p ++ cmds) :: rest
  | p :: rest, S n' => p :: draw_on_page rest n' cmds
  end.

(** [for (const element of elements) await this.drawElementOnPDF(...)] *)
Fixpoint drawElements (elements : list DrawingElement) (scale : R)
    (font boldFont : PDFFont) (width height : R) : result (list DrawCommand) :=
  match elements with
  | [] => Ok []
  | element :: rest =>
      let* cs := drawElementOnPDF element scale font boldFont width height in
      let* more := drawElements rest scale font boldFont width height in
      Ok (cs ++ more)
  end.

Section Merge.

(** The document container of pdf-lib: [PDFDocument.load] and
    [pdfDoc.save]. *)
Variable Bytes : Type.
Variable load : Bytes -> result PDFDocument.
Variable save : PDFDocument -> Bytes.

(** [pdfDoc.embedFont] on the name of a standard font, taken not to
    throw. *)
Variable embedFont : StandardFonts -> PDFFont.

Definition mergePDFWithAnnotations (originalPDF : Bytes)
    (elements : list DrawingElement) (pageNumber : Z) (scale : R)
  : result Bytes :=
  (* Read the original PDF *)
  let* pdfDoc := load originalPDF in
  (* Get the specific page *)
  match page_at pdfDoc (pageNumber - 1) with
  | None => Throw (PageNotFound pageNumber)
  | Some page =>
      let width := pageWidth page in
      let height := pageHeight page in
      (* Load fonts *)
      let font := embedFont Helvetica in
      let boldFont := embedFont HelveticaBold in
      (* Process each drawing element *)
      let* cmds := drawElements elements scale font boldFont width height in
      (* Serialize the PDF *)
      Ok (save (draw_on_page pdfDoc (Z.to_nat (pageNumber - 1)) cmds))
  end.

End Merge.

(** ** The editor: element set and history (PDFEditor component) *)

Module HistoryState.
Record t : Type := mk { elements : list DrawingElement }.
End HistoryState.

(** [Partial<DrawingElement>]: a property is [None] when the object does not
    have it. *)
Module Partial.
Record t : Type := mk {
  id : option string;
  type : option ToolType;
  points : option (list Point);
  color : option string;
  strokeWidth : option R;
  text : option (option string);
  fontSize : option (option R);
  width : option (option R);
  height : option (option R);
  isEditing : option (option bool);
  textFormat : option (option TextFormat)
}.
Definition empty : t :=
  mk None None None None None None None None None None None.
End Partial.

Definition override {A : Type} (old : A) (new : option A) : A :=
  match new with
  | Some v => v
  | None => old
  end.

(** [{ ...el, ...updates }] *)
Definition spread (el : DrawingElement) (updates : Partial.t) : DrawingElement :=
  mkElement
    (override (id el) (Partial.id updates))
    (override (type el) (Partial.type updates))
    (override (points el) (Partial.points updates))
    (override (color el) (Partial.color updates))
    (override (strokeWidth el) (Partial.strokeWidth updates))
    (override (text el) (Partial.text updates))
    (override (fontSize el) (Partial.fontSize updates))
    (override (width el) (Partial.width updates))
    (override (height el) (Partial.height updates))
    (override (isEditing el) (Partial.isEditing updates))
    (override (textFormat el) (Partial.textFormat updates)).

(** [canvas.getBoundingClientRect()] *)
Module DOMRect.
Record t : Type := mk { left : R; top : R }.
End DOMRect.
Abbreviation DOMRect := DOMRect.t.

(** [arr.slice(0, to)] of a JavaScript array: a negative [to] counts from
    the end. *)
Definition array_slice {A : Type} (arr : list A) (to : Z) : list A :=
  if (to <? 0)%Z
  then firstn (Z.to_nat (Z.of_nat (List.length arr) + to)) arr
  else firstn (Z.to_nat to) arr.

(** [arr[i]] for a number [i]. *)
Definition array_get {A : Type} (arr : list A) (i : Z) : option A :=
  if (i <? 0)%Z then None else nth_error arr (Z.to_nat i).

(** The tool state of the editor, as the toolbar and the sidebar set it. *)
Module ToolState.
Record t : Type := mk {
  activeTool : ToolType;
  strokeColor : string;
  strokeWidth : R;
  fontSize : R
}.
End ToolState.

Module Editor.

Record t : Type := mk {
  (* View state *)
  scale : R;
  (* Tool state *)
  tools : ToolState.t;
  (* Drawing state *)
  elements : list DrawingElement;
  history : list HistoryState.t;
  historyIndex : Z
}.

Definition setElements (st : t) (els : list DrawingElement) : t :=
  mk (scale st) (tools st) els (history st) (historyIndex st).

Definition setHistory (st : t) (h : list HistoryState.t) : t :=
  mk (scale st) (tools st) (elements st) h (historyIndex st).

Definition setHistoryIndex (st : t) (i : Z) : t :=
  mk (scale st) (tools st) (elements st) (history st) i.

Definition setActiveTool (st : t) (tool : ToolType) : t :=
  mk (scale st)
     (ToolState.mk tool (ToolState.strokeColor (tools st))
        (ToolState.strokeWidth (tools st)) (ToolState.fontSize (tools st)))
     (elements st) (history st) (historyIndex st).

(** The initial state of the component; [handleFileUpload] resets the
    drawing state to the same values. *)
Definition initial : t :=
  mk 1 (ToolState.mk Select "#ff0000"%string 2 16) [] [] (-1)%Z.

(** The checkpoint that [handleElementAdd] and [handleTextConfirm] run
    after the state update: drop the snapshots beyond the cursor, push
    the given set, move the cursor to the last index. *)
Definition pushHistory (st : t) (snapshot : list DrawingElement) : t :=
  let newHistory :=
    array_slice (history st) (historyIndex st + 1)
    ++ [HistoryState.mk snapshot] in
  setHistoryIndex (setHistory st newHistory)
    (Z.of_nat (List.length newHistory) - 1).

Definition saveToHistory (st : t) : t :=
  pushHistory st (elements st).

(** [history[newIndex]] is [undefined] when the index is out of range, and
    reading its [elements] throws; this does not happen on a well-formed
    history. *)
Definition handleUndo (st : t) : result t :=
  if (0 <? historyIndex st)%Z then
    let newIndex := (historyIndex st - 1)%Z in
    match array_get (history st) newIndex with
    | Some snapshot =>
        Ok (setElements (setHistoryIndex st newIndex)
              (HistoryState.elements snapshot))
    | None => Throw TypeError
    end
  else Ok st.

Definition handleRedo (st : t) : result t :=
  if (historyIndex st <? Z.of_nat (List.length (history st)) - 1)%Z then
    let newIndex := (historyIndex st + 1)%Z in
    match array_get (history st) newIndex with
    | Some snapshot =>
        Ok (setElements (setHistoryIndex st newIndex)
              (HistoryState.elements snapshot))
    | None => Throw TypeError
    end
  else Ok st.

Definition canUndo (st : t) : bool := (0 <? historyIndex st)%Z.

Definition canRedo (st : t) : bool :=
  (historyIndex st <? Z.of_nat (List.length (history st)) - 1)%Z.

Definition handleElementAdd (st : t) (element : DrawingElement) : t :=
  let newElements := elements st ++ [element] in
  (* Save to history after adding element *)
  pushHistory (setElements st newElements) newElements.

Definition handleElementUpdate (st : t) (id' : string) (updates : Partial.t) : t :=
  setElements st
    (map (fun el => if String.eqb (id el) id' then spread el updates else el)
       (elements st)).

Definition handleElementDelete (st : t) (id' : string) : t :=
  setElements st
    (filter (fun el => negb (String.eqb (id el) id')) (elements st)).

Definition handleElementEdit (st : t) (id' : string) : t :=
  setElements st
    (map (fun el =>
            if String.eqb (id el) id'
            then spread el
                   (Partial.mk None None None None None None None None None
                      (Some (Some true)) None)
            else el)
       (elements st)).

(** The element that [handleTextConfirm] puts in the place of [el];
    [canvas] is the bounding rectangle of [canvasRef.current], if any. *)
Definition confirmElement (canvas : option DOMRect) (id' : string)
    (text' : string) (textFormat' : option TextFormat) (el : DrawingElement)
  : DrawingElement :=
  if String.eqb (id el) id' then
    (* Convert viewport coordinates back to canvas coordinates *)
    let canvasPoints :=
      match canvas with
      | Some rect =>
          if truthy_bool (isEditing el) then
            let fontSize :=
              opt_num_or (option_map TextFormat.fontSize textFormat')
                (opt_num_or (fontSize el) 16) in
            map (fun point =>
                   Point.mk (Point.x point - DOMRect.left rect + 2)
                            (Point.y point - DOMRect.top rect + 2 + fontSize))
                (points el)
          else points el
      | None => points el
      end in
    spread el
      (Partial.mk None None (Some canvasPoints) None None (Some (Some text'))
         None None None (Some (Some false)) (Some textFormat'))
  else el.

Definition handleTextConfirm (st : t) (canvas : option DOMRect) (id' : string)
    (text' : string) (textFormat' : option TextFormat) : t :=
  let st' :=
    setElements st (map (confirmElement canvas id' text' textFormat') (elements st)) in
  (* Save to history after confirming text *)
  pushHistory st' (map (confirmElement canvas id' text' textFormat') (elements st)).

Definition handleTextCancel (st : t) (id' : string) : t :=
  setElements st
    (filter (fun el => negb (String.eqb (id el) id')) (elements st)).

Definition handleTextMove (st : t) (id' : string) (deltaX deltaY : R) : t :=
  setElements st
    (map (fun el =>
            if String.eqb (id el) id'
            then spread el
                   (Partial.mk None None
                      (Some (map (fun point =>
                                    Point.mk (Point.x point + deltaX)
                                             (Point.y point + deltaY))
                               (points el)))
                      None None None None None None None None)
            else el)
       (elements st)).

Definition handleTextChange (st : t) (id' : string) (text' : string) : t :=
  setElements st
    (map (fun el =>
            if String.eqb (id el) id'
            then spread el
                   (Partial.mk None None None None None (Some (Some text'))
                      None None None None None)
            else el)
       (elements st)).

End Editor.

(** ** Interaction engine (CanvasDrawing component) *)

(** [n.toString()] of an integer. *)
Definition toString (n : Z) : string :=
  DecimalString.NilEmpty.string_of_int (Z.to_int n).

(** [s.split('\n')] *)
Fixpoint split_lines (s : string) : list string :=
  match s with
  | EmptyString => [EmptyString]
  | String c s' =>
      if Ascii.eqb c "010" then EmptyString :: split_lines s'
      else match split_lines s' with
           | line :: rest => String c line :: rest
           | [] => [String c EmptyString]
           end
  end.

Record MouseEvent : Type := mkMouseEvent {
  clientX : R;
  clientY : R;
  buttons : Z
}.

(** What a handler reads from the browser while it runs. *)
Module Env.
Record t : Type := mk {
  canvas : option DOMRect;  (* [canvasRef.current] and its bounding rectangle *)
  context2d : bool;         (* whether [canvas.getContext('2d')] is not null *)
  now : Z;                  (* [Date.now()] at the start of the handler *)
  idNow : Z                 (* [Date.now()] when an element is created *)
}.
End Env.

(** The refs of the component. *)
Module Refs.
Record t : Type := mk {
  isDrawing : bool;
  currentElement : option DrawingElement;
  startPoint : option Point;
  lastClickTime : Z;
  lastClickElement : option string
}.

Definition initial : t := mk false None None 0%Z None.
End Refs.

Record App : Type := mkApp {
  editor : Editor.t;
  refs : Refs.t
}.

Definition getMousePos (env : Env.t) (e : MouseEvent) : Point :=
  match Env.canvas env with
  | None => Point.mk 0 0
  | Some rect => Point.mk (clientX e - DOMRect.left rect) (clientY e - DOMRect.top rect)
  end.

Definition getViewportPos (e : MouseEvent) : Point :=
  Point.mk (clientX e) (clientY e).

Definition isTextEditing (el : DrawingElement) : bool :=
  ToolType_eqb (type el) Text && truthy_bool (isEditing el).

Definition opt_string_eqb (a : option string) (s : string) : bool :=
  match a with
  | Some v => String.eqb v s
  | None => false
  end.

Section Interaction.

(** [ctx.measureText(line).width] once [ctx.font] is
    [`${fontSize}px Arial`]. *)
Variable measureText : R -> string -> R.

(** The loop over the lines of one text element in
    [getTextElementAtPoint]; [true] when a line contains the point. *)
Fixpoint lineAtPoint (env : Env.t) (point : Point) (element : DrawingElement)
    (lineHeight : R) (lineIndex : nat) (lines : list string) : result bool :=
  match lines with
  | [] => Ok false
  | line :: rest =>
      match Env.canvas env with
      | None => lineAtPoint env point element lineHeight (S lineIndex) rest
      | Some _ =>
          if negb (Env.context2d env)
          then lineAtPoint env point element lineHeight (S lineIndex) rest
          else
            let size := opt_num_or (fontSize element) 16 in
            let width := measureText size line in
            let* p0 := at_index (points element) 0 in
            let lineY := Point.y p0 + INR lineIndex * lineHeight in
            (* Check if point is within text bounds *)
            if Rle_dec (Point.x p0 - 2) (Point.x point) then
              if Rle_dec (Point.x point) (Point.x p0 + width + 2) then
                if Rle_dec (lineY - size - 2) (Point.y point) then
                  if Rle_dec (Point.y point) (lineY + 4) then Ok true
                  else lineAtPoint env point element lineHeight (S lineIndex) rest
                else lineAtPoint env point element lineHeight (S lineIndex) rest
              else lineAtPoint env point element lineHeight (S lineIndex) rest
            else lineAtPoint env point element lineHeight (S lineIndex) rest
      end
  end.

(** The loop [for (let i = elements.length - 1; i >= 0; i--)] of
    [getTextElementAtPoint], over the elements from the last to the first. *)
Fixpoint textElementIn (env : Env.t) (point : Point)
    (reversed : list DrawingElement) : result (option DrawingElement) :=
  match reversed with
  | [] => Ok None
  | element :: rest =>
      if ToolType_eqb (type element) Text && truthy_string (text element)
         && negb (truthy_bool (isEditing element))
      then
        let lines := split_lines (string_value (text element)) in
        let lineHeight := opt_num_or (fontSize element) 16 * (12 / 10) in
        let* hit := lineAtPoint env point element lineHeight 0 lines in
        if hit then Ok (Some element) else textElementIn env point rest
      else textElementIn env point rest
  end.

(** Check if point is inside a text element *)
Definition getTextElementAtPoint (env : Env.t) (elements : list DrawingElement)
    (point : Point) : result (option DrawingElement) :=
  textElementIn env point (rev elements).

(** The update that opens an existing text element for editing: its
    anchor is converted from canvas to viewport coordinates. *)
Definition editExistingText (env : Env.t) (textElement : DrawingElement)
    (st : Editor.t) : result Editor.t :=
  match Env.canvas env with
  | Some rect =>
      let fontSize :=
        opt_num_or (option_map TextFormat.fontSize (textFormat textElement))
          (opt_num_or (fontSize textElement) 16) in
      let* p0 := at_index (points textElement) 0 in
      let viewportPoint :=
        Point.mk (Point.x p0 + DOMRect.left rect)
                 (* Convert from baseline to top positioning *)
                 (Point.y p0 + DOMRect.top rect - fontSize) in
      Ok (Editor.handleElementUpdate st (id textElement)
            (Partial.mk None None (Some [viewportPoint]) None None None
               None None None (Some (Some true)) None))
  | None => Ok st
  end.

Definition handleMouseDown (env : Env.t) (e : MouseEvent) (app : App)
  : result App :=
  let st := editor app in
  let rf := refs app in
  let activeTool := ToolState.activeTool (Editor.tools st) in
  let strokeColor := ToolState.strokeColor (Editor.tools st) in
  let strokeWidth := ToolState.strokeWidth (Editor.tools st) in
  let fontSize := ToolState.fontSize (Editor.tools st) in
  let point := getMousePos env e in
  let currentTime := Env.now env in
  (* Handle double-click on existing text elements *)
  let* textElement := getTextElementAtPoint env (Editor.elements st) point in
  match textElement, activeTool with
  | Some textElement, Select =>
      let timeDiff := (currentTime - Refs.lastClickTime rf)%Z in
      let isSameElement :=
        opt_string_eqb (Refs.lastClickElement rf) (id textElement) in
      if (timeDiff <? 300)%Z && isSameElement then
        (* Double-click detected *)
        if existsb isTextEditing (Editor.elements st) then
          (* Don't open another editor if one is already open *)
          Ok app
        else
          let* st' := editExistingText env textElement st in
          Ok (mkApp st'
                (Refs.mk (Refs.isDrawing rf) (Refs.currentElement rf)
                   (Refs.startPoint rf) 0%Z None))
      else
        Ok (mkApp st
              (Refs.mk (Refs.isDrawing rf) (Refs.currentElement rf)
                 (Refs.startPoint rf) currentTime (Some (id textElement))))
  | _, _ =>
      (* Reset click tracking for non-text interactions *)
      let rf1 :=
        Refs.mk (Refs.isDrawing rf) (Refs.currentElement rf)
          (Refs.startPoint rf) currentTime None in
      match activeTool with
      | Select => Ok (mkApp st rf1)
      | _ =>
          let rf2 :=
            Refs.mk true (Refs.currentElement rf1) (Some point)
              (Refs.lastClickTime rf1) (Refs.lastClickElement rf1) in
          match activeTool with
          | Text =>
              if existsb isTextEditing (Editor.elements st) then
                (* Don't open another editor if one is already open *)
                Ok (mkApp st rf2)
              else
                (* Check if clicking on existing text element first *)
                let* textElement :=
                  getTextElementAtPoint env (Editor.elements st) point in
                match textElement with
                | Some textElement =>
                    let* st' := editExistingText env textElement st in
                    Ok (mkApp st' rf2)
                | None =>
                    (* Get viewport coordinates for text positioning *)
                    let viewportPoint := getViewportPos e in
                    let newElement :=
                      mkElement (toString (Env.idNow env)) Text [viewportPoint]
                        strokeColor strokeWidth (Some EmptyString)
                        (Some fontSize) None None (Some true)
                        (Some (TextFormat.mk "Arial" fontSize false false false
                                 strokeColor None)) in
                    Ok (mkApp (Editor.handleElementAdd st newElement) rf2)
                end
          | _ =>
              Ok (mkApp st
                    (Refs.mk (Refs.isDrawing rf2)
                       (Some (mkElement (toString (Env.idNow env)) activeTool
                                [point] strokeColor strokeWidth
                                None None None None None None))
                       (Refs.startPoint rf2)
                       (Refs.lastClickTime rf2) (Refs.lastClickElement rf2)))
          end
      end
  end.

End Interaction.

(** [handleMouseMove]; the element in progress lives in a ref and is
    replaced by its updated value.  A shape whose start point is [null]
    would hold a [null] point, which the redraw that follows dereferences. *)
Definition handleMouseMove (env : Env.t) (e : MouseEvent) (app : App)
  : result App :=
  let rf := refs app in
  let activeTool := ToolState.activeTool (Editor.tools (editor app)) in
  match Refs.isDrawing rf, Refs.currentElement rf, activeTool with
  | false, _, _ => Ok app
  | _, None, _ => Ok app
  | _, _, Select => Ok app
  | true, Some current, _ =>
      let point := getMousePos env e in
      let* newPoints :=
        match activeTool with
        | Draw => Ok (points current ++ [point])
        | _ =>
            (* For shapes, just update the end point *)
            match Refs.startPoint rf with
            | Some start => Ok [start; point]
            | None => Throw TypeError
            end
        end in
      Ok (mkApp (editor app)
            (Refs.mk (Refs.isDrawing rf)
               (Some (spread current
                        (Partial.mk None None (Some newPoints) None None None
                           None None None None None)))
               (Refs.startPoint rf)
               (Refs.lastClickTime rf) (Refs.lastClickElement rf)))
  end.

Definition handleMouseUp (app : App) : App :=
  let rf := refs app in
  match Refs.isDrawing rf, Refs.currentElement rf with
  | true, Some current =>
      mkApp (Editor.handleElementAdd (editor app) current)
        (Refs.mk false None None
           (Refs.lastClickTime rf) (Refs.lastClickElement rf))
  | _, _ => app
  end.

(** ** In-place text editor (RichTextEditor.tsx) *)

(** [handleConfirm] of the editor opened on the element [id']; [text'] and
    [format] are the state of the editor. *)
Definition handleConfirm (canvas : option DOMRect) (id' : string)
    (text' : string) (format : TextFormat) (st : Editor.t) : Editor.t :=
  match trim text' with
  | EmptyString => (* onCancel() *) Editor.handleTextCancel st id'
  | trimmed => (* onConfirm(text.trim(), format) *)
      Editor.handleTextConfirm st canvas id' trimmed (Some format)
  end.

(** ** Events *)

(** The listeners run one at a time.  An event is handled to the end,
    with the state updates it queues and the checkpoint it defers by
    [setTimeout(..., 0)], before the next event is taken; the handlers of
    the next event close over the state so reached. *)

Inductive Event : Type :=
| MouseDown (env : Env.t) (e : MouseEvent)
| MouseMove (env : Env.t) (e : MouseEvent)
| MouseUp
| ToolChange (tool : ToolType)
| Undo
| Redo
| Confirm (canvas : option DOMRect) (id' : string) (text' : string)
    (format : TextFormat)
| Cancel (id' : string)
| TextChange (id' : string) (text' : string)
| TextMove (id' : string) (deltaX deltaY : R).

Section Run.

Variable measureText : R -> string -> R.

Definition withEditor (app : App) (st : Editor.t) : App :=
  mkApp st (refs app).

(** One event, through the listeners that the components install.  With
    the eraser the mouse listeners only paint on the canvas. *)
Definition step (app : App) (ev : Event) : result App :=
  let activeTool := ToolState.activeTool (Editor.tools (editor app)) in
  match ev with
  | MouseDown env e =>
      match activeTool with
      | Eraser => Ok app
      | _ => handleMouseDown measureText env e app
      end
  | MouseMove env e =>
      match activeTool with
      | Eraser =>
          if (buttons e =? 1)%Z then Ok app else handleMouseMove env e app
      | _ => handleMouseMove env e app
      end
  | MouseUp => Ok (handleMouseUp app)
  | ToolChange tool =>
      Ok (withEditor app (Editor.setActiveTool (editor app) tool))
  | Undo =>
      let* st := Editor.handleUndo (editor app) in Ok (withEditor app st)
  | Redo =>
      let* st := Editor.handleRedo (editor app) in Ok (withEditor app st)
  | Confirm canvas id' text' format =>
      Ok (withEditor app (handleConfirm canvas id' text' format (editor app)))
  | Cancel id' =>
      Ok (withEditor app (Editor.handleTextCancel (editor app) id'))
  | TextChange id' text' =>
      Ok (withEditor app (Editor.handleTextChange (editor app) id' text'))
  | TextMove id' deltaX deltaY =>
      Ok (withEditor app
            (Editor.handleTextMove (editor app) id' deltaX deltaY))
  end.

Fixpoint run (app : App) (evs : list Event) : result App :=
  match evs with
  | [] => Ok app
  | ev :: rest => let* app' := step app ev in run app' rest
  end.

End Run.

Definition initialApp : App := mkApp Editor.initial Refs.initial.

(** ** Sample elements *)

(** The rectangle with corners (10,10) and (50,40). *)
Definition rectangle_10_10_50_40 : DrawingElement :=
  mkElement "1" Rectangle [Point.mk 10 10; Point.mk 50 40] "#ff0000" 2
    None None None None None None.

(** The text "Hi" anchored at the canvas point (20,30), font size 16. *)
Definition text_hi_20_30 : DrawingElement :=
  mkElement "2" Text [Point.mk 20 30] "#000000" 2 (Some "Hi"%string) (Some 16)
    None None (Some false) None.

(** The circle centred at (0,0) through (30,40). *)
Definition circle_0_0_30_40 : DrawingElement :=
  mkElement "3" Circle [Point.mk 0 0; Point.mk 30 40] "#ff0000" 2
    None None None None None None.

(** The Euclidean distance between two canvas points. *)
Definition distance (p q : Point) : R :=
  sqrt ((Point.x q - Point.x p) ^ 2 + (Point.y q - Point.y p) ^ 2).

(** ** Colours and texts that pdf-lib accepts *)

(** [rgb(color.r, color.g, color.b)] for the parsed colour of an element. *)
Definition inkOf (colorStr : string) : result Color :=
  let color := parseColor colorStr in
  rgb (r color) (g color) (b color).

(** The element makes neither [rgb] nor [drawText] throw: its colour parses
    into three channels between 0 and 1 and, if it is a text, the font can
    encode its text. *)
Definition paintable (font : PDFFont) (el : DrawingElement) : Prop :=
  (exists ink, inkOf (color el) = Ok ink)
  /\ (type el = Text -> encodes font (string_value (text el)) = true).

(** A sample of [pdfDoc.embedFont] for the concrete runs: font objects that
    accept the texts made of printable ASCII characters and line feeds,
    which the WinAnsi encoding of the standard fonts has. *)
Definition isPrintableAscii (c : ascii) : bool :=
  let n := N_of_ascii c in
  (((32 <=? n) && (n <=? 126)) || (n =? 10))%N.

Fixpoint allPrintableAscii (s : string) : bool :=
  match s with
  | EmptyString => true
  | String c s' => isPrintableAscii c && allPrintableAscii s'
  end.

Definition asciiFont (name : StandardFonts) : PDFFont :=
  mkFont name allPrintableAscii.

(** ** Validation predicates *)

(** The predicates [isComplete] and [isExportable] of the specification
    (annotation model); the sources have no function for them, they are
    used to state properties of the exporter. *)
Definition isShape (t : ToolType) : bool :=
  match t with
  | Rectangle | Circle | Arrow | Highlight => true
  | _ => false
  end.

Definition isComplete (el : DrawingElement) : bool :=
  negb (List.length (points el) =? 0)%nat
  && (if isShape (type el) then (2 <=? List.length (points el))%nat else true).

Definition isExportable (el : DrawingElement) : bool :=
  isComplete el
  && negb (truthy_bool (isEditing el))
  && (if ToolType_eqb (type el) Text then truthy_string (text el) else true).

(** An element that is too short for its kind, or a text without text or
    without anchor. *)
Definition malformed (el : DrawingElement) : bool :=
  match type el with
  | Rectangle | Circle | Arrow | Highlight | Draw =>
      (List.length (points el) <? 2)%nat
  | Text =>
      negb (truthy_string (text el)) || (List.length (points el) =? 0)%nat
  | Select | Eraser => false
  end.

(** A text element under edit with the text "Hi", anchored at the viewport
    point (120,80). *)
Definition editing_text_hi : DrawingElement :=
  mkElement "1700000000000" Text [Point.mk 120 80] "#ff0000" 2
    (Some "Hi"%string) (Some 16) None None (Some true)
    (Some (TextFormat.mk "Arial" 16 false false false "#ff0000" None)).

(** A document of one empty page, 100 by 200. *)
Definition blank_document : PDFDocument := [mkPage 100 200 []].


(** A click with the text tool at the viewport point (120,80), the canvas
    being at (20,30), at time 1700000000000. *)
Definition click_120_80 : MouseEvent := mkMouseEvent 120 80 1.

Definition env_1700000000000 : Env.t :=
  Env.mk (Some (DOMRect.mk 20 30)) true 1700000000000 1700000000000.

(** ** Hexadecimal digits *)

Definition isHexDigit (c : ascii) : bool :=
  match digitValue c with
  | Some d => (d <? 16)%Z
  | None => false
  end.

Definition hexValue (c : ascii) : Z :=
  match digitValue c with
  | Some d => d
  | None => 0%Z
  end.

(** The value of two hexadecimal digits. *)
Definition hexPair (c1 c2 : ascii) : Z := (16 * hexValue c1 + hexValue c2)%Z.

Definition opt_Z_eqb (a b : option Z) : bool :=
  match a, b with
  | Some u, Some v => (u =? v)%Z
  | None, None => true
  | _, _ => false
  end.

(** All the 8-bit characters. *)
Definition all_ascii : list ascii := map ascii_of_nat (seq 0 256).

(** What [parseInt] must return on two hexadecimal digits, as a test. *)
Definition parseInt_hexPair_test (c1 c2 : ascii) : bool :=
  implb (isHexDigit c1 && isHexDigit c2)
    (opt_Z_eqb (parseInt (String c1 (String c2 EmptyString)) 16)
       (Some (hexPair c1 c2))
     && (0 <=? hexPair c1 c2)%Z && (hexPair c1 c2 <=? 255)%Z).

(** The committed text "Hi" anchored at the canvas point (5,20), font size
    16. *)
Definition committed_text_5_20 : DrawingElement :=
  mkElement "7" Text [Point.mk 5 20] "#000000" 2 (Some "Hi"%string) (Some 16)
    None None (Some false)
    (Some (TextFormat.mk "Arial" 16 false false false "#000000" None)).

(** The format that the editor confirms when nothing was changed. *)
Definition format_arial_16 : TextFormat :=
  TextFormat.mk "Arial" 16 false false false "#000000" None.

(** An editor whose set is [els], with the text tool active and an empty
    history. *)
Definition editor_with (tool : ToolType) (els : list DrawingElement) : Editor.t :=
  Editor.mk 1 (ToolState.mk tool "#ff0000" 2 16) els [] (-1)%Z.

(** A canvas whose bounding rectangle starts at (100,50). *)
Definition canvas_100_50 : DOMRect := DOMRect.mk 100 50.

(** A click at the viewport point (106,65), that is the canvas point (6,15). *)
Definition click_106_65 : MouseEvent := mkMouseEvent 106 65 1.

Definition env_canvas_100_50 : Env.t :=
  Env.mk (Some canvas_100_50) true 1700000001000 1700000001000.

(** The same canvas, 200 milliseconds later. *)
Definition env_200ms_later : Env.t :=
  Env.mk (Some canvas_100_50) true 1700000001200 1700000001200.

(** Every line measures 10 pixels. *)
Definition measure_10 (size : R) (line : string) : R := 10.

(** ** Well-formed history *)

(** The cursor is [-1] on an empty history and an index of the history
    otherwise. *)
Definition wf_history (st : Editor.t) : Prop :=
  (-1 <= Editor.historyIndex st < Z.of_nat (List.length (Editor.history st)))%Z.

(** A press of the undo or of the redo button. *)
Inductive HistoryMove : Type :=
| MoveUndo
| MoveRedo.

Definition move (st : Editor.t) (m : HistoryMove) : result Editor.t :=
  match m with
  | MoveUndo => Editor.handleUndo st
  | MoveRedo => Editor.handleRedo st
  end.

Fixpoint moves (st : Editor.t) (ms : list HistoryMove) : result Editor.t :=
  match ms with
  | [] => Ok st
  | m :: rest => let* st' := move st m in moves st' rest
  end.

(** The editor after adding the rectangle and then the text "Hi". *)
Definition editor_two_checkpoints : Editor.t :=
  Editor.handleElementAdd
    (Editor.handleElementAdd Editor.initial rectangle_10_10_50_40)
    text_hi_20_30.

(** ** Identifiers *)

Definition ids (l : list DrawingElement) : list string := map id l.

(** The identifier was made from a clock reading below [T]. *)
Definition belowId (T : Z) (s : string) : Prop :=
  exists t, s = toString t /\ (t < T)%Z.

(** The identifiers of a set are distinct, were made before [T], and none
    is the identifier of the element in progress. *)
Definition okIds (T : Z) (pending : option DrawingElement)
    (l : list DrawingElement) : Prop :=
  NoDup (ids l)
  /\ Forall (belowId T) (ids l)
  /\ (forall c, pending = Some c -> ~ In (id c) (ids l)).

(** The invariant of the application for identifiers: it holds of the
    current set and of every snapshot of the history. *)
Definition editorIds (T : Z) (pending : option DrawingElement)
    (st : Editor.t) : Prop :=
  okIds T pending (Editor.elements st)
  /\ Forall (fun h => okIds T pending (HistoryState.elements h))
       (Editor.history st).

Definition idsInvariant (T : Z) (app : App) : Prop :=
  let pending := Refs.currentElement (refs app) in
  editorIds T pending (editor app)
  /\ (forall c, pending = Some c -> belowId T (id c)).

(** The clock readings from which the pointer-downs make identifiers are
    strictly increasing along the events, starting at [T] or later. *)
Fixpoint increasing_stamps (T : Z) (evs : list Event) : Prop :=
  match evs with
  | [] => True
  | MouseDown env _ :: rest =>
      (T <= Env.idNow env)%Z /\ increasing_stamps (Env.idNow env + 1) rest
  | _ :: rest => increasing_stamps T rest
  end.

(** The bound on the clock readings after one event. *)
Definition next_stamp (T : Z) (ev : Event) : Z :=
  match ev with
  | MouseDown env _ => (Env.idNow env + 1)%Z
  | _ => T
  end.

(** A pointer-down with the draw tool at the canvas point (10,10), read at
    time 1700000001000, and the same one second later. *)
Definition click_110_60 : MouseEvent := mkMouseEvent 110 60 1.

Definition env_one_second_later : Env.t :=
  Env.mk (Some canvas_100_50) true 1700000002000 1700000002000.

(** Two strokes started within the same clock reading. *)
Definition two_strokes_same_stamp : list Event :=
  [ToolChange Draw;
   MouseDown env_canvas_100_50 click_110_60; MouseUp;
   MouseDown env_canvas_100_50 click_110_60; MouseUp].

(** Two strokes started one second apart. *)
Definition two_strokes_apart : list Event :=
  [ToolChange Draw;
   MouseDown env_canvas_100_50 click_110_60; MouseUp;
   MouseDown env_one_second_later click_110_60; MouseUp].

(** A stroke, and a press with the text tool within the same clock
    reading. *)
Definition stroke_and_draft_same_stamp : list Event :=
  [ToolChange Draw;
   MouseDown env_canvas_100_50 click_110_60; MouseUp;
   ToolChange Text;
   MouseDown env_canvas_100_50 click_110_60].

(** A press with the text tool, the confirmation of a blank text in the
    editor that it opens, a stroke one second later, and undo. *)
Definition blank_draft_then_stroke_then_undo : list Event :=
  [ToolChange Text;
   MouseDown env_canvas_100_50 click_110_60;
   Confirm (Some canvas_100_50) "1700000001000" "  "
     (TextFormat.mk "Arial" 16 false false false "#000000" None);
   ToolChange Draw;
   MouseDown env_one_second_later click_110_60; MouseUp;
   Undo].


(** An editor whose set holds the rectangle and the text under edit. *)
Definition editor_rectangle_and_draft : Editor.t :=
  editor_with Text [rectangle_10_10_50_40; editing_text_hi].

(** ** States in which no handler throws *)

(** A text element has an anchor. *)
Definition anchored (el : DrawingElement) : Prop :=
  type el = Text -> points el <> [].

(** The history is well-formed and the texts of the set and of every
    snapshot have an anchor. *)
Definition safeEditor (st : Editor.t) : Prop :=
  wf_history st
  /\ Forall anchored (Editor.elements st)
  /\ Forall (fun h => Forall anchored (HistoryState.elements h))
       (Editor.history st).

(** Moreover an element in progress is not a text and has its start
    point. *)
Definition safe (app : App) : Prop :=
  safeEditor (editor app)
  /\ (forall c, Refs.currentElement (refs app) = Some c ->
        type c <> Text /\ Refs.startPoint (refs app) <> None).

(** ** Edits of the set that take no checkpoint *)

(** The handlers of the editor that replace the set and leave the history
    alone. *)
Inductive Edit : Type :=
| EditUpdate (id' : string) (updates : Partial.t)
| EditDelete (id' : string)
| EditEdit (id' : string)
| EditCancel (id' : string)
| EditMove (id' : string) (deltaX deltaY : R)
| EditChange (id' : string) (text' : string).

Definition applyEdit (st : Editor.t) (ed : Edit) : Editor.t :=
  match ed with
  | EditUpdate id' updates => Editor.handleElementUpdate st id' updates
  | EditDelete id' => Editor.handleElementDelete st id'
  | EditEdit id' => Editor.handleElementEdit st id'
  | EditCancel id' => Editor.handleTextCancel st id'
  | EditMove id' deltaX deltaY => Editor.handleTextMove st id' deltaX deltaY
  | EditChange id' text' => Editor.handleTextChange st id' text'
  end.

(** The identifier an edit looks for. *)
Definition editTarget (ed : Edit) : string :=
  match ed with
  | EditUpdate id' _ | EditDelete id' | EditEdit id' | EditCancel id'
  | EditMove id' _ _ | EditChange id' _ => id'
  end.

(** Whether an edit filters elements out (the others map over the set). *)
Definition editRemoves (ed : Edit) : bool :=
  match ed with
  | EditDelete _ | EditCancel _ => true
  | _ => false
  end.

(** Adding elements one after the other. *)
Definition addAll (st : Editor.t) (es : list DrawingElement) : Editor.t :=
  fold_left Editor.handleElementAdd es st.

(** ** Paths *)

(** Whether two canvas points are the same point. *)
Definition same_point (p q : Point) : bool :=
  if Req_dec_T (Point.x p) (Point.x q)
  then if Req_dec_T (Point.y p) (Point.y q) then true else false
  else false.

(** The consecutive pairs of a path whose two points differ. *)
Fixpoint moving_pairs (pts : list Point) : list (Point * Point) :=
  match pts with
  | p :: ((q :: _) as rest) =>
      if same_point p q then moving_pairs rest else (p, q) :: moving_pairs rest
  | _ => []
  end.

(** A freehand stroke through four points, the second repeated. *)
Definition stroke_with_pause : DrawingElement :=
  mkElement "5" Draw
    [Point.mk 0 0; Point.mk 30 40; Point.mk 30 40; Point.mk 60 40]
    "#ff0000" 2 None None None None None None.

(** An arrow from (0,0) to (30,40), and the same dragged back. *)
Definition arrow_0_0_30_40 : DrawingElement :=
  mkElement "6" Arrow [Point.mk 0 0; Point.mk 30 40] "#ff0000" 2
    None None None None None None.

Definition rectangle_50_40_10_10 : DrawingElement :=
  mkElement "8" Rectangle [Point.mk 50 40; Point.mk 10 10] "#ff0000" 2
    None None None None None None.

(** A highlight dragged along a horizontal line. *)
Definition highlight_flat : DrawingElement :=
  mkElement "10" Highlight [Point.mk 10 30; Point.mk 90 30] "#ffff00" 2
    None None None None None None.

(** What the body of the loop of the draw case issues for the segment from
    the canvas point [p] to the canvas point [q]. *)
Definition segmentCommands (scale pageHeight strokeWidth : R) (ink : Color)
    (p q : Point) : list DrawCommand :=
  let start := convertCoords scale pageHeight (Point.x p) (Point.y p) in
  let end_ := convertCoords scale pageHeight (Point.x q) (Point.y q) in
  let dx := Point.x end_ - Point.x start in
  let dy := Point.y end_ - Point.y start in
  let length := sqrt (dx * dx + dy * dy) in
  if Rlt_dec 0 length then
    [drawRectangle
       (lineRectangle start length (strokeWidth / scale)
          (atan2 dy dx * 180 / PI) ink)]
  else [].

(** The rectangle that stands for the segment from the canvas point [p] to
    the canvas point [q] of a line of the given stroke width, in page
    coordinates: it starts at the converted [p], is as long as the segment
    and is turned to its direction on the page. *)
Definition segmentBox (scale pageHeight strokeWidth : R) (ink : Color)
    (p q : Point) : RectangleOptions.t :=
  RectangleOptions.mk
    (Point.x p / scale)
    (pageHeight - Point.y p / scale - strokeWidth / scale / 2)
    (distance p q / scale) (strokeWidth / scale)
    None None (Some ink) None
    (Some (atan2 (Point.y p - Point.y q) (Point.x q - Point.x p) * 180 / PI)).

(** ** The editor: file, page and zoom (PDFEditor component) *)

(** A [File] of the browser: its name, its MIME type and its content. *)
Module File.
Record t (Bytes : Type) : Type := mk {
  name : string;
  type : string;
  arrayBuffer : Bytes
}.
Arguments mk {Bytes} _ _ _.
Arguments name {Bytes} _.
Arguments type {Bytes} _.
Arguments arrayBuffer {Bytes} _.
End File.

(** The state of the component: the file and view state beside the tool
    and drawing state of [Editor.t]. *)
Module Component.
Record t (Bytes : Type) : Type := mk {
  (* File state *)
  pdfFile : option (File.t Bytes);
  (* View state *)
  currentPage : Z;
  totalPages : Z;
  (* Tool and drawing state, with the scale *)
  editor : Editor.t
}.
Arguments mk {Bytes} _ _ _ _.
Arguments pdfFile {Bytes} _.
Arguments currentPage {Bytes} _.
Arguments totalPages {Bytes} _.
Arguments editor {Bytes} _.

Definition initial (Bytes : Type) : t Bytes := mk None 1 0 Editor.initial.
End Component.

(** What [handleDownload] does to the outside. *)
Inductive Effect (Bytes : Type) : Type :=
| alert (message : string)
| saveAs (data : Bytes) (filename : string)
| console_error (label : string) (error : JsError).
Arguments alert {Bytes} _.
Arguments saveAs {Bytes} _ _.
Arguments console_error {Bytes} _ _.

Inductive ViewEvent : Type :=
| PreviousPage
| NextPage
| ZoomIn
| ZoomOut.

Section ComponentHandlers.

Variable Bytes : Type.
Variable load : Bytes -> result PDFDocument.
Variable save : PDFDocument -> Bytes.
Variable embedFont : StandardFonts -> PDFFont.

Definition setScale (st : Editor.t) (scale : R) : Editor.t :=
  Editor.mk scale (Editor.tools st) (Editor.elements st) (Editor.history st)
    (Editor.historyIndex st).

(** File handling *)
Definition handleFileUpload (file : File.t Bytes) (c : Component.t Bytes)
  : Component.t Bytes :=
  Component.mk (Some file) 1 (Component.totalPages c)
    (Editor.setHistoryIndex
       (Editor.setHistory (Editor.setElements (Component.editor c) []) [])
       (-1)).

(** [handleFileUpload] of the toolbar, on [event.target.files]. *)
Definition Toolbar_handleFileUpload (files : list (File.t Bytes))
    (c : Component.t Bytes) : Component.t Bytes :=
  match files with
  | file :: _ =>
      if String.eqb (File.type file) "application/pdf"
      then handleFileUpload file c
      else c
  | [] => c
  end.

Definition handleDocumentLoadSuccess (numPages : Z) (c : Component.t Bytes)
  : Component.t Bytes :=
  Component.mk (Component.pdfFile c) (Component.currentPage c) numPages
    (Component.editor c).

(** Navigation *)
Definition handlePreviousPage (c : Component.t Bytes) : Component.t Bytes :=
  if (1 <? Component.currentPage c)%Z then
    Component.mk (Component.pdfFile c) (Component.currentPage c - 1)
      (Component.totalPages c) (Component.editor c)
  else c.

Definition handleNextPage (c : Component.t Bytes) : Component.t Bytes :=
  if (Component.currentPage c <? Component.totalPages c)%Z then
    Component.mk (Component.pdfFile c) (Component.currentPage c + 1)
      (Component.totalPages c) (Component.editor c)
  else c.

(** Zoom *)
Definition handleZoomIn (c : Component.t Bytes) : Component.t Bytes :=
  Component.mk (Component.pdfFile c) (Component.currentPage c)
    (Component.totalPages c)
    (setScale (Component.editor c)
       (Rmin (Editor.scale (Component.editor c) + 25 / 100) 3)).

Definition handleZoomOut (c : Component.t Bytes) : Component.t Bytes :=
  Component.mk (Component.pdfFile c) (Component.currentPage c)
    (Component.totalPages c)
    (setScale (Component.editor c)
       (Rmax (Editor.scale (Component.editor c) - 25 / 100) (25 / 100))).

(** Export.  [saveAs] and [alert] are taken not to throw. *)
Definition handleDownload (c : Component.t Bytes) : list (Effect Bytes) :=
  match Component.pdfFile c with
  | None => [alert "No PDF file loaded"]
  | Some pdfFile =>
      let elements := Editor.elements (Component.editor c) in
      if (0 <? List.length elements)%nat then
        (* Merge annotations with PDF *)
        match mergePDFWithAnnotations Bytes load save embedFont
                (File.arrayBuffer pdfFile) elements
                (Component.currentPage c)
                (Editor.scale (Component.editor c)) with
        | Ok mergedPDFBytes =>
            (* Create blob and download *)
            [saveAs mergedPDFBytes ("edited-" ++ File.name pdfFile)%string]
        | Throw error =>
            [console_error "Error downloading PDF:" error;
             alert "Error downloading PDF. Please try again."]
        end
      else
        (* No annotations, just download original *)
        [saveAs (File.arrayBuffer pdfFile)
           ("copy-" ++ File.name pdfFile)%string]
  end.

(** The buttons of the toolbar for the page and the zoom; the buttons for
    the previous and the next page are disabled when [currentPage <= 1]
    and when [currentPage >= totalPages]. *)
Definition viewStep (c : Component.t Bytes) (ev : ViewEvent)
  : Component.t Bytes :=
  match ev with
  | PreviousPage =>
      if (Component.currentPage c <=? 1)%Z then c else handlePreviousPage c
  | NextPage =>
      if (Component.totalPages c <=? Component.currentPage c)%Z then c
      else handleNextPage c
  | ZoomIn => handleZoomIn c
  | ZoomOut => handleZoomOut c
  end.

Definition viewRun (c : Component.t Bytes) (evs : list ViewEvent)
  : Component.t Bytes :=
  fold_left viewStep evs c.

End ComponentHandlers.

(** A two-page document and the file that holds it; the bytes of a file are
    modelled by the document itself. *)
Definition two_page_document : PDFDocument :=
  [mkPage 600 800 []; mkPage 600 800 []].

Definition file_two_pages : File.t PDFDocument :=
  File.mk "a.pdf" "application/pdf" two_page_document.

Definition component_two_pages : Component.t PDFDocument :=
  Component.mk (Some file_two_pages) 1 2
    (Editor.setElements Editor.initial [rectangle_10_10_50_40]).

(** The zoom levels of the toolbar: the quarters from 1/4 to 3. *)
Definition quarterScale (scale : R) : Prop :=
  exists k : Z, (1 <= k <= 12)%Z /\ scale = IZR k / 4.

(** ** Pointer gestures *)

(** A press, the moves that follow it and the release. *)
Definition gesture (env0 : Env.t) (e0 : MouseEvent)
    (moves : list (Env.t * MouseEvent)) : list Event :=
  MouseDown env0 e0
  :: map (fun m => MouseMove (fst m) (snd m)) moves ++ [MouseUp].

(** The tools whose gesture makes an element on release. *)
Definition isDrawingTool (tool : ToolType) : bool :=
  match tool with
  | Select | Text | Eraser => false
  | _ => true
  end.

(** The points that a gesture leaves in its element: the whole path for
    the pen, the start and the last position for a shape, the start alone
    when the pointer did not move. *)
Definition gesturePoints (tool : ToolType) (start : Point)
    (moved : list Point) : list Point :=
  match tool with
  | Draw => start :: moved
  | _ =>
      match moved with
      | [] => [start]
      | _ => [start; last moved start]
      end
  end.

(** The rectangle tool ready on an empty set, and a drag from the canvas
    point (10,10) through (30,20) to (50,40) on the canvas at (100,50). *)
Definition app_rectangle_tool : App :=
  mkApp (Editor.setActiveTool Editor.initial Rectangle) Refs.initial.

Definition drag_10_10_50_40 : list (Env.t * MouseEvent) :=
  [(env_canvas_100_50, mkMouseEvent 130 70 1);
   (env_canvas_100_50, mkMouseEvent 150 90 1)].

(** The events of the pointer on the canvas. *)
Definition isPointerEvent (ev : Event) : bool :=
  match ev with
  | MouseDown _ _ | MouseMove _ _ | MouseUp => true
  | _ => false
  end.

(** The eraser ready on a set that holds a rectangle. *)
Definition app_eraser_tool : App :=
  mkApp (editor_with Eraser [rectangle_10_10_50_40]) Refs.initial.

(** ** The region of a committed text *)

(** A text that the hit test considers: it has characters and its editor
    is not open. *)
Definition isCommittedText (el : DrawingElement) : bool :=
  ToolType_eqb (type el) Text && truthy_string (text el)
  && negb (truthy_bool (isEditing el)).

(** The point is in the box of the line of index [lineIndex] of the text:
    from 2 pixels left of the anchor to 2 pixels right of the end of the
    line, and from 2 pixels above the font size over the baseline of the
    line to 4 pixels under it; the baselines are 1.2 font sizes apart. *)
Definition inLineBox (measureText : R -> string -> R) (el : DrawingElement)
    (point : Point) (lineIndex : nat) (line : string) : Prop :=
  exists p0 more,
    points el = p0 :: more
    /\ let size := opt_num_or (fontSize el) 16 in
       let lineY := Point.y p0 + INR lineIndex * (size * (12 / 10)) in
       (Point.x p0 - 2 <= Point.x point <= Point.x p0 + measureText size line + 2)
       /\ (lineY - size - 2 <= Point.y point <= lineY + 4).

(** The point is on the text: in the box of one of its lines. *)
Definition pointOnText (measureText : R -> string -> R) (point : Point)
    (el : DrawingElement) : Prop :=
  isCommittedText el = true
  /\ exists i line,
       nth_error (split_lines (string_value (text el))) i = Some line
       /\ inLineBox measureText el point i line.

(** Two committed texts, the second over the first, and a point on both. *)
Definition text_over_5_20 : DrawingElement :=
  mkElement "8" Text [Point.mk 5 20] "#000000" 2 (Some "Yo"%string) (Some 16)
    None None (Some false) None.

(** The select tool ready on a set that holds the committed text. *)
Definition app_select_tool : App :=
  mkApp (editor_with Select [committed_text_5_20]) Refs.initial.

(** ** Open editors *)

(** The elements for which the component renders an [InPlaceTextEditor]:
    [elements.filter(el => el.type === 'text' && el.isEditing)]. *)
Definition openEditors (els : list DrawingElement) : list DrawingElement :=
  filter isTextEditing els.

Definition atMostOneOpen (els : list DrawingElement) : Prop :=
  (List.length (openEditors els) <= 1)%nat.

(** At most one editor is open in the set and in every snapshot of the
    history. *)
Definition oneEditor (st : Editor.t) : Prop :=
  atMostOneOpen (Editor.elements st)
  /\ Forall (fun h => atMostOneOpen (HistoryState.elements h))
       (Editor.history st).

(** A text is made with the text tool and a second press follows while its
    editor is open. *)
Definition two_text_presses : list Event :=
  [ToolChange Text;
   MouseDown env_canvas_100_50 click_110_60;
   MouseDown env_one_second_later click_106_65].


(** ** Dragging the in-place editor (RichTextEditor.tsx) *)

Module InPlaceTextEditor.

(** The state of the editor that its mouse handlers read and write. *)
Record DragState : Type := mkDragState {
  isDragging : bool;
  dragStart : Point
}.

Definition initialDragState : DragState := mkDragState false (Point.mk 0 0).

(** [onInput] tells whether [e.target === textInputRef.current]. *)
Definition handleMouseDown (onInput : bool) (e : MouseEvent) (s : DragState)
  : DragState :=
  (* Only start dragging if clicking on the text input itself (not toolbar) *)
  if onInput then mkDragState true (Point.mk (clientX e) (clientY e)) else s.

(** [onMove] is [handleTextMove] for the element of the editor. *)
Definition handleMouseMove (id' : string) (e : MouseEvent)
    (state : DragState * Editor.t) : DragState * Editor.t :=
  let (s, st) := state in
  if negb (isDragging s) then (s, st)
  else
    let deltaX := clientX e - Point.x (dragStart s) in
    let deltaY := clientY e - Point.y (dragStart s) in
    (mkDragState (isDragging s) (Point.mk (clientX e) (clientY e)),
     Editor.handleTextMove st id' deltaX deltaY).

Definition handleMouseUp (s : DragState) : DragState :=
  mkDragState false (dragStart s).

(** A press on the input and the moves that follow. *)
Definition drag (id' : string) (e0 : MouseEvent) (moves : list MouseEvent)
    (state : DragState * Editor.t) : DragState * Editor.t :=
  fold_left (fun acc e => handleMouseMove id' e acc) moves
    (handleMouseDown true e0 (fst state), snd state).

End InPlaceTextEditor.

(** The element with its points moved by [(dx, dy)]. *)
Definition movedBy (dx dy : R) (el : DrawingElement) : DrawingElement :=
  spread el
    (Partial.mk None None
       (Some (map (fun point =>
                     Point.mk (Point.x point + dx) (Point.y point + dy))
                (points el)))
       None None None None None None None None).

(** The committed text as it is after a confirm with a bold, italic and
    underlined Courier of 32 pixels in blue on yellow. *)
Definition committed_text_restyled : DrawingElement :=
  mkElement "9" Text [Point.mk 5 20] "#000000" 2 (Some "Hi"%string) (Some 16)
    (Some 40) (Some 20) (Some true)
    (Some (TextFormat.mk "Courier New" 32 true true true "#0066ff"
             (Some "#ffcc00"%string))).

(** ** Canvas rendering (CanvasDrawing component) *)

(** The value of [ctx.font], the string
    [italic bold <size>px <family>], by its parts. *)
Module CanvasFont.
Record t : Type := mk {
  italic : bool;
  bold : bool;
  size : R;
  family : string
}.
End CanvasFont.

(** The calls and assignments on the 2D context, in order. *)
Inductive CanvasCommand : Type :=
| setStrokeStyle (style : string)
| setLineWidth (lineWidth : R)
| setLineCap (cap : string)
| setLineJoin (join : string)
| setFont (font : CanvasFont.t)
| setFillStyle (style : string)
| setGlobalAlpha (alpha : R)
| beginPath
| moveTo (x y : R)
| lineTo (x y : R)
| stroke
| strokeRect (x y w h : R)
| arc (x y radius startAngle endAngle : R)
| fillRect (x y w h : R)
| fillText (line : string) (x y : R).

(** [a || b] on strings. *)
Definition string_or (a b : string) : string :=
  match a with
  | EmptyString => b
  | _ => a
  end.

Section Canvas.

(** [ctx.measureText(line).width] under the font that [ctx.font] holds. *)
Variable measure : CanvasFont.t -> string -> R.

(** [element.textFormat || { fontFamily: 'Arial', ... }] *)
Definition canvasFormat (element : DrawingElement) : TextFormat :=
  match textFormat element with
  | Some format => format
  | None =>
      TextFormat.mk "Arial" (opt_num_or (fontSize element) 16)
        false false false (color element) None
  end.

(** The font string that the text case builds. *)
Definition fontStyle (format : TextFormat) : CanvasFont.t :=
  CanvasFont.mk (TextFormat.isItalic format) (TextFormat.isBold format)
    (TextFormat.fontSize format) (TextFormat.fontFamily format).

(** The body of [lines.forEach((line, index) => ...)] and the loop. *)
Definition drawLine (element : DrawingElement) (format : TextFormat)
    (p0 : Point) (lineHeight : R) (index : nat) (line : string)
  : list CanvasCommand :=
  let y := Point.y p0 + INR index * lineHeight in
  let size := TextFormat.fontSize format in
  let width := measure (fontStyle format) line in
  (* Draw background if specified *)
  (if truthy_string (TextFormat.backgroundColor format)
      && negb (truthy_bool (isEditing element))
   then [setFillStyle (string_value (TextFormat.backgroundColor format));
         fillRect (Point.x p0 - 2) (y - size - 2) (width + 4) (size + 4)]
   else [])
  (* Draw semi-transparent background for better click detection *)
  ++ (if negb (truthy_bool (isEditing element))
         && negb (truthy_string (TextFormat.backgroundColor format))
      then [setFillStyle "rgba(255, 255, 255, 0.1)";
            fillRect (Point.x p0 - 2) (y - size - 2) (width + 4) (size + 4)]
      else [])
  (* Draw text *)
  ++ [setFillStyle (TextFormat.color format);
      fillText line (Point.x p0) y]
  (* Draw underline if needed *)
  ++ (if TextFormat.isUnderline format
      then [beginPath;
            moveTo (Point.x p0) (y + 2);
            lineTo (Point.x p0 + width) (y + 2);
            setStrokeStyle (TextFormat.color format);
            setLineWidth 1;
            stroke]
      else []).

Fixpoint drawLines (element : DrawingElement) (format : TextFormat)
    (p0 : Point) (lineHeight : R) (index : nat) (lines : list string)
  : list CanvasCommand :=
  match lines with
  | [] => []
  | line :: rest =>
      drawLine element format p0 lineHeight index line
      ++ drawLines element format p0 lineHeight (S index) rest
  end.

(** [drawElement(ctx, element)] *)
Definition drawElement (element : DrawingElement)
  : result (list CanvasCommand) :=
  let pts := points element in
  let styles :=
    [setStrokeStyle (color element);
     setLineWidth (strokeWidth element);
     setLineCap "round";
     setLineJoin "round"] in
  let* shape :=
    match type element with
    | Draw =>
        if (1 <? List.length pts)%nat then
          let* p0 := at_index pts 0 in
          let* path :=
            for_loop 1 (List.length pts - 1)
              (fun i => let* p := at_index pts i in
                        Ok [lineTo (Point.x p) (Point.y p)]) in
          Ok ([beginPath; moveTo (Point.x p0) (Point.y p0)] ++ path ++ [stroke])
        else Ok []
    | Rectangle =>
        if (2 <=? List.length pts)%nat then
          let* start := at_index pts 0 in
          let* end_ := last_point pts in
          let width := Point.x end_ - Point.x start in
          let height := Point.y end_ - Point.y start in
          Ok [strokeRect (Point.x start) (Point.y start) width height]
        else Ok []
    | Circle =>
        if (2 <=? List.length pts)%nat then
          let* start := at_index pts 0 in
          let* end_ := last_point pts in
          let radius :=
            sqrt ((Point.x end_ - Point.x start) ^ 2
                  + (Point.y end_ - Point.y start) ^ 2) in
          Ok [beginPath;
              arc (Point.x start) (Point.y start) radius 0 (2 * PI);
              stroke]
        else Ok []
    | Arrow =>
        if (2 <=? List.length pts)%nat then
          let* start := at_index pts 0 in
          let* end_ := last_point pts in
          (* Draw arrowhead *)
          let angle :=
            atan2 (Point.y end_ - Point.y start) (Point.x end_ - Point.x start) in
          let headLength := 15 in
          Ok [(* Draw arrow line *)
              beginPath;
              moveTo (Point.x start) (Point.y start);
              lineTo (Point.x end_) (Point.y end_);
              stroke;
              beginPath;
              moveTo (Point.x end_) (Point.y end_);
              lineTo (Point.x end_ - headLength * cos (angle - PI / 6))
                     (Point.y end_ - headLength * sin (angle - PI / 6));
              moveTo (Point.x end_) (Point.y end_);
              lineTo (Point.x end_ - headLength * cos (angle + PI / 6))
                     (Point.y end_ - headLength * sin (angle + PI / 6));
              stroke]
        else Ok []
    | Text =>
        if truthy_string (text element) && (0 <? List.length pts)%nat then
          let format := canvasFormat element in
          let* p0 := at_index pts 0 in
          (* Draw text with background for better visibility and interaction *)
          let lines := split_lines (string_value (text element)) in
          let lineHeight := TextFormat.fontSize format * (12 / 10) in
          Ok ([setFont (fontStyle format);
               setFillStyle (TextFormat.color format)]
              ++ drawLines element format p0 lineHeight 0 lines)
        else Ok []
    | Highlight =>
        if (2 <=? List.length pts)%nat then
          let* start := at_index pts 0 in
          let* end_ := last_point pts in
          let width := Point.x end_ - Point.x start in
          (* Default highlight height *)
          let height := num_or (Point.y end_ - Point.y start) 20 in
          Ok [setGlobalAlpha (3 / 10);
              setFillStyle (color element);
              fillRect (Point.x start) (Point.y start) width height;
              setGlobalAlpha 1]
        else Ok []
    | Select | Eraser => Ok []  (* no case of the switch *)
    end in
  Ok (styles ++ shape).

End Canvas.

(** Every line is as wide as ten times its font size. *)
Definition measure_font (font : CanvasFont.t) (line : string) : R :=
  10 * CanvasFont.size font.

(** The component once the canvas layer has handled events: its drawing
    state is that of the layer. *)
Definition withApp {Bytes : Type} (c : Component.t Bytes) (a : App)
  : Component.t Bytes :=
  Component.mk (Component.pdfFile c) (Component.currentPage c)
    (Component.totalPages c) (editor a).

(** The two-page file loaded, the rectangle tool active, no element. *)
Definition component_rectangle_tool : Component.t PDFDocument :=
  Component.mk (Some file_two_pages) 1 2
    (Editor.setActiveTool Editor.initial Rectangle).

(** [onElementAdd] of the canvas layer, in the component. *)
Definition componentAdd {Bytes : Type} (c : Component.t Bytes)
    (el : DrawingElement) : Component.t Bytes :=
  Component.mk (Component.pdfFile c) (Component.currentPage c)
    (Component.totalPages c)
    (Editor.handleElementAdd (Component.editor c) el).

(** A file of one page, uploaded while the two-page file is shown. *)
Definition file_one_page : File.t PDFDocument :=
  File.mk "b.pdf" "application/pdf" [mkPage 600 800 []].

(** * Properties *)

(** ** Arithmetic of the conversion *)

Section RealFacts.

Variables (s : R).
Hypothesis s_pos : 0 < s.

Lemma div_le_iff a b : a / s <= b / s <-> a <= b.
Proof.
  pose proof (Rinv_0_lt_compat s s_pos) as Hi.
  unfold Rdiv; split; intro H.
  - apply (Rmult_le_reg_r (/ s)); assumption.
  - apply Rmult_le_compat_r; lra.
Qed.

Lemma Rmin_div a b : Rmin (a / s) (b / s) = Rmin a b / s.
Proof.
  unfold Rmin.
  destruct (Rle_dec (a / s) (b / s)) as [H | H], (Rle_dec a b) as [H' | H'];
    try reflexivity; rewrite div_le_iff in H; contradiction.
Qed.

Lemma Rmin_flip_div h a b :
  Rmin (h - a / s) (h - b / s) = h - Rmax a b / s.
Proof.
  unfold Rmin, Rmax.
  destruct (Rle_dec (h - a / s) (h - b / s)) as [H | H],
           (Rle_dec a b) as [H' | H']; try reflexivity.
  - assert (b / s <= a / s) as H1 by lra.
    rewrite div_le_iff in H1. replace b with a by lra. reflexivity.
  - assert (~ b / s <= a / s) as H1 by lra.
    rewrite div_le_iff in H1. lra.
Qed.

Lemma Rabs_div_diff a b : Rabs (b / s - a / s) = Rabs (b - a) / s.
Proof.
  replace (b / s - a / s) with ((b - a) / s) by (unfold Rdiv; ring).
  unfold Rdiv. rewrite Rabs_mult, (Rabs_pos_eq (/ s)); [reflexivity |].
  left; apply Rinv_0_lt_compat; exact s_pos.
Qed.

Lemma Rabs_flip_div_diff h a b :
  Rabs (h - b / s - (h - a / s)) = Rabs (b - a) / s.
Proof.
  replace (h - b / s - (h - a / s)) with (- (b / s - a / s)) by ring.
  rewrite Rabs_Ropp. apply Rabs_div_diff.
Qed.

Lemma sqrt_sum_squares_div u v :
  sqrt ((u / s) ^ 2 + (v / s) ^ 2) = sqrt (u ^ 2 + v ^ 2) / s.
Proof.
  replace ((u / s) ^ 2 + (v / s) ^ 2) with ((u ^ 2 + v ^ 2) / (s * s))
    by (field; lra).
  rewrite sqrt_div_alt by nra.
  rewrite sqrt_square by lra. reflexivity.
Qed.

End RealFacts.

(** ** Export: coordinate conversion and the rectangle *)

Lemma last_point_app (p : Point) (mid : list Point) (q : Point) :
  last_point (p :: mid ++ [q]) = Ok q.
Proof.
  unfold last_point, at_index.
  replace (List.length (p :: mid ++ [q]) - 1)%nat with (List.length (p :: mid)).
  - change (p :: mid ++ [q]) with ((p :: mid) ++ [q]).
    rewrite nth_error_app2, Nat.sub_diag by reflexivity. reflexivity.
  - cbn [List.length]. rewrite length_app. cbn. lia.
Qed.

Lemma two_points_guard (p : Point) (mid : list Point) (q : Point) :
  (2 <=? List.length (p :: mid ++ [q]))%nat = true.
Proof.
  apply Nat.leb_le. cbn [List.length]. rewrite length_app. cbn. lia.
Qed.

(** [rgb] accepts three numbers between 0 and 1. *)
Lemma assertRange_in_range (v : R) : 0 <= v <= 1 -> assertRange (Some v) = Ok v.
Proof.
  intros [Hlo Hhi]. unfold assertRange.
  destruct (Rlt_dec v 0); [lra |]. destruct (Rlt_dec 1 v); [lra | reflexivity].
Qed.

Lemma rgb_in_range (red green blue : R) :
  0 <= red <= 1 -> 0 <= green <= 1 -> 0 <= blue <= 1 ->
  rgb (Some red) (Some green) (Some blue) = Ok (RGB red green blue).
Proof.
  intros Hr Hg Hb. unfold rgb.
  rewrite !assertRange_in_range by assumption. reflexivity.
Qed.

Lemma parseColor_ff0000 :
  parseColor "#ff0000" = mkColor (Some (255 / 255)) (Some (0 / 255)) (Some (0 / 255)).
Proof. reflexivity. Qed.

Lemma inkOf_ff0000 : inkOf "#ff0000" = Ok (RGB (255 / 255) (0 / 255) (0 / 255)).
Proof.
  unfold inkOf. rewrite parseColor_ff0000. cbn [r g b].
  apply rgb_in_range; lra.
Qed.

Lemma inkOf_000000 : inkOf "#000000" = Ok (RGB (0 / 255) (0 / 255) (0 / 255)).
Proof.
  unfold inkOf.
  change (parseColor "#000000")
    with (mkColor (Some (0 / 255)) (Some (0 / 255)) (Some (0 / 255))).
  cbn [r g b]. apply rgb_in_range; lra.
Qed.


(** The rectangle drawn for an element of kind rectangle, in terms of the
    canvas coordinates of its first and last point; [rgb] is called for
    the border colour and its error is that of the export. *)
Lemma drawElementOnPDF_rectangle (el : DrawingElement) (s h w : R)
    (font bold : PDFFont) (p q : Point) (mid : list Point) :
  0 < s ->
  type el = Rectangle ->
  points el = p :: mid ++ [q] ->
  drawElementOnPDF el s font bold w h =
    let* ink := inkOf (color el) in
    Ok [drawRectangle
          (RectangleOptions.mk
             (Rmin (Point.x p) (Point.x q) / s)
             (h - Rmax (Point.y p) (Point.y q) / s)
             (Rabs (Point.x q - Point.x p) / s)
             (Rabs (Point.y q - Point.y p) / s)
             (Some ink)
             (Some (strokeWidth el / s))
             None None None)].
Proof.
  intros Hs Hty Hpts.
  unfold drawElementOnPDF, inkOf.
  rewrite Hty, Hpts, two_points_guard, last_point_app.
  cbn [at_index nth_error bind convertCoords Point.x Point.y].
  rewrite Rmin_div, Rmin_flip_div, Rabs_div_diff, Rabs_flip_div_diff by assumption.
  reflexivity.
Qed.

(** The text drawn for an element of kind text: [rgb] is called for the
    colour, then [drawText] encodes the text with the font. *)
Lemma drawElementOnPDF_text (el : DrawingElement) (s h w : R)
    (font bold : PDFFont) (p : Point) (rest : list Point) (c : ascii) (t : string) :
  type el = Text ->
  text el = Some (String c t) ->
  points el = p :: rest ->
  drawElementOnPDF el s font bold w h =
    let* ink := inkOf (color el) in
    if encodes font (String c t) then
      Ok [drawText (String c t)
            (TextOptions.mk (Point.x p / s) (h - Point.y p / s)
               (opt_num_or (fontSize el) 16 / s) font ink)]
    else Throw CannotEncode.
Proof.
  intros Hty Htxt Hpts.
  unfold drawElementOnPDF, inkOf. rewrite Hty, Htxt, Hpts. reflexivity.
Qed.

(** The circle drawn for an element of kind circle: the centre is the
    converted first point; the local [radius] is the canvas distance divided
    by the scale twice, once through the converted points and once more
    explicitly. *)
Lemma drawElementOnPDF_circle (el : DrawingElement) (s h w : R)
    (font bold : PDFFont) (p q : Point) (mid : list Point) :
  0 < s ->
  type el = Circle ->
  points el = p :: mid ++ [q] ->
  drawElementOnPDF el s font bold w h =
    let* ink := inkOf (color el) in
    Ok [drawCircle
          (CircleOptions.mk (Point.x p / s) (h - Point.y p / s)
             (distance p q / s / s * 2) ink (strokeWidth el / s))].
Proof.
  intros Hs Hty Hpts.
  unfold drawElementOnPDF, inkOf.
  rewrite Hty, Hpts, two_points_guard, last_point_app.
  cbn [at_index nth_error bind convertCoords Point.x Point.y].
  replace (Point.x q / s - Point.x p / s) with ((Point.x q - Point.x p) / s)
    by (unfold Rdiv; ring).
  replace (h - Point.y q / s - (h - Point.y p / s))
    with ((Point.y p - Point.y q) / s) by (unfold Rdiv; ring).
  rewrite sqrt_sum_squares_div by assumption.
  unfold distance.
  replace ((Point.y p - Point.y q) ^ 2) with ((Point.y q - Point.y p) ^ 2) by ring.
  reflexivity.
Qed.

(** C3: for a scale [s > 0] and a page of height [h], the conversion maps
    a canvas point [(x, y)] to [(x / s, h - y / s)]; for an element whose
    colour [rgb] accepts (and, for a text, whose text the font encodes), a
    rectangle is drawn at the corner [(minX, minY)] with the absolute
    deltas as width and height, all in page units, and its stroke width is
    divided by [s]; the font size of a text and the stroke width of a
    circle are divided by [s]; the rectangle with corners (10,10) and
    (50,40) at scale 1 on a page of height 200 is drawn with x=10, y=160,
    width=40, height=30. *)
Theorem export_conversion (s h : R) (Hs : 0 < s) :
  (forall x y, convertCoords s h x y = Point.mk (x / s) (h - y / s))
  /\ (forall el w font bold p mid q ink,
        type el = Rectangle -> points el = p :: mid ++ [q] ->
        inkOf (color el) = Ok ink ->
        exists opts,
          drawElementOnPDF el s font bold w h = Ok [drawRectangle opts]
          /\ RectangleOptions.x opts = Rmin (Point.x p) (Point.x q) / s
          /\ RectangleOptions.y opts = h - Rmax (Point.y p) (Point.y q) / s
          /\ RectangleOptions.width opts = Rabs (Point.x q - Point.x p) / s
          /\ RectangleOptions.height opts = Rabs (Point.y q - Point.y p) / s
          /\ RectangleOptions.borderWidth opts = Some (strokeWidth el / s)
          /\ RectangleOptions.borderColor opts = Some ink)
  /\ (forall el w font bold p rest c t ink,
        type el = Text -> text el = Some (String c t) -> points el = p :: rest ->
        inkOf (color el) = Ok ink ->
        encodes font (String c t) = true ->
        exists opts,
          drawElementOnPDF el s font bold w h = Ok [drawText (String c t) opts]
          /\ TextOptions.x opts = Point.x p / s
          /\ TextOptions.y opts = h - Point.y p / s
          /\ TextOptions.size opts = opt_num_or (fontSize el) 16 / s
          /\ TextOptions.color opts = ink)
  /\ (forall el w font bold p mid q ink,
        type el = Circle -> points el = p :: mid ++ [q] ->
        inkOf (color el) = Ok ink ->
        exists opts,
          drawElementOnPDF el s font bold w h = Ok [drawCircle opts]
          /\ CircleOptions.borderWidth opts = strokeWidth el / s
          /\ CircleOptions.borderColor opts = ink)
  /\ (forall font bold,
        exists opts,
          drawElementOnPDF rectangle_10_10_50_40 1 font bold 100 200
            = Ok [drawRectangle opts]
          /\ RectangleOptions.x opts = 10 /\ RectangleOptions.y opts = 160
          /\ RectangleOptions.width opts = 40
          /\ RectangleOptions.height opts = 30).
Proof.
  split; [| split; [| split; [| split]]].
  - intros; reflexivity.
  - intros el w font bold p mid q ink Hty Hpts Hink.
    eexists; split.
    + rewrite (drawElementOnPDF_rectangle el s h w font bold p q mid Hs Hty Hpts).
      rewrite Hink. reflexivity.
    + cbn. repeat split; reflexivity.
  - intros el w font bold p rest c t ink Hty Htxt Hpts Hink Henc.
    eexists; split.
    + rewrite (drawElementOnPDF_text el s h w font bold p rest c t Hty Htxt Hpts).
      rewrite Hink. cbn [bind]. rewrite Henc. reflexivity.
    + cbn. repeat split; reflexivity.
  - intros el w font bold p mid q ink Hty Hpts Hink.
    eexists; split.
    + rewrite (drawElementOnPDF_circle el s h w font bold p q mid Hs Hty Hpts).
      rewrite Hink. reflexivity.
    + split; reflexivity.
  - intros font bold. eexists; split.
    + rewrite (drawElementOnPDF_rectangle rectangle_10_10_50_40 1 200 100
                 font bold (Point.mk 10 10) (Point.mk 50 40) []);
        [| lra | reflexivity | reflexivity].
      change (color rectangle_10_10_50_40) with "#ff0000"%string.
      rewrite inkOf_ff0000. reflexivity.
    + cbn [RectangleOptions.x RectangleOptions.y RectangleOptions.width
           RectangleOptions.height Point.x Point.y].
      rewrite Rmin_left, Rmax_right by lra.
      rewrite !Rabs_pos_eq by lra.
      repeat split; lra.
Qed.

Lemma export_conversion_witness :
  0 < 2
  /\ inkOf (color text_hi_20_30) = Ok (RGB (0 / 255) (0 / 255) (0 / 255))
  /\ encodes (asciiFont Helvetica) "Hi" = true
  /\ exists opts,
       drawElementOnPDF text_hi_20_30 2 (asciiFont Helvetica)
         (asciiFont HelveticaBold) 100 300
         = Ok [drawText "Hi" opts]
       /\ TextOptions.x opts = 10 /\ TextOptions.y opts = 285
       /\ TextOptions.size opts = 8.
Proof.
  assert (0 < 2) as H2 by lra.
  split; [exact H2 |]. split; [exact inkOf_000000 |]. split; [reflexivity |].
  destruct (export_conversion 2 300 H2) as (_ & _ & Htext & _ & _).
  destruct (Htext text_hi_20_30 100 (asciiFont Helvetica)
              (asciiFont HelveticaBold) (Point.mk 20 30) []
              "H"%char "i"%string (RGB (0 / 255) (0 / 255) (0 / 255))
              eq_refl eq_refl eq_refl inkOf_000000 eq_refl)
    as (opts & Hrun & Hx & Hy & Hsize & _).
  exists opts. split; [exact Hrun |].
  rewrite Hx, Hy, Hsize. cbn [Point.x Point.y text_hi_20_30 fontSize opt_num_or].
  unfold num_or. destruct (Req_dec_T 16 0) as [H16 | _]; [lra |].
  repeat split; lra.
Defined.

(** ** Export: the circle *)

Lemma distance_0_0_30_40 : distance (Point.mk 0 0) (Point.mk 30 40) = 50.
Proof.
  unfold distance; cbn [Point.x Point.y].
  replace ((30 - 0) ^ 2 + (40 - 0) ^ 2) with (50 * 50) by ring.
  apply sqrt_square; lra.
Qed.

(** C5: the circle from (0,0) to (30,40) has canvas radius 50, that is 100
    page units at scale 1/2 (zoomed out twice); the exporter draws it
    centred on the converted first point, but with the local radius 200
    (size 400): the distance is divided by the scale twice. *)
Theorem circle_radius_divided_twice :
  forall font bold,
  exists opts,
    drawElementOnPDF circle_0_0_30_40 (1 / 2) font bold 100 200
      = Ok [drawCircle opts]
    /\ CircleOptions.x opts = 0 /\ CircleOptions.y opts = 200
    /\ CircleOptions.size opts = 200 * 2
    /\ distance (Point.mk 0 0) (Point.mk 30 40) / (1 / 2) = 100
    /\ CircleOptions.size opts <> 100
    /\ CircleOptions.size opts / 2 <> 100.
Proof.
  intros font bold. eexists; split.
  - rewrite (drawElementOnPDF_circle circle_0_0_30_40 (1 / 2) 200 100
               font bold (Point.mk 0 0) (Point.mk 30 40) []);
      [| lra | reflexivity | reflexivity].
    change (color circle_0_0_30_40) with "#ff0000"%string.
    rewrite inkOf_ff0000. reflexivity.
  - cbn [CircleOptions.x CircleOptions.y CircleOptions.size Point.x Point.y].
    rewrite distance_0_0_30_40. repeat split; lra.
Qed.

(** ** Export: elements that draw nothing, and totality *)

Lemma bind_ok {A B : Type} (m : result A) (k : A -> result B) (a : A) :
  m = Ok a -> bind m k = k a.
Proof. intros ->; reflexivity. Qed.

Lemma at_index_in_range {A : Type} (arr : list A) (i : nat) :
  (i < List.length arr)%nat -> exists a, at_index arr i = Ok a.
Proof.
  intro Hi. unfold at_index.
  destruct (nth_error arr i) as [a |] eqn:Hn.
  - exists a; reflexivity.
  - apply nth_error_None in Hn. lia.
Qed.

Lemma at_least_two_points (pts : list Point) :
  (2 <=? List.length pts)%nat = true ->
  exists p mid q, pts = p :: mid ++ [q].
Proof.
  intro H. apply Nat.leb_le in H.
  destruct pts as [| p rest]; [cbn in H; lia |].
  destruct (exists_last (l := rest)) as (mid & q & ->).
  - intros ->; cbn in H; lia.
  - exists p, mid, q; reflexivity.
Qed.

Lemma for_loop_total {C : Type} (body : nat -> result (list C)) (n i : nat) :
  (forall j, (i <= j < i + n)%nat -> exists cs, body j = Ok cs) ->
  exists cs, for_loop i n body = Ok cs.
Proof.
  revert i; induction n as [| n IH]; intros i Hbody.
  - exists []; reflexivity.
  - destruct (Hbody i ltac:(lia)) as (cs & Hcs).
    destruct (IH (S i)) as (rest & Hrest).
    + intros j Hj; apply Hbody; lia.
    + exists (cs ++ rest). cbn [for_loop]. rewrite Hcs; cbn [bind].
      rewrite Hrest; reflexivity.
Qed.

Lemma for_loop_throws {C : Type} (body : nat -> result (list C)) (n i : nat)
    (e : JsError) :
  for_loop i n body = Throw e ->
  exists j, (i <= j < i + n)%nat /\ body j = Throw e.
Proof.
  revert i; induction n as [| n IH]; intros i; cbn [for_loop]; [discriminate |].
  destruct (body i) as [cs | e'] eqn:Hb; cbn [bind].
  - destruct (for_loop (S i) n body) as [rest | e''] eqn:Hrest; cbn [bind];
      [discriminate |].
    intro H; injection H as ->.
    destruct (IH (S i) Hrest) as (j & Hj & Hthrow).
    exists j. split; [lia | exact Hthrow].
  - intro H; injection H as ->. exists i. split; [lia | exact Hb].
Qed.

(** [drawElementOnPDF] throws only from [rgb], with the error of [rgb] on
    the parsed colour, or from [drawText] on a text that the font cannot
    encode: every array access is guarded by the length test of its case. *)
Lemma drawElementOnPDF_throws (el : DrawingElement) (s : R)
    (font bold : PDFFont) (w h : R) (e : JsError) :
  drawElementOnPDF el s font bold w h = Throw e ->
  inkOf (color el) = Throw e
  \/ (e = CannotEncode /\ type el = Text
      /\ encodes font (string_value (text el)) = false).
Proof.
  unfold drawElementOnPDF, inkOf.
  set (ink := rgb (r (parseColor (color el))) (g (parseColor (color el)))
                (b (parseColor (color el)))).
  destruct (type el) eqn:Hty.
  - discriminate.
  - destruct (truthy_string (text el)); cbn [andb]; [| discriminate].
    destruct (points el) as [| p rest]; cbn [List.length Nat.ltb Nat.leb];
      [discriminate |].
    cbn [at_index nth_error bind].
    destruct ink as [c | e']; cbn [bind].
    + destruct (encodes font (string_value (text el))) eqn:Henc;
        [discriminate |].
      intro H; injection H as <-. right. auto.
    + intro H; injection H as ->. left; reflexivity.
  - destruct (1 <? List.length (points el))%nat eqn:Hlen; [| discriminate].
    apply Nat.ltb_lt in Hlen. intro Hloop.
    apply for_loop_throws in Hloop as (j & Hrange & Hj).
    destruct (at_index_in_range (points el) j ltac:(lia)) as (pj & Hpj).
    destruct (at_index_in_range (points el) (j + 1) ltac:(lia)) as (pk & Hpk).
    rewrite Hpj, Hpk in Hj. cbn [bind] in Hj.
    match type of Hj with
    | context [Rlt_dec ?a ?c] => destruct (Rlt_dec a c)
    end; [| discriminate].
    left. destruct ink as [c | e']; cbn [bind] in Hj; [discriminate |].
    injection Hj as ->; reflexivity.
  - destruct (2 <=? List.length (points el))%nat eqn:Hlen; [| discriminate].
    destruct (at_least_two_points _ Hlen) as (p & mid & q & ->).
    rewrite last_point_app. cbn [at_index nth_error bind].
    intro H. left. destruct ink as [c | e']; cbn [bind] in H; [discriminate |].
    injection H as ->; reflexivity.
  - discriminate.
  - destruct (2 <=? List.length (points el))%nat eqn:Hlen; [| discriminate].
    destruct (at_least_two_points _ Hlen) as (p & mid & q & ->).
    rewrite last_point_app. cbn [at_index nth_error bind].
    intro H. left. destruct ink as [c | e']; cbn [bind] in H; [discriminate |].
    injection H as ->; reflexivity.
  - destruct (2 <=? List.length (points el))%nat eqn:Hlen; [| discriminate].
    destruct (at_least_two_points _ Hlen) as (p & mid & q & ->).
    rewrite last_point_app. cbn [at_index nth_error bind].
    intro H. left. destruct ink as [c | e']; cbn [bind] in H; [discriminate |].
    injection H as ->; reflexivity.
  - destruct (2 <=? List.length (points el))%nat eqn:Hlen; [| discriminate].
    destruct (at_least_two_points _ Hlen) as (p & mid & q & ->).
    rewrite last_point_app. cbn [at_index nth_error bind].
    match goal with |- context [Rlt_dec ?a ?c] => destruct (Rlt_dec a c) end;
      [| discriminate].
    intro H. left. destruct ink as [c | e']; cbn [bind] in H; [discriminate |].
    injection H as ->; reflexivity.
Qed.

(** An element whose colour [rgb] accepts and whose text, if it is one, the
    font encodes, is exported without error. *)
Lemma drawElementOnPDF_paintable (el : DrawingElement) (s : R)
    (font bold : PDFFont) (w h : R) :
  paintable font el ->
  exists cmds, drawElementOnPDF el s font bold w h = Ok cmds.
Proof.
  intros [(ink & Hink) Henc].
  destruct (drawElementOnPDF el s font bold w h) as [cmds | e] eqn:Hrun;
    [exists cmds; reflexivity |].
  apply drawElementOnPDF_throws in Hrun as [Hthrow | (_ & Hty & Hno)].
  - rewrite Hink in Hthrow. discriminate.
  - rewrite (Henc Hty) in Hno. discriminate.
Qed.

Lemma drawElements_paintable (els : list DrawingElement) (s : R)
    (font bold : PDFFont) (w h : R) :
  Forall (paintable font) els ->
  exists cmds, drawElements els s font bold w h = Ok cmds.
Proof.
  induction els as [| el rest IH]; intro Hall.
  - exists []; reflexivity.
  - inversion Hall as [| ? ? Hel Hrest]; subst.
    destruct (drawElementOnPDF_paintable el s font bold w h Hel) as (cs & Hcs).
    destruct (IH Hrest) as (more & Hmore).
    exists (cs ++ more). cbn [drawElements]. rewrite Hcs; cbn [bind].
    rewrite Hmore; reflexivity.
Qed.


Lemma malformed_draws_nothing (el : DrawingElement) (s : R)
    (font bold : PDFFont) (w h : R) :
  malformed el = true -> drawElementOnPDF el s font bold w h = Ok [].
Proof.
  unfold malformed, drawElementOnPDF. intro H.
  destruct (type el); try discriminate.
  - apply orb_true_iff in H as [H | H].
    + apply negb_true_iff in H; rewrite H; reflexivity.
    + apply Nat.eqb_eq in H.
      replace (0 <? List.length (points el))%nat with false
        by (symmetry; apply Nat.ltb_ge; lia).
      rewrite andb_false_r; reflexivity.
  - apply Nat.ltb_lt in H.
    replace (1 <? List.length (points el))%nat with false
      by (symmetry; apply Nat.ltb_ge; lia).
    reflexivity.
  - apply Nat.ltb_lt in H.
    replace (2 <=? List.length (points el))%nat with false
      by (symmetry; apply Nat.leb_gt; lia).
    reflexivity.
  - apply Nat.ltb_lt in H.
    replace (2 <=? List.length (points el))%nat with false
      by (symmetry; apply Nat.leb_gt; lia).
    reflexivity.
  - apply Nat.ltb_lt in H.
    replace (2 <=? List.length (points el))%nat with false
      by (symmetry; apply Nat.leb_gt; lia).
    reflexivity.
  - apply Nat.ltb_lt in H.
    replace (2 <=? List.length (points el))%nat with false
      by (symmetry; apply Nat.leb_gt; lia).
    reflexivity.
Qed.





(** ** Export: elements under edit *)

Lemma num_or_nonzero (a d : R) : a <> 0 -> num_or a d = a.
Proof.
  intro Ha. unfold num_or. destruct (Req_dec_T a 0); [contradiction | reflexivity].
Qed.

(** Among the elements that are not exportable, those that are not under
    edit draw nothing. *)
Lemma not_exportable_not_editing_draws_nothing (el : DrawingElement) (s : R)
    (font bold : PDFFont) (w h : R) :
  isExportable el = false ->
  truthy_bool (isEditing el) = false ->
  drawElementOnPDF el s font bold w h = Ok [].
Proof.
  unfold isExportable, isComplete, isShape. intros Hexp Hed.
  rewrite Hed in Hexp. cbn [negb] in Hexp. rewrite andb_true_r in Hexp.
  destruct (type el) eqn:Hty; cbn [ToolType_eqb] in Hexp;
    try (unfold drawElementOnPDF; rewrite Hty; reflexivity);
    try (apply malformed_draws_nothing; unfold malformed; rewrite Hty).
  - (* text *)
    rewrite andb_true_r in Hexp.
    destruct (truthy_string (text el)); cbn [negb orb].
    + rewrite andb_true_r in Hexp. apply negb_false_iff in Hexp. exact Hexp.
    + reflexivity.
  - (* draw *)
    rewrite !andb_true_r in Hexp. apply negb_false_iff, Nat.eqb_eq in Hexp.
    apply Nat.ltb_lt; lia.
  - rewrite andb_true_r in Hexp.
    apply andb_false_iff in Hexp as [H | H].
    + apply negb_false_iff, Nat.eqb_eq in H. apply Nat.ltb_lt; lia.
    + apply Nat.leb_gt in H. apply Nat.ltb_lt; lia.
  - rewrite andb_true_r in Hexp.
    apply andb_false_iff in Hexp as [H | H].
    + apply negb_false_iff, Nat.eqb_eq in H. apply Nat.ltb_lt; lia.
    + apply Nat.leb_gt in H. apply Nat.ltb_lt; lia.
  - rewrite andb_true_r in Hexp.
    apply andb_false_iff in Hexp as [H | H].
    + apply negb_false_iff, Nat.eqb_eq in H. apply Nat.ltb_lt; lia.
    + apply Nat.leb_gt in H. apply Nat.ltb_lt; lia.
  - rewrite andb_true_r in Hexp.
    apply andb_false_iff in Hexp as [H | H].
    + apply negb_false_iff, Nat.eqb_eq in H. apply Nat.ltb_lt; lia.
    + apply Nat.leb_gt in H. apply Nat.ltb_lt; lia.
Qed.

(** A text under edit with a text and an anchor is not exportable, and
    [drawElementOnPDF] draws it all the same when neither [rgb] nor
    [drawText] throws: [isEditing] is never read. *)
Lemma editing_text_is_drawn (el : DrawingElement) (s h w : R)
    (font bold : PDFFont) (p : Point) (rest : list Point) (c : ascii) (t : string)
    (ink : Color) :
  isTextEditing el = true ->
  text el = Some (String c t) ->
  points el = p :: rest ->
  inkOf (color el) = Ok ink ->
  encodes font (String c t) = true ->
  isExportable el = false
  /\ exists opts, drawElementOnPDF el s font bold w h = Ok [drawText (String c t) opts].
Proof.
  unfold isTextEditing. intros Hed Htxt Hpts Hink Henc.
  apply andb_true_iff in Hed as [Hty Hed].
  assert (type el = Text) as Htext
    by (destruct (type el); try discriminate; reflexivity).
  split.
  - unfold isExportable. rewrite Hed. cbn [negb].
    rewrite andb_false_r. reflexivity.
  - eexists.
    rewrite (drawElementOnPDF_text el s h w font bold p rest c t Htext Htxt Hpts).
    rewrite Hink. cbn [bind]. rewrite Henc. reflexivity.
Qed.

(** C1: the set reached by clicking with the text tool and typing "Hi"
    holds one element under edit, which is not exportable; the export of
    this set neither fails nor leaves the element out: it draws the text,
    at the viewport anchor read as a canvas point. *)
Theorem editing_element_is_exported :
  (exists app,
      run (fun _ _ => 0) initialApp
        [ToolChange Text; MouseDown env_1700000000000 click_120_80;
         TextChange "1700000000000" "Hi"] = Ok app
      /\ Editor.elements (editor app) = [editing_text_hi])
  /\ truthy_bool (isEditing editing_text_hi) = true
  /\ isExportable editing_text_hi = false
  /\ mergePDFWithAnnotations PDFDocument (fun d => Ok d) (fun d => d) asciiFont
       blank_document [editing_text_hi] 1 1 =
     Ok [mkPage 100 200
           [drawText "Hi"
              (TextOptions.mk (120 / 1) (200 - 80 / 1) (16 / 1)
                 (asciiFont Helvetica)
                 (RGB (255 / 255) (0 / 255) (0 / 255)))]].
Proof.
  split; [| split; [| split]].
  - eexists; split; reflexivity.
  - reflexivity.
  - reflexivity.
  - unfold mergePDFWithAnnotations, blank_document.
    cbn [bind page_at Z.sub Z.add Z.opp Z.pos_sub Z.ltb Z.compare Z.to_nat
         nth_error pageWidth pageHeight drawElements].
    rewrite (drawElementOnPDF_text editing_text_hi 1 200 100
               (asciiFont Helvetica) (asciiFont HelveticaBold)
               (Point.mk 120 80) [] "H"%char "i"%string
               eq_refl eq_refl eq_refl).
    change (color editing_text_hi) with "#ff0000"%string.
    rewrite inkOf_ff0000.
    change (encodes (asciiFont Helvetica) "Hi") with true.
    cbn [bind app draw_on_page content pageWidth pageHeight Point.x Point.y
         editing_text_hi fontSize color opt_num_or].
    rewrite num_or_nonzero by lra.
    reflexivity.
Qed.

(** ** Export: colours *)

Lemma all_ascii_complete (c : ascii) : In c all_ascii.
Proof.
  unfold all_ascii. rewrite <- (ascii_nat_embedding c).
  apply in_map, in_seq. pose proof (nat_ascii_bounded c). lia.
Qed.

Lemma forall_ascii (P : ascii -> bool) :
  forallb P all_ascii = true -> forall c, P c = true.
Proof.
  intros H c. rewrite forallb_forall in H. apply H, all_ascii_complete.
Qed.

Lemma parseInt_hexPair_all :
  forallb (fun c1 => forallb (parseInt_hexPair_test c1) all_ascii) all_ascii = true.
Proof. vm_compute. reflexivity. Qed.

Lemma opt_Z_eqb_eq (a b : option Z) : opt_Z_eqb a b = true -> a = b.
Proof.
  destruct a, b; cbn; intro H; try discriminate; [| reflexivity].
  apply Z.eqb_eq in H; subst; reflexivity.
Qed.

(** [parseInt] on two hexadecimal digits. *)
Lemma parseInt_hexPair (c1 c2 : ascii) :
  isHexDigit c1 = true -> isHexDigit c2 = true ->
  parseInt (String c1 (String c2 EmptyString)) 16 = Some (hexPair c1 c2)
  /\ (0 <= hexPair c1 c2 <= 255)%Z.
Proof.
  intros H1 H2.
  pose proof (forall_ascii _ (forall_ascii _ parseInt_hexPair_all c1) c2) as H.
  unfold parseInt_hexPair_test in H. rewrite H1, H2 in H. cbn [andb implb] in H.
  apply andb_true_iff in H as [H Hhi]. apply andb_true_iff in H as [H Hlo].
  apply opt_Z_eqb_eq in H. apply Z.leb_le in Hhi, Hlo. auto.
Qed.

Lemma channel_in_unit_interval (v : Z) :
  (0 <= v <= 255)%Z -> 0 <= IZR v / 255 <= 1.
Proof.
  intros [Hlo Hhi]. apply IZR_le in Hlo, Hhi. lra.
Qed.

(** A colour of six hexadecimal digits is decomposed into its three
    channels, each between 0 and 1. *)
Lemma parseColor_hex6 (c1 c2 c3 c4 c5 c6 : ascii) :
  isHexDigit c1 = true -> isHexDigit c2 = true -> isHexDigit c3 = true ->
  isHexDigit c4 = true -> isHexDigit c5 = true -> isHexDigit c6 = true ->
  parseColor
    (String "#" (String c1 (String c2 (String c3 (String c4 (String c5
       (String c6 EmptyString))))))) =
    mkColor (Some (IZR (hexPair c1 c2) / 255))
            (Some (IZR (hexPair c3 c4) / 255))
            (Some (IZR (hexPair c5 c6) / 255))
  /\ 0 <= IZR (hexPair c1 c2) / 255 <= 1
  /\ 0 <= IZR (hexPair c3 c4) / 255 <= 1
  /\ 0 <= IZR (hexPair c5 c6) / 255 <= 1.
Proof.
  intros H1 H2 H3 H4 H5 H6.
  destruct (parseInt_hexPair c1 c2 H1 H2) as [Hr Br].
  destruct (parseInt_hexPair c3 c4 H3 H4) as [Hg Bg].
  destruct (parseInt_hexPair c5 c6 H5 H6) as [Hb Bb].
  split; [| auto using channel_in_unit_interval].
  unfold parseColor.
  cbn [startsWith Ascii.eqb Bool.eqb slice_from slice String.length substring
       Nat.sub].
  rewrite Hr, Hg, Hb. reflexivity.
Qed.

(** A string that does not start with [#] gets the fallback colour. *)
Lemma parseColor_no_hash (colorStr : string) :
  startsWith colorStr "#" = false ->
  parseColor colorStr = mkColor (Some 1) (Some 0) (Some 0).
Proof. intro H. unfold parseColor. rewrite H. reflexivity. Qed.

(** [rgb] accepts the channels of a colour of six hexadecimal digits, and
    those of the fallback colour. *)
Lemma inkOf_hex6 (c1 c2 c3 c4 c5 c6 : ascii) :
  isHexDigit c1 = true -> isHexDigit c2 = true -> isHexDigit c3 = true ->
  isHexDigit c4 = true -> isHexDigit c5 = true -> isHexDigit c6 = true ->
  inkOf
    (String "#" (String c1 (String c2 (String c3 (String c4 (String c5
       (String c6 EmptyString))))))) =
    Ok (RGB (IZR (hexPair c1 c2) / 255) (IZR (hexPair c3 c4) / 255)
            (IZR (hexPair c5 c6) / 255)).
Proof.
  intros H1 H2 H3 H4 H5 H6.
  destruct (parseColor_hex6 c1 c2 c3 c4 c5 c6 H1 H2 H3 H4 H5 H6)
    as (Hparse & Hr & Hg & Hb).
  unfold inkOf. rewrite Hparse. cbn [r g b].
  apply rgb_in_range; assumption.
Qed.

Lemma inkOf_no_hash (colorStr : string) :
  startsWith colorStr "#" = false ->
  inkOf colorStr = Ok (RGB 1 0 0).
Proof.
  intro H. unfold inkOf. rewrite (parseColor_no_hash colorStr H). cbn [r g b].
  apply rgb_in_range; lra.
Qed.

Lemma inkOf_ffff00 :
  inkOf "#ffff00" = Ok (RGB (255 / 255) (255 / 255) (0 / 255)).
Proof.
  exact (inkOf_hex6 "f" "f" "f" "f" "0" "0" eq_refl eq_refl eq_refl eq_refl
           eq_refl eq_refl).
Qed.

(** C7: the strings [#abc] and [#zzzzzz] start with [#] and are not six
    hexadecimal digits; [parseColor] does not return the fallback red for
    them but what [parseInt] reads in each pair, with NaN for a pair without
    a leading digit. *)
Theorem parseColor_malformed_hash :
  parseColor "#abc" = mkColor (Some (171 / 255)) (Some (12 / 255)) None
  /\ parseColor "#zzzzzz" = mkColor None None None
  /\ parseColor "#abc" <> mkColor (Some 1) (Some 0) (Some 0)
  /\ parseColor "#zzzzzz" <> mkColor (Some 1) (Some 0) (Some 0).
Proof.
  assert (parseColor "#abc" = mkColor (Some (171 / 255)) (Some (12 / 255)) None)
    as Habc by reflexivity.
  assert (parseColor "#zzzzzz" = mkColor None None None) as Hz by reflexivity.
  repeat split; try assumption.
  - rewrite Habc; discriminate.
  - rewrite Hz; discriminate.
Qed.

(** ** Text editing: the anchor between canvas and viewport *)

Lemma editExistingText_single (env : Env.t) (rect : DOMRect)
    (st : Editor.t) (el : DrawingElement) (A : Point) :
  Env.canvas env = Some rect ->
  Editor.elements st = [el] ->
  points el = [A] ->
  exists st1,
    editExistingText env el st = Ok st1
    /\ Editor.elements st1 =
         [spread el
            (Partial.mk None None
               (Some [Point.mk (Point.x A + DOMRect.left rect)
                        (Point.y A + DOMRect.top rect
                         - opt_num_or (option_map TextFormat.fontSize (textFormat el))
                             (opt_num_or (fontSize el) 16))])
               None None None None None None (Some (Some true)) None)].
Proof.
  intros Hc Hels Hpts. unfold editExistingText. rewrite Hc, Hpts.
  cbn [at_index nth_error bind]. eexists; split; [reflexivity |].
  unfold Editor.handleElementUpdate. cbn [Editor.elements Editor.setElements].
  rewrite Hels. cbn [map]. rewrite String.eqb_refl. reflexivity.
Qed.

(** Opening a committed text for editing and confirming it with the font
    size it was opened with moves its anchor by 2 pixels on both axes. *)
Lemma rebase_round_trip (env : Env.t) (rect : DOMRect) (st : Editor.t)
    (el : DrawingElement) (A : Point) (text' : string) (format : TextFormat) :
  Env.canvas env = Some rect ->
  Editor.elements st = [el] ->
  points el = [A] ->
  opt_num_or (Some (TextFormat.fontSize format)) (opt_num_or (fontSize el) 16) =
  opt_num_or (option_map TextFormat.fontSize (textFormat el))
    (opt_num_or (fontSize el) 16) ->
  exists st1,
    editExistingText env el st = Ok st1
    /\ map points
         (Editor.elements
            (Editor.handleTextConfirm st1 (Some rect) (id el) text' (Some format)))
       = [[Point.mk (Point.x A + 2) (Point.y A + 2)]].
Proof.
  intros Hc Hels Hpts Hf.
  destruct (editExistingText_single env rect st el A Hc Hels Hpts)
    as (st1 & Hrun & Hst1).
  exists st1; split; [exact Hrun |].
  unfold Editor.handleTextConfirm, Editor.pushHistory.
  cbn [Editor.elements Editor.setElements Editor.setHistory
       Editor.setHistoryIndex].
  rewrite Hst1. cbn [map]. unfold Editor.confirmElement.
  cbn [spread override id Partial.id Partial.points Partial.isEditing
       Partial.fontSize Partial.text Partial.textFormat points isEditing
       fontSize truthy_bool option_map map].
  rewrite String.eqb_refl.
  cbn [spread override Partial.points points].
  cbn [option_map] in Hf. rewrite Hf.
  do 2 f_equal. f_equal; cbn [Point.x Point.y]; ring.
Qed.

Ltac decide_Rle :=
  match goal with
  | |- context [Rle_dec ?a ?b] =>
      destruct (Rle_dec a b) as [_ | Hn]; [| exfalso; apply Hn; lra]
  end.

Lemma hit_committed_text_5_20 (env : Env.t) :
  Env.canvas env = Some canvas_100_50 ->
  Env.context2d env = true ->
  getTextElementAtPoint measure_10 env [committed_text_5_20]
    (getMousePos env click_106_65) = Ok (Some committed_text_5_20).
Proof.
  intros Hcanvas Hctx.
  assert (num_or 16 16 = 16) as H16 by (apply num_or_nonzero; lra).
  unfold getTextElementAtPoint, measure_10, getMousePos.
  cbn [rev app textElementIn lineAtPoint
       committed_text_5_20 type text isEditing ToolType_eqb truthy_string
       truthy_bool negb andb string_value split_lines Ascii.eqb Bool.eqb
       fontSize opt_num_or points].
  rewrite Hcanvas, Hctx.
  cbn [negb at_index nth_error bind canvas_100_50 DOMRect.left
       DOMRect.top click_106_65 clientX clientY Point.x Point.y INR].
  rewrite !H16.
  repeat decide_Rle. reflexivity.
Qed.

(** C2: the committed text anchored at (5,20) with font size 16, on a
    canvas at (100,50), is opened by a double click with the select tool
    and gets the viewport anchor (105,54); confirming it unchanged puts its
    anchor at (7,22) and not back at (5,20). *)
Theorem rebase_round_trip_drifts :
  exists app1 app2,
    run measure_10 (mkApp (editor_with Select [committed_text_5_20]) Refs.initial)
      [MouseDown env_canvas_100_50 click_106_65;
       MouseDown env_200ms_later click_106_65] = Ok app1
    /\ map points (Editor.elements (editor app1)) = [[Point.mk (5 + 100) (20 + 50 - 16)]]
    /\ map isEditing (Editor.elements (editor app1)) = [Some true]
    /\ step measure_10 app1
         (Confirm (Some canvas_100_50) "7" "Hi" format_arial_16) = Ok app2
    /\ map points (Editor.elements (editor app2)) = [[Point.mk 7 22]]
    /\ map isEditing (Editor.elements (editor app2)) = [Some false]
    /\ Point.mk 7 22 <> Point.mk 5 20.
Proof.
  assert (num_or 16 16 = 16) as H16 by (apply num_or_nonzero; lra).
  pose proof (hit_committed_text_5_20 env_canvas_100_50 eq_refl eq_refl) as Hhit1.
  pose proof (hit_committed_text_5_20 env_200ms_later eq_refl eq_refl) as Hhit2.
  destruct (editExistingText_single env_200ms_later canvas_100_50
              (editor_with Select [committed_text_5_20]) committed_text_5_20
              (Point.mk 5 20) eq_refl eq_refl eq_refl)
    as (st1 & Hrun & Hst1).
  destruct (rebase_round_trip env_200ms_later canvas_100_50
              (editor_with Select [committed_text_5_20]) committed_text_5_20
              (Point.mk 5 20) "Hi" format_arial_16 eq_refl eq_refl eq_refl eq_refl)
    as (st1' & Hrun' & Hback).
  rewrite Hrun in Hrun'. injection Hrun' as <-.
  cbn [opt_num_or option_map committed_text_5_20 textFormat fontSize
       TextFormat.fontSize] in Hst1.
  rewrite !H16 in Hst1.
  exists (mkApp st1 (Refs.mk false None None 0%Z None)).
  eexists.
  split.
  { assert (step measure_10
              (mkApp (editor_with Select [committed_text_5_20]) Refs.initial)
              (MouseDown env_canvas_100_50 click_106_65)
            = Ok (mkApp (editor_with Select [committed_text_5_20])
                    (Refs.mk false None None 1700000001000%Z (Some "7"%string))))
      as Hfirst.
    { cbn [step editor editor_with Editor.tools ToolState.activeTool].
      unfold handleMouseDown.
      cbn [editor editor_with Editor.tools ToolState.activeTool Editor.elements].
      rewrite Hhit1. reflexivity. }
    assert (step measure_10
              (mkApp (editor_with Select [committed_text_5_20])
                 (Refs.mk false None None 1700000001000%Z (Some "7"%string)))
              (MouseDown env_200ms_later click_106_65)
            = Ok (mkApp st1 (Refs.mk false None None 0%Z None))) as Hsecond.
    { cbn [step editor editor_with Editor.tools ToolState.activeTool].
      unfold handleMouseDown.
      cbn [editor editor_with Editor.tools ToolState.activeTool Editor.elements].
      rewrite Hhit2. cbn [bind refs Refs.lastClickTime Refs.lastClickElement].
      replace ((Env.now env_200ms_later - 1700000001000 <? 300)%Z
               && opt_string_eqb (Some "7"%string) (id committed_text_5_20))
        with true by reflexivity.
      replace (existsb isTextEditing [committed_text_5_20]) with false
        by reflexivity.
      change (Editor.mk 1 (ToolState.mk Select "#ff0000" 2 16)
                [committed_text_5_20] [] (-1)%Z)
        with (editor_with Select [committed_text_5_20]).
      rewrite Hrun. reflexivity. }
    cbn [run]. rewrite Hfirst. cbn [bind]. rewrite Hsecond. reflexivity. }
  split.
  { cbn [editor]. rewrite Hst1. reflexivity. }
  split.
  { cbn [editor]. rewrite Hst1. reflexivity. }
  split.
  { unfold step. cbn [editor]. reflexivity. }
  cbn [withEditor editor].
  replace (handleConfirm (Some canvas_100_50) "7" "Hi" format_arial_16 st1)
    with (Editor.handleTextConfirm st1 (Some canvas_100_50) "7" "Hi"
            (Some format_arial_16)) by reflexivity.
  split.
  { change "7"%string with (id committed_text_5_20). rewrite Hback.
    cbn [Point.x Point.y]. do 2 f_equal. f_equal; ring. }
  split.
  { unfold Editor.handleTextConfirm, Editor.pushHistory.
    cbn [Editor.elements Editor.setElements Editor.setHistory
         Editor.setHistoryIndex].
    rewrite Hst1. reflexivity. }
  intro H. injection H as Hx Hy. lra.
Qed.

(** ** History *)

Lemma array_slice_all {A : Type} (arr : list A) :
  array_slice arr (Z.of_nat (List.length arr)) = arr.
Proof.
  unfold array_slice.
  destruct (Z.ltb_spec (Z.of_nat (List.length arr)) 0) as [H | _]; [lia |].
  rewrite Nat2Z.id. apply firstn_all.
Qed.

Lemma array_slice_app {A : Type} (arr rest : list A) :
  array_slice (arr ++ rest) (Z.of_nat (List.length arr)) = arr.
Proof.
  unfold array_slice.
  destruct (Z.ltb_spec (Z.of_nat (List.length arr)) 0) as [H | _]; [lia |].
  rewrite Nat2Z.id, firstn_app, Nat.sub_diag, firstn_all. cbn [firstn].
  apply app_nil_r.
Qed.

Lemma array_slice_in_range {A : Type} (arr : list A) (to : Z) :
  (0 <= to)%Z -> array_slice arr to = firstn (Z.to_nat to) arr.
Proof.
  intro H. unfold array_slice.
  destruct (Z.ltb_spec to 0); [lia | reflexivity].
Qed.

Lemma array_get_last {A : Type} (arr : list A) (a : A) :
  array_get (arr ++ [a]) (Z.of_nat (List.length arr)) = Some a.
Proof.
  unfold array_get.
  destruct (Z.ltb_spec (Z.of_nat (List.length arr)) 0) as [H | _]; [lia |].
  rewrite Nat2Z.id, nth_error_app2, Nat.sub_diag by reflexivity. reflexivity.
Qed.

Lemma array_get_app1 {A : Type} (arr rest : list A) (i : Z) :
  (i < Z.of_nat (List.length arr))%Z ->
  array_get (arr ++ rest) i = array_get arr i.
Proof.
  intro H. unfold array_get.
  destruct (Z.ltb_spec i 0); [reflexivity |].
  apply nth_error_app1. lia.
Qed.

(** After a checkpoint the cursor is the last index and the snapshot at the
    cursor is the set that was pushed. *)
Lemma pushHistory_spec (st : Editor.t) (snapshot : list DrawingElement) :
  let st' := Editor.pushHistory st snapshot in
  Editor.history st' =
    array_slice (Editor.history st) (Editor.historyIndex st + 1)
    ++ [HistoryState.mk snapshot]
  /\ Editor.historyIndex st' = (Z.of_nat (List.length (Editor.history st')) - 1)%Z
  /\ Editor.elements st' = Editor.elements st
  /\ array_get (Editor.history st') (Editor.historyIndex st')
     = Some (HistoryState.mk snapshot).
Proof.
  cbn zeta. unfold Editor.pushHistory.
  cbn [Editor.history Editor.historyIndex Editor.elements Editor.setHistory
       Editor.setHistoryIndex].
  repeat split.
  rewrite length_app. cbn [List.length].
  replace (Z.of_nat (List.length
             (array_slice (Editor.history st) (Editor.historyIndex st + 1)) + 1) - 1)%Z
    with (Z.of_nat (List.length
             (array_slice (Editor.history st) (Editor.historyIndex st + 1)))) by lia.
  apply array_get_last.
Qed.

Lemma pushHistory_wf (st : Editor.t) (snapshot : list DrawingElement) :
  wf_history (Editor.pushHistory st snapshot).
Proof.
  unfold wf_history, Editor.pushHistory.
  cbn [Editor.history Editor.historyIndex Editor.setHistory Editor.setHistoryIndex].
  rewrite length_app. cbn [List.length]. lia.
Qed.

(** A redo at the last index changes nothing. *)
Lemma handleRedo_at_last (st : Editor.t) :
  Editor.historyIndex st = (Z.of_nat (List.length (Editor.history st)) - 1)%Z ->
  Editor.handleRedo st = Ok st /\ Editor.canRedo st = false.
Proof.
  intro H. unfold Editor.handleRedo, Editor.canRedo. rewrite H.
  rewrite Z.ltb_irrefl. split; reflexivity.
Qed.

(** C4: a checkpoint keeps the snapshots up to the cursor, appends the new
    set and moves the cursor to the last index; from any state, after a
    checkpoint of A (adding [a]), a checkpoint of B (adding [b]), an undo
    and a checkpoint of C (adding [c]), the
    history is the part of the old history up to the old cursor followed by
    the snapshots of A and of C: the snapshot of B is gone; a redo changes
    nothing, and the current set is the snapshot of C. *)
Theorem redo_branch_discard (st : Editor.t) (a b c : DrawingElement) :
  let stA := Editor.handleElementAdd st a in
  let stB := Editor.handleElementAdd stA b in
  Editor.history stA =
    array_slice (Editor.history st) (Editor.historyIndex st + 1)
    ++ [HistoryState.mk (Editor.elements st ++ [a])]
  /\ Editor.historyIndex stA = (Z.of_nat (List.length (Editor.history stA)) - 1)%Z
  /\ exists stU,
    Editor.handleUndo stB = Ok stU
    /\ Editor.elements stU = Editor.elements stA
    /\ let stC := Editor.handleElementAdd stU c in
       Editor.handleRedo stC = Ok stC
       /\ Editor.canRedo stC = false
       /\ Editor.elements stC = Editor.elements st ++ [a] ++ [c]
       /\ Editor.history stC =
            array_slice (Editor.history st) (Editor.historyIndex st + 1)
            ++ [HistoryState.mk (Editor.elements stA);
                HistoryState.mk (Editor.elements stC)]
       /\ array_get (Editor.history stC) (Editor.historyIndex stC)
          = Some (HistoryState.mk (Editor.elements stC)).
Proof.
  cbn zeta.
  set (prefix := array_slice (Editor.history st) (Editor.historyIndex st + 1)).
  set (stA := Editor.handleElementAdd st a).
  set (stB := Editor.handleElementAdd stA b).
  assert (Editor.elements stA = Editor.elements st ++ [a]) as HelA by reflexivity.
  assert (Editor.history stA = prefix ++ [HistoryState.mk (Editor.elements stA)])
    as HhA by reflexivity.
  assert (Editor.historyIndex stA = Z.of_nat (List.length prefix)) as HiA.
  { unfold stA, Editor.handleElementAdd, Editor.pushHistory.
    cbn [Editor.history Editor.historyIndex Editor.setHistory
         Editor.setHistoryIndex Editor.setElements].
    fold prefix. rewrite length_app. cbn [List.length]. lia. }
  assert (Editor.history stB =
          prefix ++ [HistoryState.mk (Editor.elements stA)]
          ++ [HistoryState.mk (Editor.elements stB)]) as HhB.
  { unfold stB at 1, Editor.handleElementAdd, Editor.pushHistory.
    cbn [Editor.history Editor.historyIndex Editor.setHistory
         Editor.setHistoryIndex Editor.setElements].
    rewrite HhA, HiA.
    replace (Z.of_nat (List.length prefix) + 1)%Z
      with (Z.of_nat (List.length (prefix ++ [HistoryState.mk (Editor.elements stA)])))
      by (rewrite length_app; cbn [List.length]; lia).
    rewrite array_slice_all, <- app_assoc. reflexivity. }
  assert (Editor.historyIndex stB = (Z.of_nat (List.length prefix) + 1)%Z) as HiB.
  { destruct (pushHistory_spec
                (Editor.setElements stA (Editor.elements stA ++ [b]))
                (Editor.elements stA ++ [b])) as (_ & Hi & _).
    cbn zeta in Hi. fold (Editor.handleElementAdd stA b) in Hi. fold stB in Hi.
    rewrite Hi, HhB, !length_app. cbn [List.length]. lia. }
  set (stU := Editor.setElements (Editor.setHistoryIndex stB (Z.of_nat (List.length prefix)))
                (Editor.elements stA)).
  assert (Editor.handleUndo stB = Ok stU) as HU.
  { unfold Editor.handleUndo. rewrite HiB, HhB.
    destruct (Z.ltb_spec 0 (Z.of_nat (List.length prefix) + 1)) as [_ | H]; [| lia].
    replace (Z.of_nat (List.length prefix) + 1 - 1)%Z
      with (Z.of_nat (List.length prefix)) by lia.
    rewrite app_assoc, array_get_app1
      by (rewrite length_app; cbn [List.length]; lia).
    rewrite array_get_last. reflexivity. }
  split; [reflexivity |].
  split; [rewrite HhA, HiA, length_app; cbn [List.length]; lia |].
  exists stU. split; [exact HU |]. split; [reflexivity |].
  set (stC := Editor.handleElementAdd stU c).
  destruct (pushHistory_spec
              (Editor.setElements stU (Editor.elements stU ++ [c]))
              (Editor.elements stU ++ [c])) as (Hh & Hi & Hel & Hget).
  cbn zeta in Hh, Hi, Hel, Hget.
  fold (Editor.handleElementAdd stU c) in Hh, Hi, Hel, Hget. fold stC in Hh, Hi, Hel, Hget.
  destruct (handleRedo_at_last stC Hi) as [Hredo Hcan].
  assert (Editor.elements stC = Editor.elements stA ++ [c]) as HelC by reflexivity.
  repeat split.
  - exact Hredo.
  - exact Hcan.
  - rewrite HelC, HelA, <- app_assoc. reflexivity.
  - rewrite Hh. cbn [Editor.history Editor.historyIndex Editor.setElements
                     Editor.setHistoryIndex stU].
    rewrite HhB.
    replace (Z.of_nat (List.length prefix) + 1)%Z
      with (Z.of_nat (List.length (prefix ++ [HistoryState.mk (Editor.elements stA)])))
      by (rewrite length_app; cbn [List.length]; lia).
    rewrite app_assoc, array_slice_app, <- app_assoc. reflexivity.
  - rewrite Hget. reflexivity.
Qed.

(** What an undo does: nothing at cursor 0 or below; otherwise the cursor
    moves down by one and the current set becomes the snapshot there.  The
    history, the tool state and the scale are left as they are. *)
Lemma handleUndo_frame (st st' : Editor.t) :
  Editor.handleUndo st = Ok st' ->
  Editor.history st' = Editor.history st
  /\ Editor.tools st' = Editor.tools st
  /\ Editor.scale st' = Editor.scale st
  /\ (st' = st
      \/ (Editor.historyIndex st' = (Editor.historyIndex st - 1)%Z
          /\ array_get (Editor.history st) (Editor.historyIndex st')
             = Some (HistoryState.mk (Editor.elements st')))).
Proof.
  unfold Editor.handleUndo.
  destruct (0 <? Editor.historyIndex st)%Z.
  - destruct (array_get (Editor.history st) (Editor.historyIndex st - 1))
      as [[snapshot] |] eqn:Hget; [| discriminate].
    intro H; injection H as <-.
    cbn [Editor.history Editor.tools Editor.scale Editor.historyIndex
         Editor.elements Editor.setElements Editor.setHistoryIndex
         HistoryState.elements].
    repeat split. right; split; [reflexivity | exact Hget].
  - intro H; injection H as <-. repeat split. left; reflexivity.
Qed.

Lemma handleRedo_frame (st st' : Editor.t) :
  Editor.handleRedo st = Ok st' ->
  Editor.history st' = Editor.history st
  /\ Editor.tools st' = Editor.tools st
  /\ Editor.scale st' = Editor.scale st
  /\ (st' = st
      \/ (Editor.historyIndex st' = (Editor.historyIndex st + 1)%Z
          /\ array_get (Editor.history st) (Editor.historyIndex st')
             = Some (HistoryState.mk (Editor.elements st')))).
Proof.
  unfold Editor.handleRedo.
  destruct (Editor.historyIndex st <? Z.of_nat (List.length (Editor.history st)) - 1)%Z.
  - destruct (array_get (Editor.history st) (Editor.historyIndex st + 1))
      as [[snapshot] |] eqn:Hget; [| discriminate].
    intro H; injection H as <-.
    cbn [Editor.history Editor.tools Editor.scale Editor.historyIndex
         Editor.elements Editor.setElements Editor.setHistoryIndex
         HistoryState.elements].
    repeat split. right; split; [reflexivity | exact Hget].
  - intro H; injection H as <-. repeat split. left; reflexivity.
Qed.

Lemma array_get_in_range {A : Type} (arr : list A) (i : Z) :
  (0 <= i < Z.of_nat (List.length arr))%Z -> exists a, array_get arr i = Some a.
Proof.
  intro H. unfold array_get.
  destruct (Z.ltb_spec i 0); [lia |].
  destruct (nth_error arr (Z.to_nat i)) as [a |] eqn:Hn.
  - exists a; reflexivity.
  - apply nth_error_None in Hn. lia.
Qed.

(** On a well-formed history an undo does not throw, and the history stays
    well-formed. *)
Lemma handleUndo_total (st : Editor.t) :
  wf_history st ->
  exists st', Editor.handleUndo st = Ok st' /\ wf_history st'.
Proof.
  intro Hwf. unfold Editor.handleUndo, wf_history in *.
  destruct (Z.ltb_spec 0 (Editor.historyIndex st)) as [Hpos | Hle].
  - destruct (array_get_in_range (Editor.history st) (Editor.historyIndex st - 1))
      as (snapshot & ->); [lia |].
    eexists; split; [reflexivity |].
    cbn [Editor.history Editor.historyIndex Editor.setElements
         Editor.setHistoryIndex]. lia.
  - exists st; split; [reflexivity | exact Hwf].
Qed.

Lemma handleRedo_total (st : Editor.t) :
  wf_history st ->
  exists st', Editor.handleRedo st = Ok st' /\ wf_history st'.
Proof.
  intro Hwf. unfold Editor.handleRedo, wf_history in *.
  destruct (Z.ltb_spec (Editor.historyIndex st)
              (Z.of_nat (List.length (Editor.history st)) - 1)) as [Hlt | Hge].
  - destruct (array_get_in_range (Editor.history st) (Editor.historyIndex st + 1))
      as (snapshot & ->); [lia |].
    eexists; split; [reflexivity |].
    cbn [Editor.history Editor.historyIndex Editor.setElements
         Editor.setHistoryIndex]. lia.
  - exists st; split; [reflexivity | exact Hwf].
Qed.

(** Any sequence of undos and redos runs to the end on a well-formed
    history and leaves the history as it was. *)
Lemma moves_preserve_history (ms : list HistoryMove) (st : Editor.t) :
  wf_history st ->
  exists st',
    moves st ms = Ok st' /\ wf_history st'
    /\ Editor.history st' = Editor.history st.
Proof.
  revert st; induction ms as [| m ms IH]; intros st Hwf.
  - exists st; split; [reflexivity | split; [assumption | reflexivity]].
  - assert (exists st1, move st m = Ok st1 /\ wf_history st1
                        /\ Editor.history st1 = Editor.history st)
      as (st1 & Hm & Hwf1 & Hh1).
    { destruct m; cbn [move].
      - destruct (handleUndo_total st Hwf) as (st1 & H1 & Hwf1).
        exists st1; split; [assumption | split; [assumption |]].
        apply (handleUndo_frame st st1 H1).
      - destruct (handleRedo_total st Hwf) as (st1 & H1 & Hwf1).
        exists st1; split; [assumption | split; [assumption |]].
        apply (handleRedo_frame st st1 H1). }
    destruct (IH st1 Hwf1) as (st' & Hms & Hwf' & Hh').
    exists st'. cbn [moves]. rewrite Hm; cbn [bind].
    split; [assumption | split; [assumption | congruence]].
Qed.

(** C10: on a well-formed history (the cursor is -1 or an index of the
    history, as it is in every state the editor reaches), an undo and a redo
    both return, and neither changes the history list nor a snapshot in it:
    the state after the call either is the state before, or differs from it
    only by the cursor, moved by one, and by the current set, which is the
    set of the snapshot at the new cursor. *)
Theorem undo_redo_keep_history (st : Editor.t) (Hwf : wf_history st) :
  exists u r,
    Editor.handleUndo st = Ok u
    /\ Editor.handleRedo st = Ok r
    /\ Editor.history u = Editor.history st
    /\ Editor.history r = Editor.history st
    /\ (u = st
        \/ u = Editor.mk (Editor.scale st) (Editor.tools st) (Editor.elements u)
                 (Editor.history st) (Editor.historyIndex st - 1)
           /\ array_get (Editor.history st) (Editor.historyIndex st - 1)
              = Some (HistoryState.mk (Editor.elements u)))
    /\ (r = st
        \/ r = Editor.mk (Editor.scale st) (Editor.tools st) (Editor.elements r)
                 (Editor.history st) (Editor.historyIndex st + 1)
           /\ array_get (Editor.history st) (Editor.historyIndex st + 1)
              = Some (HistoryState.mk (Editor.elements r))).
Proof.
  destruct (handleUndo_total st Hwf) as (u & Hu & _).
  destruct (handleRedo_total st Hwf) as (r & Hr & _).
  exists u, r.
  destruct (handleUndo_frame st u Hu) as (Hhu & Htu & Hsu & Hcu).
  destruct (handleRedo_frame st r Hr) as (Hhr & Htr & Hsr & Hcr).
  repeat split; try assumption.
  - destruct Hcu as [-> | [Hi Hget]]; [left; reflexivity | right].
    rewrite Hi in Hget. split; [| exact Hget].
    destruct u; cbn in *; subst; reflexivity.
  - destruct Hcr as [-> | [Hi Hget]]; [left; reflexivity | right].
    rewrite Hi in Hget. split; [| exact Hget].
    destruct r; cbn in *; subst; reflexivity.
Qed.

Lemma editor_two_checkpoints_wf : wf_history editor_two_checkpoints.
Proof. apply pushHistory_wf. Defined.

Lemma undo_redo_keep_history_witness :
  wf_history editor_two_checkpoints
  /\ exists u r,
       Editor.handleUndo editor_two_checkpoints = Ok u
       /\ Editor.handleRedo editor_two_checkpoints = Ok r
       /\ Editor.history u = Editor.history editor_two_checkpoints
       /\ Editor.history r = Editor.history editor_two_checkpoints.
Proof.
  split; [exact editor_two_checkpoints_wf |].
  destruct (undo_redo_keep_history editor_two_checkpoints editor_two_checkpoints_wf)
    as (u & r & Hu & Hr & Hhu & Hhr & _).
  exists u, r. repeat split; assumption.
Defined.

(** ** Identifiers *)

Lemma toString_inj (a b : Z) : toString a = toString b -> a = b.
Proof.
  unfold toString. intro H.
  apply (f_equal DecimalString.NilEmpty.int_of_string) in H.
  rewrite !DecimalString.NilEmpty.isi in H.
  injection H as H. apply DecimalZ.to_int_inj, H.
Qed.

Lemma belowId_mono (T T' : Z) (s : string) :
  (T <= T')%Z -> belowId T s -> belowId T' s.
Proof. intros HT (t & -> & Ht). exists t; split; [reflexivity | lia]. Qed.

Lemma belowId_fresh (T t : Z) (l : list string) :
  (T <= t)%Z -> Forall (belowId T) l -> ~ In (toString t) l.
Proof.
  intros HT Hall Hin. rewrite Forall_forall in Hall.
  destruct (Hall _ Hin) as (t' & Heq & Ht').
  apply toString_inj in Heq. lia.
Qed.

Lemma okIds_mono (T T' : Z) (pending : option DrawingElement)
    (l : list DrawingElement) :
  (T <= T')%Z -> okIds T pending l -> okIds T' pending l.
Proof.
  intros HT (Hnd & Hall & Hp). repeat split; try assumption.
  eapply Forall_impl; [| exact Hall]. intros s; apply belowId_mono, HT.
Qed.

(** A set with the same identifiers, in the same order. *)
Lemma okIds_same_ids (T : Z) (pending : option DrawingElement)
    (l l' : list DrawingElement) :
  ids l' = ids l -> okIds T pending l -> okIds T pending l'.
Proof. unfold okIds. intros ->. trivial. Qed.

Lemma ids_filter_incl (f : DrawingElement -> bool) (l : list DrawingElement) :
  incl (ids (filter f l)) (ids l).
Proof.
  intros s Hin. unfold ids in *. apply in_map_iff in Hin as (el & <- & Hel).
  apply filter_In in Hel as [Hel _]. apply in_map, Hel.
Qed.

Lemma NoDup_ids_filter (f : DrawingElement -> bool) (l : list DrawingElement) :
  NoDup (ids l) -> NoDup (ids (filter f l)).
Proof.
  induction l as [| el l IH]; cbn [filter ids map]; intro Hnd; [constructor |].
  inversion Hnd as [| ? ? Hnotin Hnd']; subst.
  destruct (f el); cbn [map]; [| apply IH, Hnd'].
  constructor; [| apply IH, Hnd'].
  intro Hin. apply Hnotin. apply (ids_filter_incl f l), Hin.
Qed.

Lemma okIds_filter (T : Z) (pending : option DrawingElement)
    (f : DrawingElement -> bool) (l : list DrawingElement) :
  okIds T pending l -> okIds T pending (filter f l).
Proof.
  intros (Hnd & Hall & Hp). repeat split.
  - apply NoDup_ids_filter, Hnd.
  - rewrite Forall_forall in *. intros s Hs. apply Hall, (ids_filter_incl f l), Hs.
  - intros c Hc Hin. apply (Hp c Hc), (ids_filter_incl f l), Hin.
Qed.

(** Adding an element whose identifier is new. *)
Lemma okIds_add (T : Z) (pending : option DrawingElement)
    (l : list DrawingElement) (el : DrawingElement) :
  okIds T pending l ->
  belowId T (id el) ->
  ~ In (id el) (ids l) ->
  (forall c, pending = Some c -> id c <> id el) ->
  okIds T pending (l ++ [el]).
Proof.
  intros (Hnd & Hall & Hp) Hbelow Hfresh Hpend. unfold okIds, ids in *.
  rewrite map_app. cbn [map]. repeat split.
  - apply NoDup_app; repeat split.
    + exact Hnd.
    + constructor; [intros [] | constructor].
    + intros s Hs [<- | []]. exact (Hfresh Hs).
  - apply Forall_app; split; [exact Hall |]. constructor; [exact Hbelow | constructor].
  - intros c Hc Hin. apply in_app_iff in Hin as [Hin | [Heq | []]].
    + exact (Hp c Hc Hin).
    + exact (Hpend c Hc (eq_sym Heq)).
Qed.

Lemma Forall_array_slice {A : Type} (P : A -> Prop) (arr : list A) (to : Z) :
  Forall P arr -> Forall P (array_slice arr to).
Proof.
  intro H. unfold array_slice.
  assert (forall n, Forall P (firstn n arr)) as Hfirst.
  { intro n. rewrite <- (firstn_skipn n arr) in H.
    apply Forall_app in H. apply H. }
  destruct (to <? 0)%Z; apply Hfirst.
Qed.

Section EditorIds.

Variables (T : Z) (pending : option DrawingElement).

Lemma editorIds_pushHistory (st : Editor.t) (snapshot : list DrawingElement) :
  editorIds T pending st ->
  okIds T pending snapshot ->
  editorIds T pending (Editor.pushHistory st snapshot).
Proof.
  intros [Hel Hh] Hsnap. split; [exact Hel |].
  unfold Editor.pushHistory.
  cbn [Editor.history Editor.setHistory Editor.setHistoryIndex].
  apply Forall_app; split.
  - apply Forall_array_slice, Hh.
  - constructor; [exact Hsnap | constructor].
Qed.

Lemma editorIds_setElements (st : Editor.t) (els : list DrawingElement) :
  editorIds T pending st ->
  okIds T pending els ->
  editorIds T pending (Editor.setElements st els).
Proof. intros [_ Hh] Hels. split; assumption. Qed.

Lemma editorIds_handleElementAdd (st : Editor.t) (el : DrawingElement) :
  editorIds T pending st ->
  belowId T (id el) ->
  ~ In (id el) (ids (Editor.elements st)) ->
  (forall c, pending = Some c -> id c <> id el) ->
  editorIds T pending (Editor.handleElementAdd st el).
Proof.
  intros Hinv Hbelow Hfresh Hpend.
  assert (okIds T pending (Editor.elements st ++ [el])) as Hnew
    by (apply okIds_add; try assumption; apply Hinv).
  unfold Editor.handleElementAdd.
  apply editorIds_pushHistory; [| exact Hnew].
  apply editorIds_setElements; assumption.
Qed.

Lemma ids_map_same (f : DrawingElement -> DrawingElement)
    (l : list DrawingElement) :
  (forall el, id (f el) = id el) -> ids (map f l) = ids l.
Proof.
  intro Hf. unfold ids. rewrite map_map. apply map_ext, Hf.
Qed.

Lemma ids_handleElementUpdate (st : Editor.t) (i : string) (updates : Partial.t) :
  Partial.id updates = None ->
  ids (Editor.elements (Editor.handleElementUpdate st i updates))
  = ids (Editor.elements st).
Proof.
  intro Hid. unfold Editor.handleElementUpdate. cbn [Editor.elements Editor.setElements].
  apply ids_map_same. intro el.
  destruct (String.eqb (id el) i); [| reflexivity].
  unfold spread. rewrite Hid. reflexivity.
Qed.

Lemma ids_confirmElement (canvas : option DOMRect) (i text' : string)
    (format : option TextFormat) (l : list DrawingElement) :
  ids (map (Editor.confirmElement canvas i text' format) l) = ids l.
Proof.
  apply ids_map_same. intro el. unfold Editor.confirmElement.
  destruct (String.eqb (id el) i); reflexivity.
Qed.

Lemma editorIds_handleTextConfirm (st : Editor.t) (canvas : option DOMRect)
    (i text' : string) (format : option TextFormat) :
  editorIds T pending st ->
  editorIds T pending (Editor.handleTextConfirm st canvas i text' format).
Proof.
  intro Hinv.
  assert (okIds T pending
            (map (Editor.confirmElement canvas i text' format) (Editor.elements st)))
    as Hnew.
  { eapply okIds_same_ids; [apply ids_confirmElement | apply Hinv]. }
  unfold Editor.handleTextConfirm.
  apply editorIds_pushHistory; [| exact Hnew].
  apply editorIds_setElements; assumption.
Qed.

Lemma editorIds_handleTextCancel (st : Editor.t) (i : string) :
  editorIds T pending st -> editorIds T pending (Editor.handleTextCancel st i).
Proof.
  intro Hinv. unfold Editor.handleTextCancel.
  apply editorIds_setElements; [exact Hinv |].
  apply okIds_filter, Hinv.
Qed.

Lemma editorIds_handleTextChange (st : Editor.t) (i text' : string) :
  editorIds T pending st -> editorIds T pending (Editor.handleTextChange st i text').
Proof.
  intro Hinv. unfold Editor.handleTextChange.
  apply editorIds_setElements; [exact Hinv |].
  eapply okIds_same_ids; [| apply Hinv].
  apply ids_map_same. intro el. destruct (String.eqb (id el) i); reflexivity.
Qed.

Lemma editorIds_handleTextMove (st : Editor.t) (i : string) (dx dy : R) :
  editorIds T pending st -> editorIds T pending (Editor.handleTextMove st i dx dy).
Proof.
  intro Hinv. unfold Editor.handleTextMove.
  apply editorIds_setElements; [exact Hinv |].
  eapply okIds_same_ids; [| apply Hinv].
  apply ids_map_same. intro el. destruct (String.eqb (id el) i); reflexivity.
Qed.

Lemma array_get_In {A : Type} (arr : list A) (i : Z) (a : A) :
  array_get arr i = Some a -> In a arr.
Proof.
  unfold array_get. destruct (i <? 0)%Z; [discriminate |].
  apply nth_error_In.
Qed.

Lemma editorIds_handleUndo (st st' : Editor.t) :
  editorIds T pending st -> Editor.handleUndo st = Ok st' ->
  editorIds T pending st'.
Proof.
  intros Hinv. unfold Editor.handleUndo.
  destruct (0 <? Editor.historyIndex st)%Z; [| intro H; injection H as <-; exact Hinv].
  destruct (array_get (Editor.history st) (Editor.historyIndex st - 1))
    as [snapshot |] eqn:Hget; [| discriminate].
  intro H; injection H as <-.
  destruct Hinv as [Hel Hh]. split; [| exact Hh].
  cbn [Editor.elements Editor.setElements].
  rewrite Forall_forall in Hh. apply Hh, (array_get_In _ _ _ Hget).
Qed.

Lemma editorIds_handleRedo (st st' : Editor.t) :
  editorIds T pending st -> Editor.handleRedo st = Ok st' ->
  editorIds T pending st'.
Proof.
  intros Hinv. unfold Editor.handleRedo.
  destruct (Editor.historyIndex st <? Z.of_nat (List.length (Editor.history st)) - 1)%Z;
    [| intro H; injection H as <-; exact Hinv].
  destruct (array_get (Editor.history st) (Editor.historyIndex st + 1))
    as [snapshot |] eqn:Hget; [| discriminate].
  intro H; injection H as <-.
  destruct Hinv as [Hel Hh]. split; [| exact Hh].
  cbn [Editor.elements Editor.setElements].
  rewrite Forall_forall in Hh. apply Hh, (array_get_In _ _ _ Hget).
Qed.

Lemma editorIds_handleConfirm (st : Editor.t) (canvas : option DOMRect)
    (i text' : string) (format : TextFormat) :
  editorIds T pending st ->
  editorIds T pending (handleConfirm canvas i text' format st).
Proof.
  intro Hinv. unfold handleConfirm.
  destruct (trim text').
  - apply editorIds_handleTextCancel, Hinv.
  - apply editorIds_handleTextConfirm, Hinv.
Qed.

End EditorIds.

(** The invariant only looks at the identifiers of the current set, at the
    history and at the element in progress. *)
Lemma editorIds_same (T : Z) (pending : option DrawingElement)
    (st st' : Editor.t) :
  ids (Editor.elements st') = ids (Editor.elements st) ->
  Editor.history st' = Editor.history st ->
  editorIds T pending st -> editorIds T pending st'.
Proof.
  intros Hids Hh [Hel Hhist]. split.
  - eapply okIds_same_ids; eassumption.
  - rewrite Hh; exact Hhist.
Qed.

Lemma editorIds_mono (T T' : Z) (pending : option DrawingElement) (st : Editor.t) :
  (T <= T')%Z -> editorIds T pending st -> editorIds T' pending st.
Proof.
  intros HT [Hel Hh]. split.
  - eapply okIds_mono; eassumption.
  - eapply Forall_impl; [| exact Hh]. intros h; apply okIds_mono, HT.
Qed.

(** Changing the element in progress to one whose identifier is in no set. *)
Lemma editorIds_pending (T : Z) (pending pending' : option DrawingElement)
    (st : Editor.t) :
  (forall c, pending' = Some c -> forall l, Forall (belowId T) l -> ~ In (id c) l) ->
  editorIds T pending st -> editorIds T pending' st.
Proof.
  intros Hfresh [Hel Hh].
  assert (forall l, okIds T pending l -> okIds T pending' l) as Hok.
  { intros l (Hnd & Hall & _). repeat split; try assumption.
    intros c Hc. apply (Hfresh c Hc), Hall. }
  split; [apply Hok, Hel |].
  eapply Forall_impl; [| exact Hh]. intros h; apply Hok.
Qed.

Lemma editExistingText_ids (env : Env.t) (el : DrawingElement)
    (st st' : Editor.t) :
  editExistingText env el st = Ok st' ->
  ids (Editor.elements st') = ids (Editor.elements st)
  /\ Editor.history st' = Editor.history st.
Proof.
  unfold editExistingText.
  destruct (Env.canvas env) as [rect |]; [| intro H; injection H as <-; split; reflexivity].
  destruct (at_index (points el) 0) as [p0 |]; cbn [bind]; [| discriminate].
  intro H; injection H as <-. split; [| reflexivity].
  apply ids_handleElementUpdate. reflexivity.
Qed.

(** What a pointer-down does to the identifiers: it keeps the sets and the
    element in progress, or adds one element made from the clock reading, or
    starts an element in progress made from the clock reading. *)
Lemma handleMouseDown_cases (measureText : R -> string -> R) (env : Env.t)
    (e : MouseEvent) (app app' : App) :
  handleMouseDown measureText env e app = Ok app' ->
  (ids (Editor.elements (editor app')) = ids (Editor.elements (editor app))
   /\ Editor.history (editor app') = Editor.history (editor app)
   /\ Refs.currentElement (refs app') = Refs.currentElement (refs app))
  \/ (exists el,
        id el = toString (Env.idNow env)
        /\ editor app' = Editor.handleElementAdd (editor app) el
        /\ Refs.currentElement (refs app') = Refs.currentElement (refs app))
  \/ (exists c,
        id c = toString (Env.idNow env)
        /\ editor app' = editor app
        /\ Refs.currentElement (refs app') = Some c).
Proof.
  unfold handleMouseDown.
  destruct (getTextElementAtPoint measureText env (Editor.elements (editor app))
              (getMousePos env e)) as [hit |]; cbn [bind]; [| discriminate].
  assert (forall el rf,
             (let* st' := editExistingText env el (editor app) in Ok (mkApp st' rf))
             = Ok app' ->
             Refs.currentElement rf = Refs.currentElement (refs app) ->
             ids (Editor.elements (editor app')) = ids (Editor.elements (editor app))
             /\ Editor.history (editor app') = Editor.history (editor app)
             /\ Refs.currentElement (refs app') = Refs.currentElement (refs app))
    as Hedit.
  { intros el rf H Hrf.
    destruct (editExistingText env el (editor app)) as [st' |] eqn:Hst';
      cbn [bind] in H; [| discriminate].
    injection H as <-. cbn [editor refs].
    destruct (editExistingText_ids env el (editor app) st' Hst') as [Hids Hh].
    repeat split; assumption. }
  assert (forall rf,
             Ok (mkApp (editor app) rf) = Ok app' ->
             Refs.currentElement rf = Refs.currentElement (refs app) ->
             ids (Editor.elements (editor app')) = ids (Editor.elements (editor app))
             /\ Editor.history (editor app') = Editor.history (editor app)
             /\ Refs.currentElement (refs app') = Refs.currentElement (refs app))
    as Hsame.
  { intros rf H Hrf. injection H as <-. repeat split; assumption. }
  destruct hit as [textElement |];
    destruct (ToolState.activeTool (Editor.tools (editor app))) eqn:Htool;
    try (intro H; left; apply (Hsame _ H); reflexivity);
    try (intro H; right; right; injection H as <-; eexists;
         split; [| split; reflexivity]; reflexivity).
  - (* select, on a text *)
    destruct ((Env.now env - Refs.lastClickTime (refs app) <? 300)%Z
              && opt_string_eqb (Refs.lastClickElement (refs app)) (id textElement)).
    + destruct (existsb isTextEditing (Editor.elements (editor app))).
      * intro H. left. injection H as <-. repeat split; reflexivity.
      * intro H. left. apply (Hedit _ _ H). reflexivity.
    + intro H. left. apply (Hsame _ H). reflexivity.
  - (* text tool, on a text *)
    destruct (existsb isTextEditing (Editor.elements (editor app))).
    + intro H. left. apply (Hsame _ H). reflexivity.
    + cbn [bind]. intro H. left. apply (Hedit _ _ H). reflexivity.
  - (* text tool, elsewhere *)
    destruct (existsb isTextEditing (Editor.elements (editor app))).
    + intro H. left. apply (Hsame _ H). reflexivity.
    + cbn [bind]. intro H. right; left. injection H as <-.
      eexists; split; [| split; reflexivity]; reflexivity.
Qed.

Lemma handleMouseMove_ids (env : Env.t) (e : MouseEvent) (app app' : App) :
  handleMouseMove env e app = Ok app' ->
  editor app' = editor app
  /\ option_map id (Refs.currentElement (refs app'))
     = option_map id (Refs.currentElement (refs app)).
Proof.
  unfold handleMouseMove.
  destruct (Refs.isDrawing (refs app));
    [| intro H; injection H as <-; split; reflexivity].
  destruct (Refs.currentElement (refs app)) as [current |] eqn:Hcur;
    [| intro H; injection H as <-; rewrite Hcur; split; reflexivity].
  assert (forall newPoints : result (list Point),
             (let* newPoints := newPoints in
              Ok (mkApp (editor app)
                    (Refs.mk true
                       (Some (spread current
                                (Partial.mk None None (Some newPoints) None None
                                   None None None None None None)))
                       (Refs.startPoint (refs app))
                       (Refs.lastClickTime (refs app))
                       (Refs.lastClickElement (refs app))))) = Ok app' ->
             editor app' = editor app
             /\ option_map id (Refs.currentElement (refs app'))
                = option_map id (Some current)) as Hmove.
  { intros [pts |] H; cbn [bind] in H; [| discriminate].
    injection H as <-. split; reflexivity. }
  destruct (ToolState.activeTool (Editor.tools (editor app)));
    try (intro H; injection H as <-; rewrite Hcur; split; reflexivity);
    intro H; apply (Hmove _ H).
Qed.

Lemma idsInvariant_mono (T T' : Z) (app : App) :
  (T <= T')%Z -> idsInvariant T app -> idsInvariant T' app.
Proof.
  intros HT [Hed Hp]. split.
  - eapply editorIds_mono; eassumption.
  - intros c Hc. eapply belowId_mono; [exact HT | exact (Hp c Hc)].
Qed.

Lemma idsInvariant_initial (T : Z) : idsInvariant T initialApp.
Proof.
  split; [split |].
  - repeat split; [constructor | constructor | intros c H; discriminate].
  - constructor.
  - intros c H; discriminate.
Qed.

(** The invariant looks at the element in progress through its identifier
    only. *)
Lemma editorIds_pending_id (T : Z) (pending pending' : option DrawingElement)
    (st : Editor.t) :
  option_map id pending' = option_map id pending ->
  editorIds T pending st -> editorIds T pending' st.
Proof.
  intros Hid [Hel Hh].
  assert (forall l, okIds T pending l -> okIds T pending' l) as Hok.
  { intros l (Hnd & Hall & Hp). repeat split; try assumption.
    intros c' ->. destruct pending as [c |]; [| discriminate].
    injection Hid as Hid. rewrite Hid. apply (Hp c eq_refl). }
  split; [apply Hok, Hel |].
  eapply Forall_impl; [| exact Hh]. intros h; apply Hok.
Qed.

Lemma handleMouseDown_ids (measureText : R -> string -> R) (T : Z)
    (env : Env.t) (e : MouseEvent) (app app' : App) :
  idsInvariant T app ->
  (T <= Env.idNow env)%Z ->
  handleMouseDown measureText env e app = Ok app' ->
  idsInvariant (Env.idNow env + 1) app'.
Proof.
  intros [Hed Hp] HT Hrun.
  assert (belowId (Env.idNow env + 1) (toString (Env.idNow env))) as Hnew
    by (exists (Env.idNow env); split; [reflexivity | lia]).
  unfold idsInvariant.
  destruct (handleMouseDown_cases measureText env e app app' Hrun)
    as [(Hids & Hh & Hcur) | [(el & Hid & Hadd & Hcur) | (c & Hid & Hsame & Hcur)]];
    rewrite Hcur.
  - split.
    + apply (editorIds_mono T); [lia |].
      eapply editorIds_same; eassumption.
    + intros c Hc. apply (belowId_mono T); [lia | exact (Hp c Hc)].
  - split.
    + rewrite Hadd. apply editorIds_handleElementAdd.
      * apply (editorIds_mono T); [lia | exact Hed].
      * rewrite Hid; exact Hnew.
      * rewrite Hid. apply (belowId_fresh T); [exact HT | apply Hed].
      * intros c Hc Heq. rewrite Hid in Heq.
        destruct (Hp c Hc) as (t & Ht & Hlt). rewrite Ht in Heq.
        apply toString_inj in Heq. lia.
    + intros c Hc. apply (belowId_mono T); [lia | exact (Hp c Hc)].
  - split.
    + rewrite Hsame. apply (editorIds_mono T); [lia |].
      apply (editorIds_pending T (Refs.currentElement (refs app))); [| exact Hed].
      intros c' Hc' l Hl. injection Hc' as <-. rewrite Hid.
      apply (belowId_fresh T); assumption.
    + intros c' Hc'. injection Hc' as <-. rewrite Hid; exact Hnew.
Qed.

Lemma handleMouseUp_ids (T : Z) (app : App) :
  idsInvariant T app -> idsInvariant T (handleMouseUp app).
Proof.
  intros Hinv. unfold handleMouseUp.
  destruct (Refs.isDrawing (refs app)); [| exact Hinv].
  destruct (Refs.currentElement (refs app)) as [current |] eqn:Hcur;
    [| exact Hinv].
  destruct Hinv as [Hed Hp]. rewrite Hcur in Hed, Hp.
  split; cbn [editor refs Refs.currentElement]; [| intros c H; discriminate].
  apply editorIds_handleElementAdd.
  - apply (editorIds_pending T (Some current)); [intros c H; discriminate | exact Hed].
  - apply (Hp current eq_refl).
  - destruct Hed as [(_ & _ & Hnotin) _]. apply (Hnotin current eq_refl).
  - intros c H; discriminate.
Qed.

(** One event keeps the invariant, when the clock reading of a pointer-down
    is not below the bound. *)
Lemma step_ids (measureText : R -> string -> R) (T : Z) (ev : Event)
    (app app' : App) :
  idsInvariant T app ->
  increasing_stamps T [ev] ->
  step measureText app ev = Ok app' ->
  idsInvariant (next_stamp T ev) app'.
Proof.
  intros Hinv Hstamp. destruct ev; cbn [step next_stamp increasing_stamps] in *.
  - (* MouseDown *)
    destruct Hstamp as [HT _].
    destruct (ToolState.activeTool (Editor.tools (editor app)));
      try (apply (handleMouseDown_ids measureText T); assumption).
    intro H; injection H as <-. apply (idsInvariant_mono T); [lia | exact Hinv].
  - (* MouseMove *)
    assert (forall a, handleMouseMove env e app = Ok a -> idsInvariant T a) as Hmove.
    { intros a Ha. destruct (handleMouseMove_ids env e app a Ha) as [Hsame Hid].
      destruct Hinv as [Hed Hp]. split.
      - rewrite Hsame. eapply editorIds_pending_id; eassumption.
      - intros c Hc. rewrite Hc in Hid.
        destruct (Refs.currentElement (refs app)) as [c0 |]; [| discriminate].
        injection Hid as Hid. rewrite Hid. apply (Hp c0 eq_refl). }
    destruct (ToolState.activeTool (Editor.tools (editor app))); try apply Hmove.
    destruct (buttons e =? 1)%Z; [| apply Hmove].
    intro H; injection H as <-; exact Hinv.
  - (* MouseUp *)
    intro H; injection H as <-. apply handleMouseUp_ids, Hinv.
  - (* ToolChange *)
    intro H; injection H as <-. destruct Hinv as [Hed Hp]. split; [| exact Hp].
    eapply editorIds_same; [| | exact Hed]; reflexivity.
  - (* Undo *)
    destruct (Editor.handleUndo (editor app)) as [st |] eqn:Hu; cbn [bind];
      [| discriminate].
    intro H; injection H as <-. destruct Hinv as [Hed Hp]. split; [| exact Hp].
    eapply editorIds_handleUndo; eassumption.
  - (* Redo *)
    destruct (Editor.handleRedo (editor app)) as [st |] eqn:Hr; cbn [bind];
      [| discriminate].
    intro H; injection H as <-. destruct Hinv as [Hed Hp]. split; [| exact Hp].
    eapply editorIds_handleRedo; eassumption.
  - (* Confirm *)
    intro H; injection H as <-. destruct Hinv as [Hed Hp]. split; [| exact Hp].
    apply editorIds_handleConfirm, Hed.
  - (* Cancel *)
    intro H; injection H as <-. destruct Hinv as [Hed Hp]. split; [| exact Hp].
    apply editorIds_handleTextCancel, Hed.
  - (* TextChange *)
    intro H; injection H as <-. destruct Hinv as [Hed Hp]. split; [| exact Hp].
    apply editorIds_handleTextChange, Hed.
  - (* TextMove *)
    intro H; injection H as <-. destruct Hinv as [Hed Hp]. split; [| exact Hp].
    apply editorIds_handleTextMove, Hed.
Qed.

Lemma increasing_stamps_cons (T : Z) (ev : Event) (rest : list Event) :
  increasing_stamps T (ev :: rest) ->
  increasing_stamps T [ev] /\ increasing_stamps (next_stamp T ev) rest.
Proof.
  destruct ev; cbn [increasing_stamps next_stamp]; intuition.
Qed.

Lemma run_ids (measureText : R -> string -> R) (evs : list Event) (T : Z)
    (app app' : App) :
  idsInvariant T app ->
  increasing_stamps T evs ->
  run measureText app evs = Ok app' ->
  exists T', idsInvariant T' app'.
Proof.
  revert T app; induction evs as [| ev rest IH]; intros T app Hinv Hstamp Hrun.
  - injection Hrun as <-. exists T; exact Hinv.
  - cbn [run] in Hrun.
    destruct (step measureText app ev) as [app1 |] eqn:Hstep; cbn [bind] in Hrun;
      [| discriminate].
    apply increasing_stamps_cons in Hstamp as [Hev Hrest].
    apply (IH (next_stamp T ev) app1); try assumption.
    apply (step_ids measureText T ev app app1); assumption.
Qed.

(** ** No handler throws in a reachable state *)

Section Safety.

Variable measureText : R -> string -> R.

Lemma lineAtPoint_total (env : Env.t) (point : Point) (element : DrawingElement)
    (lineHeight : R) (lines : list string) (lineIndex : nat) :
  points element <> [] ->
  exists hit,
    lineAtPoint measureText env point element lineHeight lineIndex lines = Ok hit.
Proof.
  intro Hpts. destruct (points element) as [| p0 rest] eqn:Hp; [contradiction |].
  revert lineIndex; induction lines as [| line lines IH]; intro lineIndex;
    cbn [lineAtPoint].
  - eexists; reflexivity.
  - destruct (Env.canvas env); [| apply IH].
    destruct (Env.context2d env); cbn [negb]; [| apply IH].
    rewrite Hp. cbn [at_index nth_error bind].
    repeat match goal with
           | |- context [Rle_dec ?a ?b] => destruct (Rle_dec a b)
           end; try apply IH.
    eexists; reflexivity.
Qed.

Lemma textElementIn_total (env : Env.t) (point : Point)
    (l : list DrawingElement) :
  Forall anchored l ->
  exists hit,
    textElementIn measureText env point l = Ok hit
    /\ (forall el, hit = Some el -> In el l /\ type el = Text).
Proof.
  induction l as [| el l IH]; intro Hall; cbn [textElementIn].
  - exists None; split; [reflexivity | intros el H; discriminate].
  - inversion Hall as [| ? ? Hel Hl]; subst.
    destruct (IH Hl) as (hit & Hhit & Hin).
    assert (exists hit',
               textElementIn measureText env point l = Ok hit'
               /\ (forall e, hit' = Some e -> In e (el :: l) /\ type e = Text))
      as Hrest.
    { exists hit; split; [exact Hhit |].
      intros e He. destruct (Hin e He). split; [right |]; assumption. }
    destruct (ToolType_eqb (type el) Text) eqn:Hty; cbn [andb]; [| exact Hrest].
    assert (type el = Text) as Htext by (destruct (type el); try discriminate; reflexivity).
    destruct (truthy_string (text el)); cbn [andb]; [| exact Hrest].
    destruct (truthy_bool (isEditing el)); cbn [negb]; [exact Hrest |].
    destruct (lineAtPoint_total env point el
                (opt_num_or (fontSize el) 16 * (12 / 10))
                (split_lines (string_value (text el))) 0 (Hel Htext))
      as ([|] & ->); cbn [bind]; [| exact Hrest].
    exists (Some el); split; [reflexivity |].
    intros e He; injection He as <-. split; [left; reflexivity | exact Htext].
Qed.

Lemma getTextElementAtPoint_total (env : Env.t) (point : Point)
    (l : list DrawingElement) :
  Forall anchored l ->
  exists hit,
    getTextElementAtPoint measureText env l point = Ok hit
    /\ (forall el, hit = Some el -> In el l /\ type el = Text).
Proof.
  intro Hall. unfold getTextElementAtPoint.
  destruct (textElementIn_total env point (rev l)) as (hit & Hhit & Hin).
  - apply Forall_rev, Hall.
  - exists hit; split; [exact Hhit |].
    intros el Hel. destruct (Hin el Hel) as [H Hty].
    split; [apply in_rev, H | exact Hty].
Qed.

End Safety.

Lemma anchored_spread_points (el : DrawingElement) (updates : Partial.t) :
  Partial.type updates = None ->
  (forall pts, Partial.points updates = Some pts -> pts <> []) ->
  anchored el -> anchored (spread el updates).
Proof.
  intros Hty Hpts Hel. unfold anchored, spread in *. cbn [type points].
  rewrite Hty. cbn [override]. intro Htext.
  destruct (Partial.points updates) as [pts |]; cbn [override].
  - apply Hpts; reflexivity.
  - apply Hel, Htext.
Qed.

Lemma Forall_anchored_map (f : DrawingElement -> DrawingElement)
    (l : list DrawingElement) :
  (forall el, anchored el -> anchored (f el)) ->
  Forall anchored l -> Forall anchored (map f l).
Proof.
  intros Hf Hall. induction Hall; cbn [map]; constructor; auto.
Qed.

Lemma Forall_filter_keep {A : Type} (P : A -> Prop) (f : A -> bool) (l : list A) :
  Forall P l -> Forall P (filter f l).
Proof.
  intro Hall. rewrite Forall_forall in *.
  intros a Ha. apply filter_In in Ha as [Ha _]. apply Hall, Ha.
Qed.

Lemma map_nonempty {A B : Type} (f : A -> B) (l : list A) :
  l <> [] -> map f l <> [].
Proof. destruct l; [contradiction | discriminate]. Qed.

Lemma anchored_confirmElement (canvas : option DOMRect) (i text' : string)
    (format : option TextFormat) (el : DrawingElement) :
  anchored el -> anchored (Editor.confirmElement canvas i text' format el).
Proof.
  intro Hel. unfold Editor.confirmElement.
  destruct (String.eqb (id el) i); [| exact Hel].
  unfold anchored, spread. cbn [type points Partial.type Partial.points override].
  intro Htext. specialize (Hel Htext).
  destruct canvas as [rect |]; [| exact Hel].
  destruct (truthy_bool (isEditing el)); [| exact Hel].
  apply map_nonempty, Hel.
Qed.

Lemma safeEditor_pushHistory (st : Editor.t) (snapshot : list DrawingElement) :
  safeEditor st -> Forall anchored snapshot ->
  safeEditor (Editor.pushHistory st snapshot).
Proof.
  intros (_ & Hel & Hh) Hsnap. split; [apply pushHistory_wf |].
  split; [exact Hel |].
  unfold Editor.pushHistory.
  cbn [Editor.history Editor.setHistory Editor.setHistoryIndex].
  apply Forall_app; split.
  - apply Forall_array_slice, Hh.
  - constructor; [exact Hsnap | constructor].
Qed.

Lemma safeEditor_setElements (st : Editor.t) (els : list DrawingElement) :
  safeEditor st -> Forall anchored els ->
  safeEditor (Editor.setElements st els).
Proof. intros (Hwf & _ & Hh) Hels. split; [exact Hwf | split; assumption]. Qed.

Lemma safeEditor_handleElementAdd (st : Editor.t) (el : DrawingElement) :
  safeEditor st -> anchored el -> safeEditor (Editor.handleElementAdd st el).
Proof.
  intros Hst Hel.
  assert (Forall anchored (Editor.elements st ++ [el])) as Hnew.
  { apply Forall_app; split; [apply Hst |]. constructor; [exact Hel | constructor]. }
  unfold Editor.handleElementAdd.
  apply safeEditor_pushHistory; [| exact Hnew].
  apply safeEditor_setElements; assumption.
Qed.

Lemma safeEditor_handleElementUpdate (st : Editor.t) (i : string)
    (updates : Partial.t) :
  Partial.type updates = None ->
  (forall pts, Partial.points updates = Some pts -> pts <> []) ->
  safeEditor st -> safeEditor (Editor.handleElementUpdate st i updates).
Proof.
  intros Hty Hpts Hst. unfold Editor.handleElementUpdate.
  apply safeEditor_setElements; [exact Hst |].
  apply Forall_anchored_map; [| apply Hst].
  intros el Hel. destruct (String.eqb (id el) i); [| exact Hel].
  apply anchored_spread_points; assumption.
Qed.

Lemma safeEditor_handleTextConfirm (st : Editor.t) (canvas : option DOMRect)
    (i text' : string) (format : option TextFormat) :
  safeEditor st -> safeEditor (Editor.handleTextConfirm st canvas i text' format).
Proof.
  intro Hst.
  assert (Forall anchored
            (map (Editor.confirmElement canvas i text' format) (Editor.elements st)))
    as Hnew.
  { apply Forall_anchored_map; [| apply Hst].
    intros el; apply anchored_confirmElement. }
  unfold Editor.handleTextConfirm.
  apply safeEditor_pushHistory; [| exact Hnew].
  apply safeEditor_setElements; assumption.
Qed.

Lemma safeEditor_handleTextCancel (st : Editor.t) (i : string) :
  safeEditor st -> safeEditor (Editor.handleTextCancel st i).
Proof.
  intro Hst. unfold Editor.handleTextCancel.
  apply safeEditor_setElements; [exact Hst |].
  apply Forall_filter_keep, Hst.
Qed.

Lemma safeEditor_handleConfirm (st : Editor.t) (canvas : option DOMRect)
    (i text' : string) (format : TextFormat) :
  safeEditor st -> safeEditor (handleConfirm canvas i text' format st).
Proof.
  intro Hst. unfold handleConfirm. destruct (trim text').
  - apply safeEditor_handleTextCancel, Hst.
  - apply safeEditor_handleTextConfirm, Hst.
Qed.

Lemma safeEditor_handleTextChange (st : Editor.t) (i text' : string) :
  safeEditor st -> safeEditor (Editor.handleTextChange st i text').
Proof.
  intro Hst. unfold Editor.handleTextChange.
  apply safeEditor_setElements; [exact Hst |].
  apply Forall_anchored_map; [| apply Hst].
  intros el Hel. destruct (String.eqb (id el) i); [| exact Hel].
  apply anchored_spread_points; [reflexivity | intros pts H; discriminate | exact Hel].
Qed.

Lemma safeEditor_handleTextMove (st : Editor.t) (i : string) (dx dy : R) :
  safeEditor st -> safeEditor (Editor.handleTextMove st i dx dy).
Proof.
  intro Hst. unfold Editor.handleTextMove.
  apply safeEditor_setElements; [exact Hst |].
  apply Forall_anchored_map; [| apply Hst].
  intros el Hel. destruct (String.eqb (id el) i); [| exact Hel].
  unfold anchored, spread. cbn [type points Partial.type Partial.points override].
  intro Htext. apply map_nonempty, Hel, Htext.
Qed.

Lemma safeEditor_handleUndo (st : Editor.t) :
  safeEditor st -> exists st', Editor.handleUndo st = Ok st' /\ safeEditor st'.
Proof.
  intros (Hwf & Hel & Hh).
  destruct (handleUndo_total st Hwf) as (st' & Hu & Hwf').
  exists st'; split; [exact Hu |].
  destruct (handleUndo_frame st st' Hu) as (Hhist & _ & _ & [-> | [_ Hget]]).
  - split; [exact Hwf | split; assumption].
  - split; [exact Hwf' |]. rewrite Hhist. split; [| exact Hh].
    rewrite Forall_forall in Hh.
    apply (Hh _ (array_get_In _ _ _ Hget)).
Qed.

Lemma safeEditor_handleRedo (st : Editor.t) :
  safeEditor st -> exists st', Editor.handleRedo st = Ok st' /\ safeEditor st'.
Proof.
  intros (Hwf & Hel & Hh).
  destruct (handleRedo_total st Hwf) as (st' & Hr & Hwf').
  exists st'; split; [exact Hr |].
  destruct (handleRedo_frame st st' Hr) as (Hhist & _ & _ & [-> | [_ Hget]]).
  - split; [exact Hwf | split; assumption].
  - split; [exact Hwf' |]. rewrite Hhist. split; [| exact Hh].
    rewrite Forall_forall in Hh.
    apply (Hh _ (array_get_In _ _ _ Hget)).
Qed.

Lemma editExistingText_safe (env : Env.t) (el : DrawingElement) (st : Editor.t) :
  points el <> [] -> safeEditor st ->
  exists st', editExistingText env el st = Ok st' /\ safeEditor st'.
Proof.
  intros Hpts Hst. unfold editExistingText.
  destruct (Env.canvas env) as [rect |]; [| exists st; split; [reflexivity | exact Hst]].
  destruct (points el) as [| p0 rest]; [contradiction |].
  cbn [at_index nth_error bind].
  eexists; split; [reflexivity |].
  apply safeEditor_handleElementUpdate; [reflexivity | | exact Hst].
  intros pts H; injection H as <-; discriminate.
Qed.

Lemma handleMouseDown_safe (measureText : R -> string -> R) (env : Env.t)
    (e : MouseEvent) (app : App) :
  safe app ->
  exists app', handleMouseDown measureText env e app = Ok app' /\ safe app'.
Proof.
  intros [Hst Hpend]. unfold handleMouseDown.
  destruct (getTextElementAtPoint_total measureText env (getMousePos env e)
              (Editor.elements (editor app))) as (hit & Hhit & Hin);
    [apply Hst |].
  rewrite Hhit. cbn [bind].
  assert (forall c, Refs.currentElement (refs app) = Some c -> type c <> Text)
    as Hty by (intros c Hc; apply (Hpend c Hc)).
  assert (forall el, hit = Some el -> points el <> []) as Hanchor.
  { intros el Hel. destruct (Hin el Hel) as [Hmem Htext].
    destruct Hst as (_ & Hall & _). rewrite Forall_forall in Hall.
    apply (Hall el Hmem Htext). }
  assert (forall el rf,
             hit = Some el ->
             (forall c, Refs.currentElement rf = Some c ->
                type c <> Text /\ Refs.startPoint rf <> None) ->
             exists app',
               (let* st' := editExistingText env el (editor app) in
                Ok (mkApp st' rf)) = Ok app' /\ safe app') as Hedit.
  { intros el rf Hel Hrf.
    destruct (editExistingText_safe env el (editor app) (Hanchor el Hel) Hst)
      as (st' & -> & Hst').
    cbn [bind]. eexists; split; [reflexivity |]. split; assumption. }
  assert (forall rf,
             (forall c, Refs.currentElement rf = Some c ->
                type c <> Text /\ Refs.startPoint rf <> None) ->
             exists app', Ok (mkApp (editor app) rf) = Ok app' /\ safe app')
    as Hsame.
  { intros rf Hrf. eexists; split; [reflexivity |]. split; assumption. }
  assert (forall tool rf,
             tool <> Text ->
             exists app',
               Ok (mkApp (editor app)
                     (Refs.mk true
                        (Some (mkElement (toString (Env.idNow env)) tool
                                 [getMousePos env e]
                                 (ToolState.strokeColor (Editor.tools (editor app)))
                                 (ToolState.strokeWidth (Editor.tools (editor app)))
                                 None None None None None None))
                        (Some (getMousePos env e))
                        (Refs.lastClickTime rf) (Refs.lastClickElement rf)))
               = Ok app' /\ safe app') as Hstart.
  { intros tool rf Htool. eexists; split; [reflexivity |].
    split; [exact Hst |].
    intros c Hc. injection Hc as <-. split; [exact Htool | discriminate]. }
  assert (forall c,
             Refs.currentElement (refs app) = Some c ->
             type c <> Text /\ Some (getMousePos env e) <> None) as Hrf2.
  { intros c Hc. split; [apply (Hty c Hc) | discriminate]. }
  destruct hit as [textElement |];
    destruct (ToolState.activeTool (Editor.tools (editor app))) eqn:Htool;
    try (apply Hsame; exact Hpend);
    try (apply (Hstart _ (Refs.mk (Refs.isDrawing (refs app))
                            (Refs.currentElement (refs app))
                            (Refs.startPoint (refs app)) (Env.now env) None));
         discriminate).
  - (* select, on a text *)
    destruct ((Env.now env - Refs.lastClickTime (refs app) <? 300)%Z
              && opt_string_eqb (Refs.lastClickElement (refs app)) (id textElement)).
    + destruct (existsb isTextEditing (Editor.elements (editor app))).
      * exists app; split; [reflexivity | split; assumption].
      * apply (Hedit textElement); [reflexivity | exact Hpend].
    + apply Hsame; exact Hpend.
  - (* text tool, on a text *)
    destruct (existsb isTextEditing (Editor.elements (editor app))).
    + apply Hsame; exact Hrf2.
    + cbn [bind]. apply (Hedit textElement); [reflexivity | exact Hrf2].
  - (* text tool, elsewhere *)
    destruct (existsb isTextEditing (Editor.elements (editor app))).
    + apply Hsame; exact Hrf2.
    + cbn [bind]. eexists; split; [reflexivity |]. split; [| exact Hrf2].
      apply safeEditor_handleElementAdd; [exact Hst |].
      intros _. discriminate.
Qed.

Lemma handleMouseMove_safe (env : Env.t) (e : MouseEvent) (app : App) :
  safe app -> exists app', handleMouseMove env e app = Ok app' /\ safe app'.
Proof.
  intros Hsafe. unfold handleMouseMove.
  destruct (Refs.isDrawing (refs app)); [| exists app; split; [reflexivity | exact Hsafe]].
  destruct (Refs.currentElement (refs app)) as [current |] eqn:Hcur;
    [| exists app; split; [reflexivity | exact Hsafe]].
  destruct Hsafe as [Hst Hpend].
  destruct (Hpend current Hcur) as [Hty Hstart].
  destruct (Refs.startPoint (refs app)) as [start |] eqn:Hsp; [| contradiction].
  assert (forall pts,
             exists app',
               Ok (mkApp (editor app)
                     (Refs.mk true
                        (Some (spread current
                                 (Partial.mk None None (Some pts) None None
                                    None None None None None None)))
                        (Some start)
                        (Refs.lastClickTime (refs app))
                        (Refs.lastClickElement (refs app)))) = Ok app'
               /\ safe app') as Hmove.
  { intro pts. eexists; split; [reflexivity |]. split; [exact Hst |].
    intros c Hc. injection Hc as <-. split; [exact Hty | discriminate]. }
  destruct (ToolState.activeTool (Editor.tools (editor app)));
    cbn [bind]; try apply Hmove.
  exists app; split; [reflexivity |]. split; [exact Hst |].
  intros c Hc. rewrite Hcur in Hc. injection Hc as <-. rewrite Hsp.
  split; [exact Hty | discriminate].
Qed.

Lemma handleMouseUp_safe (app : App) : safe app -> safe (handleMouseUp app).
Proof.
  intros Hsafe. unfold handleMouseUp.
  destruct (Refs.isDrawing (refs app)); [| exact Hsafe].
  destruct (Refs.currentElement (refs app)) as [current |] eqn:Hcur; [| exact Hsafe].
  destruct Hsafe as [Hst Hpend]. destruct (Hpend current Hcur) as [Hty _].
  split; [| intros c H; discriminate].
  apply safeEditor_handleElementAdd; [exact Hst |].
  intro Htext; contradiction.
Qed.

Lemma safe_initial : safe initialApp.
Proof.
  split; [split; [| split] |].
  - unfold wf_history; cbn; lia.
  - constructor.
  - constructor.
  - intros c H; discriminate.
Qed.

(** One event does not throw in a safe state, and leads to a safe state. *)
Lemma step_safe (measureText : R -> string -> R) (ev : Event) (app : App) :
  safe app -> exists app', step measureText app ev = Ok app' /\ safe app'.
Proof.
  intro Hsafe.
  assert (forall st, safeEditor st -> safe (withEditor app st)) as Hwith.
  { intros st Hst. split; [exact Hst | apply Hsafe]. }
  destruct ev; cbn [step].
  - destruct (ToolState.activeTool (Editor.tools (editor app)));
      try (apply handleMouseDown_safe; exact Hsafe).
    exists app; split; [reflexivity | exact Hsafe].
  - destruct (ToolState.activeTool (Editor.tools (editor app)));
      try (apply handleMouseMove_safe; exact Hsafe).
    destruct (buttons e =? 1)%Z; [| apply handleMouseMove_safe; exact Hsafe].
    exists app; split; [reflexivity | exact Hsafe].
  - eexists; split; [reflexivity | apply handleMouseUp_safe, Hsafe].
  - eexists; split; [reflexivity |]. apply Hwith.
    destruct Hsafe as [(Hwf & Hel & Hh) _]. split; [exact Hwf | split; assumption].
  - destruct (safeEditor_handleUndo (editor app)) as (st & -> & Hst); [apply Hsafe |].
    cbn [bind]. eexists; split; [reflexivity | apply Hwith, Hst].
  - destruct (safeEditor_handleRedo (editor app)) as (st & -> & Hst); [apply Hsafe |].
    cbn [bind]. eexists; split; [reflexivity | apply Hwith, Hst].
  - eexists; split; [reflexivity |]. apply Hwith, safeEditor_handleConfirm, Hsafe.
  - eexists; split; [reflexivity |]. apply Hwith, safeEditor_handleTextCancel, Hsafe.
  - eexists; split; [reflexivity |]. apply Hwith, safeEditor_handleTextChange, Hsafe.
  - eexists; split; [reflexivity |]. apply Hwith, safeEditor_handleTextMove, Hsafe.
Qed.

(** Every sequence of events runs to the end from a safe state, in
    particular from the initial state, and the history it reaches is
    well-formed. *)
Lemma run_total (measureText : R -> string -> R) (evs : list Event) (app : App) :
  safe app -> exists app', run measureText app evs = Ok app' /\ safe app'.
Proof.
  revert app; induction evs as [| ev rest IH]; intros app Hsafe; cbn [run].
  - exists app; split; [reflexivity | exact Hsafe].
  - destruct (step_safe measureText ev app Hsafe) as (app1 & -> & Hsafe1).
    cbn [bind]. apply IH, Hsafe1.
Qed.

(** C6, amended: every sequence of events from the initial state (the
    pointer gestures of every tool, tool changes, undo, redo, confirm,
    cancel, typing and moving a text) runs to the end, and if the clock
    readings from which the pointer-downs make identifiers are strictly
    increasing, the identifiers of the elements of the set are pairwise
    distinct, and so are those of every snapshot of the history. *)
Theorem ids_unique_when_clock_increases (measureText : R -> string -> R)
    (evs : list Event) (T : Z) (Hstamps : increasing_stamps T evs) :
  exists app,
    run measureText initialApp evs = Ok app
    /\ NoDup (map id (Editor.elements (editor app)))
    /\ Forall (fun h => NoDup (map id (HistoryState.elements h)))
         (Editor.history (editor app)).
Proof.
  destruct (run_total measureText evs initialApp safe_initial) as (app & Hrun & _).
  exists app. split; [exact Hrun |].
  destruct (run_ids measureText evs T initialApp app
              (idsInvariant_initial T) Hstamps Hrun) as (T' & [[Hel Hh] _]).
  split; [apply Hel |].
  eapply Forall_impl; [| exact Hh]. intros h Hok; apply Hok.
Qed.

Lemma ids_unique_when_clock_increases_witness :
  increasing_stamps 0 two_strokes_apart
  /\ exists app,
       run measure_10 initialApp two_strokes_apart = Ok app
       /\ NoDup (map id (Editor.elements (editor app))).
Proof.
  assert (increasing_stamps 0 two_strokes_apart) as Hstamps by (cbn; lia).
  split; [exact Hstamps |].
  destruct (ids_unique_when_clock_increases measure_10 two_strokes_apart 0 Hstamps)
    as (app & Hrun & Hnd & _).
  exists app; split; assumption.
Defined.

(** C6, as stated, fails: two strokes started within the same clock reading
    get the same identifier. *)
Lemma ids_not_unique_same_stamp :
  exists app,
    run measure_10 initialApp two_strokes_same_stamp = Ok app
    /\ map id (Editor.elements (editor app)) = ["1700000001000"; "1700000001000"]%string
    /\ ~ NoDup (map id (Editor.elements (editor app))).
Proof.
  eexists. split; [reflexivity |].
  assert (forall s : string, ~ NoDup [s; s]) as Hdup.
  { intros s H. inversion H as [| ? ? Hnotin _]; subst. apply Hnotin; left; reflexivity. }
  split; [reflexivity | apply Hdup].
Qed.

(** ** Confirming an empty text *)

Lemma filter_out_unique_id (i : string) (l : list DrawingElement) :
  NoDup (ids l) ->
  In i (ids l) ->
  S (List.length (filter (fun el => negb (String.eqb (id el) i)) l))
  = List.length l.
Proof.
  induction l as [| el l IH]; cbn [ids map filter List.length]; intros Hnd Hin;
    [contradiction |].
  inversion Hnd as [| ? ? Hnotin Hnd']; subst.
  destruct (String.eqb_spec (id el) i) as [Heq | Hneq]; cbn [negb].
  - f_equal. subst i.
    assert (forall l', ~ In (id el) (ids l') ->
              filter (fun el0 => negb (String.eqb (id el0) (id el))) l' = l') as Hall.
    { induction l' as [| e l' IH']; cbn [filter ids map]; intro Hn; [reflexivity |].
      destruct (String.eqb_spec (id e) (id el)) as [He | He]; cbn [negb].
      - exfalso; apply Hn; left; exact He.
      - f_equal. apply IH'. intro H; apply Hn; right; exact H. }
    rewrite (Hall l Hnotin). reflexivity.
  - cbn [List.length]. f_equal. apply IH; [exact Hnd' |].
    destruct Hin as [Heq | Hin]; [contradiction | exact Hin].
Qed.

Lemma filter_out_id_absent (i : string) (l : list DrawingElement) :
  ~ In i (ids (filter (fun el => negb (String.eqb (id el) i)) l)).
Proof.
  unfold ids. intro Hin. apply in_map_iff in Hin as (el & Hid & Hel).
  apply filter_In in Hel as [_ Hkeep].
  rewrite <- Hid, String.eqb_refl in Hkeep. discriminate.
Qed.

Lemma filter_by_id_lengths (i : string) (l : list DrawingElement) :
  List.length l
  = (List.length (filter (fun el => negb (String.eqb (id el) i)) l)
     + List.length (filter (fun el => String.eqb (id el) i) l))%nat.
Proof.
  induction l as [| el l IH]; cbn [filter List.length]; [reflexivity |].
  destruct (String.eqb (id el) i); cbn [negb List.length]; lia.
Qed.

Lemma filter_by_id_nonempty (el : DrawingElement) (l : list DrawingElement) :
  In el l ->
  (1 <= List.length (filter (fun e => String.eqb (id e) (id el)) l))%nat.
Proof.
  intro Hin.
  assert (In el (filter (fun e => String.eqb (id e) (id el)) l)) as Hkept
    by (apply filter_In; split; [exact Hin | apply String.eqb_refl]).
  destruct (filter (fun e => String.eqb (id e) (id el)) l);
    [destruct Hkept | cbn [List.length]; lia].
Qed.

(** C8, amended: for an element of the set (in particular for the text
    under edit on which the editor is open), confirming a text whose
    trimmed content is empty is the cancel: the set loses every element
    that has the identifier of this element, so at least this one, and
    the identifier is absent from the set afterwards; the other elements
    stay in their order.  The set loses exactly one element when its
    identifiers are distinct.  No checkpoint is taken and the history is
    unchanged: the snapshots that hold the element stay in it. *)
Theorem empty_confirm_discards (st : Editor.t) (canvas : option DOMRect)
    (el : DrawingElement) (text' : string) (format : TextFormat)
    (Hin : In el (Editor.elements st))
    (Hempty : trim text' = EmptyString) :
  let st' := handleConfirm canvas (id el) text' format st in
  st' = Editor.handleTextCancel st (id el)
  /\ Editor.elements st'
     = filter (fun e => negb (String.eqb (id e) (id el))) (Editor.elements st)
  /\ ~ In (id el) (map id (Editor.elements st'))
  /\ List.length (Editor.elements st)
     = (List.length (Editor.elements st')
        + List.length
            (filter (fun e => String.eqb (id e) (id el)) (Editor.elements st)))%nat
  /\ (List.length (Editor.elements st') < List.length (Editor.elements st))%nat
  /\ (NoDup (map id (Editor.elements st)) ->
      List.length (Editor.elements st) = S (List.length (Editor.elements st')))
  /\ Editor.history st' = Editor.history st
  /\ Editor.historyIndex st' = Editor.historyIndex st.
Proof.
  cbn zeta. unfold handleConfirm. rewrite Hempty.
  unfold Editor.handleTextCancel. cbn [Editor.elements Editor.setElements
                                       Editor.history Editor.historyIndex].
  pose proof (filter_by_id_lengths (id el) (Editor.elements st)) as Hlen.
  pose proof (filter_by_id_nonempty el (Editor.elements st) Hin) as Hone.
  split; [reflexivity |]. split; [reflexivity |].
  split; [apply filter_out_id_absent |].
  split; [exact Hlen |]. split; [lia |].
  split; [| split; reflexivity].
  intro Hunique. symmetry. apply filter_out_unique_id; [exact Hunique |].
  apply in_map, Hin.
Qed.

Lemma empty_confirm_discards_witness :
  In editing_text_hi (Editor.elements editor_rectangle_and_draft)
  /\ trim "  " = EmptyString
  /\ Editor.elements
       (handleConfirm (Some canvas_100_50) (id editing_text_hi) "  "
          format_arial_16 editor_rectangle_and_draft)
     = [rectangle_10_10_50_40].
Proof.
  assert (In editing_text_hi (Editor.elements editor_rectangle_and_draft)) as Hin
    by (right; left; reflexivity).
  assert (trim "  " = EmptyString) as Hempty by reflexivity.
  split; [exact Hin | split; [exact Hempty |]].
  destruct (empty_confirm_discards editor_rectangle_and_draft (Some canvas_100_50)
              editing_text_hi "  " format_arial_16 Hin Hempty)
    as (_ & Hels & _).
  rewrite Hels. reflexivity.
Defined.

(** C8, as stated, fails.  A stroke and a press with the text tool within
    the same clock reading give a stroke and a text under edit with the
    same identifier: confirming a blank text in the editor takes the set
    from two elements to none, not to one.  And the text is not gone for
    good: the checkpoint taken when it was created stays in the history,
    so that after a blank confirmation and a stroke, undo puts the text
    back into the set, under edit and with its empty text. *)
Lemma empty_confirm_removes_two_elements :
  (exists app draft,
      run measure_10 initialApp stroke_and_draft_same_stamp = Ok app
      /\ map id (Editor.elements (editor app))
         = ["1700000001000"; "1700000001000"]%string
      /\ map type (Editor.elements (editor app)) = [Draw; Text]
      /\ nth_error (Editor.elements (editor app)) 1 = Some draft
      /\ isTextEditing draft = true
      /\ trim "  " = EmptyString
      /\ Editor.elements
           (handleConfirm (Some canvas_100_50) (id draft) "  " format_arial_16
              (editor app)) = []
      /\ List.length (Editor.elements (editor app))
         <> S (List.length
                 (Editor.elements
                    (handleConfirm (Some canvas_100_50) (id draft) "  "
                       format_arial_16 (editor app)))))
  /\ (exists app draft,
        run measure_10 initialApp blank_draft_then_stroke_then_undo = Ok app
        /\ Editor.elements (editor app) = [draft]
        /\ id draft = "1700000001000"%string
        /\ isTextEditing draft = true
        /\ text draft = Some EmptyString).
Proof.
  split.
  - eexists. eexists. split; [reflexivity |].
    split; [reflexivity |]. split; [reflexivity |]. split; [reflexivity |].
    split; [reflexivity |]. split; [reflexivity |]. split; [reflexivity |].
    cbn. discriminate.
  - eexists. eexists. split; [reflexivity |].
    split; [reflexivity |]. split; [reflexivity |]. split; reflexivity.
Qed.

(** * Further properties *)

(** ** History: how far undo goes *)

Lemma setElements_same (st : Editor.t) :
  Editor.setElements st (Editor.elements st) = st.
Proof. destruct st; reflexivity. Qed.

(** After a run of additions that starts with the cursor on the last
    snapshot, the history has one more snapshot per element, each holding
    the set as it was after that addition. *)
Lemma addAll_spec (es : list DrawingElement) (st : Editor.t) :
  Editor.historyIndex st = (Z.of_nat (List.length (Editor.history st)) - 1)%Z ->
  Editor.elements (addAll st es) = Editor.elements st ++ es
  /\ Editor.history (addAll st es) =
       Editor.history st
       ++ map (fun n => HistoryState.mk (Editor.elements st ++ firstn n es))
            (seq 1 (List.length es))
  /\ Editor.historyIndex (addAll st es) =
       (Z.of_nat (List.length (Editor.history (addAll st es))) - 1)%Z.
Proof.
  revert st; induction es as [| e es IH]; intros st Hidx.
  - cbn [addAll fold_left List.length seq map]. rewrite !app_nil_r. auto.
  - change (addAll st (e :: es)) with (addAll (Editor.handleElementAdd st e) es).
    destruct (pushHistory_spec (Editor.setElements st (Editor.elements st ++ [e]))
                (Editor.elements st ++ [e])) as (Hh & Hi & Hel & _).
    cbn zeta in Hh, Hi, Hel.
    fold (Editor.handleElementAdd st e) in Hh, Hi, Hel.
    cbn [Editor.history Editor.historyIndex Editor.setElements Editor.elements]
      in Hh, Hel.
    replace (Editor.historyIndex st + 1)%Z
      with (Z.of_nat (List.length (Editor.history st))) in Hh by lia.
    rewrite array_slice_all in Hh.
    destruct (IH (Editor.handleElementAdd st e) Hi) as (IHel & IHh & IHi).
    split; [| split].
    + rewrite IHel, Hel, <- app_assoc. reflexivity.
    + rewrite IHh, Hh, Hel, <- app_assoc. f_equal.
      cbn [List.length seq map app firstn]. f_equal.
      rewrite <- (seq_shift (List.length es) 1), map_map. apply map_ext.
      intro n. cbn [firstn]. rewrite <- app_assoc. reflexivity.
    + exact IHi.
Qed.

Lemma history_of_additions (es : list DrawingElement) :
  Editor.history (addAll Editor.initial es) =
    map (fun n => HistoryState.mk (firstn n es)) (seq 1 (List.length es))
  /\ Editor.historyIndex (addAll Editor.initial es) = (Z.of_nat (List.length es) - 1)%Z
  /\ Editor.elements (addAll Editor.initial es) = es.
Proof.
  destruct (addAll_spec es Editor.initial eq_refl) as (Hel & Hh & Hi).
  cbn [Editor.initial Editor.elements Editor.history app] in Hel, Hh.
  split; [exact Hh | split; [| exact Hel]].
  rewrite Hi, Hh, length_map, length_seq. reflexivity.
Qed.

Lemma snapshot_of_additions (es : list DrawingElement) (j : nat) :
  (j < List.length es)%nat ->
  array_get (map (fun n => HistoryState.mk (firstn n es)) (seq 1 (List.length es)))
    (Z.of_nat j) = Some (HistoryState.mk (firstn (S j) es)).
Proof.
  intro Hj. unfold array_get.
  destruct (Z.ltb_spec (Z.of_nat j) 0); [lia |].
  rewrite Nat2Z.id, nth_error_map, nth_error_seq.
  destruct (Nat.ltb_spec j (List.length es)); [reflexivity | lia].
Qed.

(** From the cursor [j] of such a history, [k] undos reach the cursor
    [j - k], or 0 when [k] is larger. *)
Lemma undos_of_additions (es : list DrawingElement) (k j : nat) (st : Editor.t) :
  (j < List.length es)%nat ->
  Editor.history st =
    map (fun n => HistoryState.mk (firstn n es)) (seq 1 (List.length es)) ->
  Editor.historyIndex st = Z.of_nat j ->
  Editor.elements st = firstn (S j) es ->
  exists st',
    moves st (repeat MoveUndo k) = Ok st'
    /\ Editor.history st' = Editor.history st
    /\ Editor.historyIndex st' = Z.of_nat (j - k)
    /\ Editor.elements st' = firstn (S (j - k)) es.
Proof.
  revert j st; induction k as [| k IH]; intros j st Hj Hh Hi Hel.
  - exists st. rewrite Nat.sub_0_r. cbn [repeat moves]. auto.
  - cbn [repeat moves move]. unfold Editor.handleUndo. rewrite Hi.
    destruct j as [| j].
    + cbn [Z.of_nat Z.ltb Z.compare bind].
      destruct (IH 0%nat st Hj Hh Hi Hel) as (st' & Hm & Hh' & Hi' & Hel').
      exists st'. auto.
    + destruct (Z.ltb_spec 0 (Z.of_nat (S j))) as [_ | H]; [| lia].
      replace (Z.of_nat (S j) - 1)%Z with (Z.of_nat j) by lia.
      rewrite Hh, snapshot_of_additions by lia. cbn [bind].
      destruct (IH j (Editor.setElements (Editor.setHistoryIndex st (Z.of_nat j))
                        (firstn (S j) es)) ltac:(lia) Hh eq_refl eq_refl)
        as (st' & Hm & Hh' & Hi' & Hel').
      exists st'. cbn [HistoryState.elements]. rewrite Nat.sub_succ.
      split; [exact Hm | split; [rewrite Hh'; exact Hh | split; assumption]].
Qed.

(** X1: after adding the elements [e :: es] to the initial editor, [k]
    undos lead to the set of the first [length es - k + 1] elements: the
    first snapshot is the set with [e], so from [length es] undos on the set
    is [[e]], undo is disabled and the first addition is never undone. *)
Theorem undo_stops_at_first_addition (e : DrawingElement)
    (es : list DrawingElement) (k : nat) :
  exists st',
    moves (addAll Editor.initial (e :: es)) (repeat MoveUndo k) = Ok st'
    /\ Editor.elements st' = firstn (S (List.length es - k)) (e :: es)
    /\ Editor.historyIndex st' = Z.of_nat (List.length es - k)
    /\ Editor.history st' = Editor.history (addAll Editor.initial (e :: es))
    /\ ((List.length es <= k)%nat ->
        Editor.elements st' = [e] /\ Editor.canUndo st' = false).
Proof.
  destruct (history_of_additions (e :: es)) as (Hh & Hi & Hel).
  destruct (undos_of_additions (e :: es) k (List.length es)
              (addAll Editor.initial (e :: es))) as (st' & Hm & Hh' & Hi' & Hel').
  - cbn [List.length]; lia.
  - exact Hh.
  - rewrite Hi. cbn [List.length]. lia.
  - rewrite Hel. symmetry. apply (firstn_all (e :: es)).
  - exists st'. repeat (split; [assumption |]).
    intro Hk. replace (List.length es - k)%nat with 0%nat in * by lia.
    split; [exact Hel' |].
    unfold Editor.canUndo. rewrite Hi'. reflexivity.
Qed.

(** ** History: edits without checkpoint *)

Lemma applyEdit_setElements (st : Editor.t) (ed : Edit) :
  exists els, applyEdit st ed = Editor.setElements st els.
Proof. destruct ed; eexists; reflexivity. Qed.

Lemma handleUndo_setElements (st : Editor.t) (els : list DrawingElement) :
  (0 < Editor.historyIndex st)%Z ->
  Editor.handleUndo (Editor.setElements st els) = Editor.handleUndo st.
Proof.
  intro Hpos. unfold Editor.handleUndo.
  cbn [Editor.historyIndex Editor.history Editor.setElements].
  destruct (Z.ltb_spec 0 (Editor.historyIndex st)) as [_ | H]; [| lia].
  destruct (array_get (Editor.history st) (Editor.historyIndex st - 1));
    reflexivity.
Qed.

(** X2: with the cursor above 0 on a well-formed history, an edit that
    takes no checkpoint (update, delete, cancel, move, typing) does not
    change what undo gives, and undo followed by redo gives back the state
    of the last checkpoint: the set of the snapshot at the cursor, whatever
    the edit had made of the set. *)
Theorem undo_redo_discards_edit (st : Editor.t) (ed : Edit)
    (snapshot : list DrawingElement)
    (Hwf : wf_history st)
    (Hpos : (0 < Editor.historyIndex st)%Z)
    (Hsnap : array_get (Editor.history st) (Editor.historyIndex st)
             = Some (HistoryState.mk snapshot)) :
  Editor.handleUndo (applyEdit st ed) = Editor.handleUndo st
  /\ exists u,
       Editor.handleUndo (applyEdit st ed) = Ok u
       /\ Editor.handleRedo u = Ok (Editor.setElements st snapshot).
Proof.
  destruct (applyEdit_setElements st ed) as (els & ->).
  rewrite handleUndo_setElements by exact Hpos.
  split; [reflexivity |].
  unfold Editor.handleUndo.
  destruct (Z.ltb_spec 0 (Editor.historyIndex st)) as [_ | H]; [| lia].
  destruct (array_get_in_range (Editor.history st) (Editor.historyIndex st - 1))
    as ([before] & ->); [unfold wf_history in Hwf; lia |].
  eexists; split; [reflexivity |].
  unfold Editor.handleRedo.
  cbn [Editor.historyIndex Editor.history Editor.setElements
       Editor.setHistoryIndex HistoryState.elements].
  destruct (Z.ltb_spec (Editor.historyIndex st - 1)
              (Z.of_nat (List.length (Editor.history st)) - 1)) as [_ | H];
    [| unfold wf_history in Hwf; lia].
  replace (Editor.historyIndex st - 1 + 1)%Z with (Editor.historyIndex st) by lia.
  rewrite Hsnap. destruct st; reflexivity.
Qed.

Lemma editor_two_checkpoints_snapshot :
  array_get (Editor.history editor_two_checkpoints)
    (Editor.historyIndex editor_two_checkpoints)
  = Some (HistoryState.mk [rectangle_10_10_50_40; text_hi_20_30]).
Proof. reflexivity. Defined.

Lemma undo_redo_discards_edit_witness :
  wf_history editor_two_checkpoints
  /\ (0 < Editor.historyIndex editor_two_checkpoints)%Z
  /\ exists u,
       Editor.handleUndo (applyEdit editor_two_checkpoints (EditDelete "2")) = Ok u
       /\ Editor.handleRedo u
          = Ok (Editor.setElements editor_two_checkpoints
                  [rectangle_10_10_50_40; text_hi_20_30]).
Proof.
  assert (0 < Editor.historyIndex editor_two_checkpoints)%Z as Hpos
    by reflexivity.
  split; [exact editor_two_checkpoints_wf | split; [exact Hpos |]].
  apply (undo_redo_discards_edit editor_two_checkpoints (EditDelete "2")
           [rectangle_10_10_50_40; text_hi_20_30]
           editor_two_checkpoints_wf Hpos editor_two_checkpoints_snapshot).
Defined.

(** ** Edits by identifier *)

Lemma map_unless_absent (i : string) (f : DrawingElement -> DrawingElement)
    (l : list DrawingElement) :
  ~ In i (ids l) ->
  map (fun el => if String.eqb (id el) i then f el else el) l = l.
Proof.
  induction l as [| el l IH]; cbn [map ids]; intro H; [reflexivity |].
  destruct (String.eqb_spec (id el) i) as [Heq | _].
  - exfalso; apply H; left; exact Heq.
  - f_equal. apply IH. intro Hin; apply H; right; exact Hin.
Qed.

Lemma filter_unless_absent (i : string) (l : list DrawingElement) :
  ~ In i (ids l) ->
  filter (fun el => negb (String.eqb (id el) i)) l = l.
Proof.
  induction l as [| el l IH]; cbn [filter ids map]; intro H; [reflexivity |].
  destruct (String.eqb_spec (id el) i) as [Heq | _]; cbn [negb].
  - exfalso; apply H; left; exact Heq.
  - f_equal. apply IH. intro Hin; apply H; right; exact Hin.
Qed.

(** X3: when no element of the set has the identifier, update, delete,
    edit, cancel, move and typing for it leave the whole state as it is;
    a confirm for it leaves the set as it is but still takes a checkpoint of
    it. *)
Theorem edits_of_absent_id (st : Editor.t) (i : string)
    (Habsent : ~ In i (map id (Editor.elements st))) :
  (forall ed, editTarget ed = i -> applyEdit st ed = st)
  /\ (forall canvas text' format,
        let st' := Editor.handleTextConfirm st canvas i text' format in
        Editor.elements st' = Editor.elements st
        /\ Editor.history st' =
             array_slice (Editor.history st) (Editor.historyIndex st + 1)
             ++ [HistoryState.mk (Editor.elements st)]
        /\ Editor.historyIndex st' =
             (Z.of_nat (List.length (Editor.history st')) - 1)%Z).
Proof.
  split.
  - intros ed <-.
    destruct ed; cbn [applyEdit editTarget] in *;
      unfold Editor.handleElementUpdate, Editor.handleElementDelete,
        Editor.handleElementEdit, Editor.handleTextCancel,
        Editor.handleTextMove, Editor.handleTextChange;
      rewrite ?filter_unless_absent by exact Habsent;
      try apply setElements_same.
    + rewrite (map_unless_absent id' (fun el => spread el updates)) by exact Habsent.
      apply setElements_same.
    + rewrite (map_unless_absent id'
                 (fun el => spread el
                    (Partial.mk None None None None None None None None None
                       (Some (Some true)) None))) by exact Habsent.
      apply setElements_same.
    + rewrite (map_unless_absent id'
                 (fun el => spread el
                    (Partial.mk None None
                       (Some (map (fun point =>
                                     Point.mk (Point.x point + deltaX)
                                              (Point.y point + deltaY))
                                (points el)))
                       None None None None None None None None))) by exact Habsent.
      apply setElements_same.
    + rewrite (map_unless_absent id'
                 (fun el => spread el
                    (Partial.mk None None None None None (Some (Some text'))
                       None None None None None))) by exact Habsent.
      apply setElements_same.
  - intros canvas text' format.
    assert (map (Editor.confirmElement canvas i text' format) (Editor.elements st)
            = Editor.elements st) as Hsame.
    { clear -Habsent. induction (Editor.elements st) as [| el l IH];
        cbn [map] in *; [reflexivity |].
      unfold Editor.confirmElement at 1.
      destruct (String.eqb_spec (id el) i) as [Heq | _].
      - exfalso; apply Habsent; left; exact Heq.
      - f_equal. apply IH. intro Hin; apply Habsent; right; exact Hin. }
    cbn zeta. unfold Editor.handleTextConfirm. rewrite Hsame.
    destruct (pushHistory_spec (Editor.setElements st (Editor.elements st))
                (Editor.elements st)) as (Hh & Hi & Hel & _).
    cbn zeta in Hh, Hi, Hel. auto.
Qed.

Lemma edits_of_absent_id_witness :
  ~ In "9"%string (map id (Editor.elements editor_two_checkpoints))
  /\ applyEdit editor_two_checkpoints (EditDelete "9") = editor_two_checkpoints.
Proof.
  assert (~ In "9"%string (map id (Editor.elements editor_two_checkpoints)))
    as Habsent.
  { cbn. intros [H | [H | []]]; discriminate H. }
  split; [exact Habsent |].
  apply (proj1 (edits_of_absent_id editor_two_checkpoints "9" Habsent)).
  reflexivity.
Defined.

(** ** Export: the page and the order of the commands *)

Lemma page_at_in_range (doc : PDFDocument) (n : Z) :
  (1 <= n <= Z.of_nat (List.length doc))%Z <->
  exists page, page_at doc (n - 1) = Some page.
Proof.
  unfold page_at. destruct (Z.ltb_spec (n - 1) 0) as [Hneg | Hpos].
  - split; [lia | intros (page & H); discriminate].
  - split.
    + intro H. destruct (nth_error doc (Z.to_nat (n - 1))) as [page |] eqn:Hn.
      * exists page; reflexivity.
      * apply nth_error_None in Hn. lia.
    + intros (page & H).
      assert (nth_error doc (Z.to_nat (n - 1)) <> None) as Hn by congruence.
      apply nth_error_Some in Hn. lia.
Qed.

Lemma paintable_rectangle_and_text :
  Forall (paintable (asciiFont Helvetica)) [rectangle_10_10_50_40; text_hi_20_30].
Proof.
  constructor; [| constructor; [| constructor]].
  - split; [eexists; exact inkOf_ff0000 | discriminate].
  - split; [eexists; exact inkOf_000000 | reflexivity].
Qed.

Lemma drawElements_throws (els : list DrawingElement) (s : R)
    (font bold : PDFFont) (w h : R) (e : JsError) :
  drawElements els s font bold w h = Throw e ->
  exists el, In el els /\ drawElementOnPDF el s font bold w h = Throw e.
Proof.
  induction els as [| el rest IH]; cbn [drawElements]; [discriminate |].
  destruct (drawElementOnPDF el s font bold w h) as [cs | e'] eqn:Hel;
    cbn [bind].
  - destruct (drawElements rest s font bold w h) as [more | e''];
      cbn [bind]; [discriminate |].
    intro H; injection H as ->.
    destruct (IH eq_refl) as (el' & Hin & Hthrow).
    exists el'; split; [right; exact Hin | exact Hthrow].
  - intro H; injection H as ->. exists el; split; [left; reflexivity | exact Hel].
Qed.

(** X4: the export fails with the error of [load] when the document does
    not load, and with [PageNotFound] when the page number is not between 1
    and the number of pages, whatever the elements and the scale.
    Otherwise, at a positive scale, it fails only for an element of the
    set: with the error of [rgb] on its parsed colour, or with
    [CannotEncode] for a text that the font cannot encode; when every
    element has a colour that [rgb] accepts and a text that the font
    encodes, the export returns bytes. *)
Theorem export_failure_causes (Bytes : Type)
    (load : Bytes -> result PDFDocument) (save : PDFDocument -> Bytes)
    (embedFont : StandardFonts -> PDFFont)
    (pdf : Bytes) (elements : list DrawingElement) (pageNumber : Z) (scale : R) :
  match load pdf with
  | Throw e =>
      mergePDFWithAnnotations Bytes load save embedFont pdf elements
        pageNumber scale = Throw e
  | Ok doc =>
      if ((1 <=? pageNumber) && (pageNumber <=? Z.of_nat (List.length doc)))%Z
      then
        0 < scale ->
        (Forall (paintable (embedFont Helvetica)) elements ->
         exists bytes,
           mergePDFWithAnnotations Bytes load save embedFont pdf elements
             pageNumber scale = Ok bytes)
        /\ (forall e,
              mergePDFWithAnnotations Bytes load save embedFont pdf elements
                pageNumber scale = Throw e ->
              exists el,
                In el elements
                /\ (inkOf (color el) = Throw e
                    \/ (e = CannotEncode /\ type el = Text
                        /\ encodes (embedFont Helvetica)
                             (string_value (text el)) = false)))
      else mergePDFWithAnnotations Bytes load save embedFont pdf elements
             pageNumber scale = Throw (PageNotFound pageNumber)
  end.
Proof.
  unfold mergePDFWithAnnotations.
  destruct (load pdf) as [doc | e]; cbn [bind]; [| reflexivity].
  destruct ((1 <=? pageNumber) && (pageNumber <=? Z.of_nat (List.length doc)))%Z
    eqn:Hrange.
  - apply andb_true_iff in Hrange as [H1 H2]. apply Z.leb_le in H1, H2.
    destruct (proj1 (page_at_in_range doc pageNumber) (conj H1 H2)) as (page & ->).
    intros _. split.
    + intro Hpaint.
      destruct (drawElements_paintable elements scale (embedFont Helvetica)
                  (embedFont HelveticaBold) (pageWidth page) (pageHeight page)
                  Hpaint) as (cmds & ->).
      cbn [bind]. eexists; reflexivity.
    + intros e.
      destruct (drawElements elements scale (embedFont Helvetica)
                  (embedFont HelveticaBold) (pageWidth page) (pageHeight page))
        as [cmds | e'] eqn:Hrun; cbn [bind]; [discriminate |].
      intro H; injection H as ->.
      apply drawElements_throws in Hrun as (el & Hin & Hthrow).
      exists el; split; [exact Hin |].
      exact (drawElementOnPDF_throws _ _ _ _ _ _ _ Hthrow).
  - destruct (page_at doc (pageNumber - 1)) as [page |] eqn:Hpage; [| reflexivity].
    assert (1 <= pageNumber <= Z.of_nat (List.length doc))%Z as [H1 H2]
      by (apply page_at_in_range; exists page; exact Hpage).
    apply Z.leb_le in H1, H2. rewrite H1, H2 in Hrange. discriminate.
Qed.

Lemma export_failure_causes_witness :
  0 < 1
  /\ Forall (paintable (asciiFont Helvetica)) [rectangle_10_10_50_40; text_hi_20_30]
  /\ exists bytes,
       mergePDFWithAnnotations PDFDocument (fun d => Ok d) (fun d => d) asciiFont
         blank_document [rectangle_10_10_50_40; text_hi_20_30] 1 1 = Ok bytes.
Proof.
  pose proof paintable_rectangle_and_text as Hpaint.
  assert (0 < 1) as H1 by lra.
  split; [exact H1 |]. split; [exact Hpaint |].
  exact (proj1 (export_failure_causes PDFDocument (fun d => Ok d) (fun d => d)
                  asciiFont blank_document [rectangle_10_10_50_40; text_hi_20_30]
                  1 1 H1) Hpaint).
Defined.

Lemma drawElements_concat (els : list DrawingElement) (s : R)
    (font bold : PDFFont) (w h : R) :
  Forall (paintable font) els ->
  exists css,
    Forall2 (fun el cs => drawElementOnPDF el s font bold w h = Ok cs) els css
    /\ drawElements els s font bold w h = Ok (List.concat css).
Proof.
  induction els as [| el els IH]; intro Hall.
  - exists []; split; [constructor | reflexivity].
  - inversion Hall as [| ? ? Hel Hrest]; subst.
    destruct (IH Hrest) as (css & Hall' & Hrun).
    destruct (drawElementOnPDF_paintable el s font bold w h Hel) as (cs & Hcs).
    exists (cs :: css); split; [constructor; assumption |].
    cbn [drawElements List.concat]. rewrite Hcs; cbn [bind]. rewrite Hrun; reflexivity.
Qed.

Lemma draw_on_page_spec (doc : PDFDocument) (n : nat) (page : PDFPage)
    (cmds : list DrawCommand) :
  nth_error doc n = Some page ->
  List.length (draw_on_page doc n cmds) = List.length doc
  /\ nth_error (draw_on_page doc n cmds) n
     = Some (mkPage (pageWidth page) (pageHeight page) (content page ++ cmds))
  /\ (forall i, i <> n ->
        nth_error (draw_on_page doc n cmds) i = nth_error doc i).
Proof.
  revert n; induction doc as [| p doc IH]; intros n Hn.
  - destruct n; discriminate.
  - destruct n as [| n]; cbn [draw_on_page nth_error List.length] in *.
    + injection Hn as ->. repeat split.
      intros [| i] Hi; [contradiction | reflexivity].
    + destruct (IH n Hn) as (Hlen & Hat & Hother).
      split; [f_equal; exact Hlen | split; [exact Hat |]].
      intros [| i] Hi; [reflexivity |]. cbn [nth_error]. apply Hother. lia.
Qed.

(** X5: on a document that loads and has the page, at a positive scale
    and with elements whose colour [rgb] accepts and whose texts the font
    encodes, the export saves
    the document in which the page has received, after what it held, the
    commands of the elements in the order of the set (a later element is
    drawn over an earlier one), with its size unchanged; the other pages and
    the number of pages are unchanged. *)
Theorem export_appends_in_order (Bytes : Type)
    (load : Bytes -> result PDFDocument) (save : PDFDocument -> Bytes)
    (embedFont : StandardFonts -> PDFFont)
    (pdf : Bytes) (doc : PDFDocument) (page : PDFPage)
    (elements : list DrawingElement) (pageNumber : Z) (scale : R)
    (Hload : load pdf = Ok doc)
    (Hpage : page_at doc (pageNumber - 1) = Some page)
    (Hscale : 0 < scale)
    (Hpaint : Forall (paintable (embedFont Helvetica)) elements) :
  exists css doc',
    Forall2 (fun el cs =>
               drawElementOnPDF el scale (embedFont Helvetica)
                 (embedFont HelveticaBold)
                 (pageWidth page) (pageHeight page) = Ok cs) elements css
    /\ mergePDFWithAnnotations Bytes load save embedFont pdf elements
         pageNumber scale
       = Ok (save doc')
    /\ List.length doc' = List.length doc
    /\ page_at doc' (pageNumber - 1)
       = Some (mkPage (pageWidth page) (pageHeight page)
                 (content page ++ List.concat css))
    /\ (forall n, n <> pageNumber -> page_at doc' (n - 1) = page_at doc (n - 1)).
Proof.
  destruct (drawElements_concat elements scale (embedFont Helvetica)
              (embedFont HelveticaBold)
              (pageWidth page) (pageHeight page) Hpaint) as (css & Hall & Hrun).
  exists css, (draw_on_page doc (Z.to_nat (pageNumber - 1)) (List.concat css)).
  assert (0 <= pageNumber - 1)%Z as Hpos.
  { unfold page_at in Hpage. destruct (Z.ltb_spec (pageNumber - 1) 0);
      [discriminate | assumption]. }
  assert (nth_error doc (Z.to_nat (pageNumber - 1)) = Some page) as Hnth.
  { unfold page_at in Hpage. destruct (Z.ltb_spec (pageNumber - 1) 0);
      [lia | exact Hpage]. }
  destruct (draw_on_page_spec doc (Z.to_nat (pageNumber - 1)) page (List.concat css) Hnth)
    as (Hlen & Hat & Hother).
  split; [exact Hall |]. split.
  { unfold mergePDFWithAnnotations. rewrite Hload; cbn [bind].
    rewrite Hpage, Hrun. reflexivity. }
  split; [exact Hlen |]. split.
  { unfold page_at. destruct (Z.ltb_spec (pageNumber - 1) 0); [lia | exact Hat]. }
  intros n Hn. unfold page_at.
  destruct (Z.ltb_spec (n - 1) 0); [reflexivity |].
  apply Hother. lia.
Qed.

Lemma export_appends_in_order_witness :
  0 < 1
  /\ Forall (paintable (asciiFont Helvetica)) [rectangle_10_10_50_40; text_hi_20_30]
  /\ exists css doc',
    Forall2 (fun el cs =>
               drawElementOnPDF el 1 (asciiFont Helvetica)
                 (asciiFont HelveticaBold) 100 200 = Ok cs)
      [rectangle_10_10_50_40; text_hi_20_30] css
    /\ mergePDFWithAnnotations PDFDocument (fun d => Ok d) (fun d => d) asciiFont
         blank_document [rectangle_10_10_50_40; text_hi_20_30] 1 1 = Ok doc'
    /\ List.length doc' = 1%nat.
Proof.
  pose proof paintable_rectangle_and_text as Hpaint.
  assert (0 < 1) as H1 by lra.
  split; [exact H1 |]. split; [exact Hpaint |].
  destruct (export_appends_in_order PDFDocument (fun d => Ok d) (fun d => d)
              asciiFont blank_document blank_document (mkPage 100 200 [])
              [rectangle_10_10_50_40; text_hi_20_30] 1 1 eq_refl eq_refl H1
              Hpaint)
    as (css & doc' & Hall & Hrun & Hlen & _).
  exists css, doc'. split; [exact Hall | split; [exact Hrun | exact Hlen]].
Defined.

(** ** Export: rectangles and highlights *)

(** X6: a rectangle or a highlight is drawn the same whichever of its two
    corners the drag started from. *)
Theorem box_ignores_drag_direction (el1 el2 : DrawingElement) (s h w : R)
    (font bold : PDFFont) (p q : Point) (mid mid' : list Point)
    (Hkind : type el1 = Rectangle \/ type el1 = Highlight)
    (Htype : type el2 = type el1)
    (Hcolor : color el2 = color el1)
    (Hwidth : strokeWidth el2 = strokeWidth el1)
    (Hpts1 : points el1 = p :: mid ++ [q])
    (Hpts2 : points el2 = q :: mid' ++ [p]) :
  drawElementOnPDF el1 s font bold w h = drawElementOnPDF el2 s font bold w h.
Proof.
  unfold drawElementOnPDF.
  rewrite Htype, Hcolor, Hwidth, Hpts1, Hpts2, !two_points_guard, !last_point_app.
  cbn [at_index nth_error bind convertCoords Point.x Point.y].
  rewrite (Rmin_comm (Point.x p / s)), (Rmin_comm (h - Point.y p / s)).
  rewrite (Rabs_minus_sym (Point.x q / s)), (Rabs_minus_sym (h - Point.y q / s)).
  destruct Hkind as [-> | ->]; reflexivity.
Qed.

Lemma box_ignores_drag_direction_witness :
  drawElementOnPDF rectangle_10_10_50_40 1 (asciiFont Helvetica)
    (asciiFont HelveticaBold) 100 200
  = drawElementOnPDF rectangle_50_40_10_10 1 (asciiFont Helvetica)
      (asciiFont HelveticaBold) 100 200.
Proof.
  apply (box_ignores_drag_direction rectangle_10_10_50_40 rectangle_50_40_10_10
           1 200 100 (asciiFont Helvetica) (asciiFont HelveticaBold)
           (Point.mk 10 10) (Point.mk 50 40)
           [] []); try reflexivity.
  left; reflexivity.
Defined.

(** X7: for a scale [s > 0] and a colour that [rgb] accepts, a highlight is
    a filled rectangle of that colour, of opacity 0.3 and without border,
    at the corner [(minX / s, h - maxY / s)], of width [|dx| / s] and of
    height [|dy| / s]; when its two points are on one horizontal line the
    height is [20 / s] instead of 0. *)
Theorem highlight_box (el : DrawingElement) (s h w : R) (font bold : PDFFont)
    (p q : Point) (mid : list Point) (ink : Color)
    (Hs : 0 < s)
    (Hty : type el = Highlight)
    (Hpts : points el = p :: mid ++ [q])
    (Hink : inkOf (color el) = Ok ink) :
  exists opts,
    drawElementOnPDF el s font bold w h = Ok [drawRectangle opts]
    /\ RectangleOptions.x opts = Rmin (Point.x p) (Point.x q) / s
    /\ RectangleOptions.y opts = h - Rmax (Point.y p) (Point.y q) / s
    /\ RectangleOptions.width opts = Rabs (Point.x q - Point.x p) / s
    /\ (Point.y q = Point.y p -> RectangleOptions.height opts = 20 / s)
    /\ (Point.y q <> Point.y p ->
        RectangleOptions.height opts = Rabs (Point.y q - Point.y p) / s)
    /\ RectangleOptions.opacity opts = Some (3 / 10)
    /\ RectangleOptions.color opts = Some ink
    /\ RectangleOptions.borderColor opts = None
    /\ RectangleOptions.borderWidth opts = None
    /\ RectangleOptions.rotate opts = None.
Proof.
  unfold inkOf in Hink. cbv zeta in Hink.
  unfold drawElementOnPDF. rewrite Hty, Hpts, two_points_guard, last_point_app.
  cbn [at_index nth_error bind convertCoords Point.x Point.y].
  rewrite Hink. cbn [bind].
  rewrite Rmin_div, Rmin_flip_div, Rabs_div_diff, Rabs_flip_div_diff by assumption.
  eexists; split; [reflexivity |].
  cbn [RectangleOptions.x RectangleOptions.y RectangleOptions.width
       RectangleOptions.height RectangleOptions.opacity RectangleOptions.color
       RectangleOptions.borderColor RectangleOptions.borderWidth
       RectangleOptions.rotate].
  repeat (split; [reflexivity |]).
  split; [| split; [| repeat split]].
  - intro Heq. rewrite Heq, Rminus_diag, Rabs_R0.
    unfold Rdiv at 1. rewrite Rmult_0_l. unfold num_or.
    destruct (Req_dec_T 0 0) as [_ | H]; [reflexivity | contradiction].
  - intro Hneq. apply num_or_nonzero.
    assert (0 < Rabs (Point.y q - Point.y p)) as Habs
      by (apply Rabs_pos_lt; lra).
    pose proof (Rinv_0_lt_compat s Hs) as Hinv.
    unfold Rdiv. apply Rgt_not_eq. apply Rmult_lt_0_compat; assumption.
Qed.

Lemma highlight_box_witness :
  0 < 2
  /\ inkOf (color highlight_flat) = Ok (RGB (255 / 255) (255 / 255) (0 / 255))
  /\ exists opts,
       drawElementOnPDF highlight_flat 2 (asciiFont Helvetica)
         (asciiFont HelveticaBold) 100 200
       = Ok [drawRectangle opts]
       /\ RectangleOptions.height opts = 20 / 2
       /\ RectangleOptions.color opts
          = Some (RGB (255 / 255) (255 / 255) (0 / 255)).
Proof.
  assert (0 < 2) as H2 by lra.
  pose proof inkOf_ffff00 as Hink.
  split; [exact H2 |]. split; [exact Hink |].
  destruct (highlight_box highlight_flat 2 200 100 (asciiFont Helvetica)
              (asciiFont HelveticaBold)
              (Point.mk 10 30) (Point.mk 90 30) [] _ H2 eq_refl eq_refl Hink)
    as (opts & Hrun & _ & _ & _ & Hflat & _ & _ & Hcolor & _).
  exists opts. split; [exact Hrun |].
  split; [apply Hflat; reflexivity | exact Hcolor].
Defined.

(** ** Export: freehand paths and arrows *)

Lemma nth_error_at_index {A : Type} (arr : list A) (i : nat) (a : A) :
  nth_error arr i = Some a -> at_index arr i = Ok a.
Proof. intro H. unfold at_index. rewrite H. reflexivity. Qed.

Lemma same_point_true (p q : Point) : same_point p q = true <-> p = q.
Proof.
  unfold same_point. destruct p as [px py], q as [qx qy]. cbn [Point.x Point.y].
  destruct (Req_dec_T px qx) as [-> | Hx].
  - destruct (Req_dec_T py qy) as [-> | Hy].
    + split; reflexivity.
    + split; [discriminate | intro H; injection H as H; contradiction].
  - split; [discriminate | intro H; injection H as H _; contradiction].
Qed.

Lemma sqrt_sum_squares_pos (u v : R) :
  0 < sqrt (u * u + v * v) <-> ~ (u = 0 /\ v = 0).
Proof.
  split.
  - intros Hpos [-> ->]. rewrite Rmult_0_l, Rplus_0_l, sqrt_0 in Hpos. lra.
  - intro Hne. apply sqrt_lt_R0.
    destruct (Req_dec_T u 0) as [Hu | Hu].
    + destruct (Req_dec_T v 0) as [Hv | Hv]; [exfalso; auto | nra].
    + nra.
Qed.

Lemma atan2_scale (s a c : R) : 0 < s -> atan2 (a / s) (c / s) = atan2 a c.
Proof.
  intro Hs. pose proof (Rinv_0_lt_compat s Hs) as Hinv.
  assert (forall u, 0 < u / s <-> 0 < u) as Hpos.
  { intro u. unfold Rdiv. split; intro H; [| nra].
    destruct (Rlt_dec 0 u) as [| Hn]; [assumption |].
    assert (u <= 0) by lra. nra. }
  assert (forall u, u / s < 0 <-> u < 0) as Hneg.
  { intro u. unfold Rdiv. split; intro H; [| nra].
    destruct (Rlt_dec u 0) as [| Hn]; [assumption |].
    assert (0 <= u) by lra. nra. }
  assert (forall u, 0 <= u / s <-> 0 <= u) as Hnn.
  { intro u. unfold Rdiv. split; intro H; [| nra].
    destruct (Rle_dec 0 u) as [| Hn]; [assumption |].
    assert (u < 0) by lra. nra. }
  assert (a / s / (c / s) = a / c \/ c = 0) as Hratio.
  { destruct (Req_dec_T c 0) as [Hc | Hc]; [right; exact Hc | left].
    field. split; lra. }
  unfold atan2.
  destruct (Rlt_dec 0 (c / s)) as [H1 | H1], (Rlt_dec 0 c) as [H1' | H1'];
    try (rewrite Hpos in H1; contradiction).
  - destruct Hratio as [-> | ->]; [reflexivity | lra].
  - destruct (Rlt_dec (c / s) 0) as [H2 | H2], (Rlt_dec c 0) as [H2' | H2'];
      try (rewrite Hneg in H2; contradiction).
    + destruct Hratio as [-> | Hc]; [| lra].
      destruct (Rle_dec 0 (a / s)) as [H3 | H3], (Rle_dec 0 a) as [H3' | H3'];
        try (rewrite Hnn in H3; contradiction); reflexivity.
    + destruct (Rlt_dec 0 (a / s)) as [H3 | H3], (Rlt_dec 0 a) as [H3' | H3'];
        try (rewrite Hpos in H3; contradiction); try reflexivity.
      destruct (Rlt_dec (a / s) 0) as [H4 | H4], (Rlt_dec a 0) as [H4' | H4'];
        try (rewrite Hneg in H4; contradiction); reflexivity.
Qed.

Lemma segmentCommands_spec (s h sw : R) (ink : Color) (p q : Point) :
  0 < s ->
  segmentCommands s h sw ink p q =
    if same_point p q then []
    else [drawRectangle (segmentBox s h sw ink p q)].
Proof.
  intro Hs. unfold segmentCommands, segmentBox, lineRectangle, convertCoords, distance.
  cbn [Point.x Point.y].
  replace (Point.x q / s - Point.x p / s) with ((Point.x q - Point.x p) / s)
    by (field; lra).
  replace (h - Point.y q / s - (h - Point.y p / s))
    with ((Point.y p - Point.y q) / s) by (field; lra).
  rewrite (atan2_scale s _ _ Hs).
  set (u := Point.x q - Point.x p). set (v := Point.y p - Point.y q).
  replace (u / s * (u / s) + v / s * (v / s)) with ((u / s) ^ 2 + (v / s) ^ 2)
    by ring.
  rewrite (sqrt_sum_squares_div s Hs).
  replace ((Point.y q - Point.y p) ^ 2) with (v ^ 2) by (unfold v; ring).
  assert (0 < sqrt (u ^ 2 + v ^ 2) / s <-> same_point p q = false) as Hpos.
  { replace (u ^ 2 + v ^ 2) with (u * u + v * v) by ring.
    split.
    - intro H. destruct (same_point p q) eqn:Hsame; [| reflexivity].
      apply same_point_true in Hsame. subst q. unfold u, v in H.
      rewrite !Rminus_diag, Rmult_0_l, Rplus_0_l, sqrt_0 in H.
      unfold Rdiv in H. rewrite Rmult_0_l in H. lra.
    - intro Hsame.
      assert (0 < sqrt (u * u + v * v)) as Hlen.
      { apply sqrt_sum_squares_pos. intros [Hu Hv].
        assert (p = q) as Heq.
        { destruct p as [px py], q as [qx qy]. unfold u, v in Hu, Hv.
          cbn [Point.x Point.y] in Hu, Hv. f_equal; lra. }
        apply same_point_true in Heq. congruence. }
      apply Rdiv_lt_0_compat; assumption. }
  destruct (Rlt_dec 0 (sqrt (u ^ 2 + v ^ 2) / s)) as [Hlt | Hnlt].
  - rewrite (proj1 Hpos Hlt). reflexivity.
  - destruct (same_point p q); [reflexivity |].
    exfalso. apply Hnlt, Hpos. reflexivity.
Qed.

Lemma moving_pairs_length (pts : list Point) :
  (List.length (moving_pairs pts) <= List.length pts - 1)%nat.
Proof.
  induction pts as [| p rest IH]; [cbn; lia |].
  destruct rest as [| q rest]; [cbn; lia |].
  change (moving_pairs (p :: q :: rest))
    with (if same_point p q then moving_pairs (q :: rest)
          else (p, q) :: moving_pairs (q :: rest)).
  cbn [List.length] in *. destruct (same_point p q); cbn [List.length]; lia.
Qed.

(** The test [length > 0] of a segment, on the page, is the test that its
    two canvas points differ. *)
Lemma segment_guard (s h : R) (p q : Point) :
  0 < s ->
  let start := convertCoords s h (Point.x p) (Point.y p) in
  let end_ := convertCoords s h (Point.x q) (Point.y q) in
  let dx := Point.x end_ - Point.x start in
  let dy := Point.y end_ - Point.y start in
  (if Rlt_dec 0 (sqrt (dx * dx + dy * dy)) then false else true)
  = same_point p q.
Proof.
  intro Hs.
  pose proof (segmentCommands_spec s h 0 (RGB 0 0 0) p q Hs) as Hseg.
  unfold segmentCommands in Hseg. cbv zeta in *.
  match goal with
  | |- context [Rlt_dec ?a ?c] => destruct (Rlt_dec a c)
  end; destruct (same_point p q); try reflexivity; discriminate.
Qed.

(** A loop over the consecutive pairs of a path whose body does nothing for
    two equal points, and otherwise evaluates [res] and issues one command:
    [res] is evaluated only when some pair moves. *)
Lemma for_loop_moving_pairs {T C : Type} (res : result T)
    (g : T -> Point -> Point -> C) (pts : list Point)
    (body : nat -> result (list C)) :
  (forall i p q,
      nth_error pts i = Some p -> nth_error pts (S i) = Some q ->
      body i = if same_point p q then Ok []
               else let* t := res in Ok [g t p q]) ->
  for_loop 0 (List.length pts - 1) body =
    match moving_pairs pts with
    | [] => Ok []
    | _ :: _ =>
        let* t := res in
        Ok (map (fun pq => g t (fst pq) (snd pq)) (moving_pairs pts))
    end.
Proof.
  intro Hbody.
  assert (forall l pre,
             pts = pre ++ l ->
             for_loop (List.length pre) (List.length l - 1) body
             = match moving_pairs l with
               | [] => Ok []
               | _ :: _ =>
                   let* t := res in
                   Ok (map (fun pq => g t (fst pq) (snd pq)) (moving_pairs l))
               end) as Hgen.
  { induction l as [| p l IH]; intros pre Hpts; [reflexivity |].
    destruct l as [| q rest]; [reflexivity |].
    replace (List.length (p :: q :: rest) - 1)%nat
      with (S (List.length (q :: rest) - 1)) by (cbn [List.length]; lia).
    change (moving_pairs (p :: q :: rest))
      with (if same_point p q then moving_pairs (q :: rest)
            else (p, q) :: moving_pairs (q :: rest)).
    cbn [for_loop].
    rewrite (Hbody (List.length pre) p q).
    - specialize (IH (pre ++ [p])).
      rewrite length_app in IH. change (List.length [p]) with 1%nat in IH.
      rewrite Nat.add_1_r in IH. rewrite IH
        by (rewrite Hpts, <- app_assoc; reflexivity).
      destruct (same_point p q); cbn [bind].
      + destruct (moving_pairs (q :: rest)); cbn [bind]; [reflexivity |].
        destruct res; reflexivity.
      + destruct res as [t | e]; cbn [bind]; [| reflexivity].
        destruct (moving_pairs (q :: rest)); reflexivity.
    - rewrite Hpts, nth_error_app2, Nat.sub_diag by reflexivity. reflexivity.
    - rewrite Hpts. change (pre ++ p :: q :: rest) with (pre ++ [p] ++ q :: rest).
      rewrite app_assoc, nth_error_app2
        by (rewrite length_app; cbn [List.length]; lia).
      rewrite length_app. cbn [List.length].
      replace (S (List.length pre) - (List.length pre + 1))%nat with 0%nat by lia.
      reflexivity. }
  apply (Hgen pts []). reflexivity.
Qed.

(** The draw case: nothing when no two consecutive points differ; otherwise
    [rgb] is called, and one rectangle is issued for each pair that moves,
    in order. *)
Lemma drawElementOnPDF_draw (el : DrawingElement) (s h w : R)
    (font bold : PDFFont) :
  0 < s ->
  type el = Draw ->
  drawElementOnPDF el s font bold w h =
    match moving_pairs (points el) with
    | [] => Ok []
    | _ :: _ =>
        let* ink := inkOf (color el) in
        Ok (map (fun pq =>
                   drawRectangle
                     (segmentBox s h (strokeWidth el) ink (fst pq) (snd pq)))
              (moving_pairs (points el)))
    end.
Proof.
  intros Hs Hty. unfold drawElementOnPDF. rewrite Hty.
  destruct (1 <? List.length (points el))%nat eqn:Hlen.
  - apply (for_loop_moving_pairs (inkOf (color el))
             (fun ink p q => drawRectangle (segmentBox s h (strokeWidth el) ink p q))).
    intros i p q Hp Hq.
    rewrite (nth_error_at_index _ _ _ Hp).
    rewrite Nat.add_1_r, (nth_error_at_index _ _ _ Hq). cbn [bind].
    pose proof (segment_guard s h p q Hs) as Hguard. cbv zeta in Hguard.
    match goal with |- context [Rlt_dec ?a ?c] => destruct (Rlt_dec a c) end;
      rewrite <- Hguard; [| reflexivity].
    unfold inkOf.
    destruct (rgb (r (parseColor (color el))) (g (parseColor (color el)))
                (b (parseColor (color el)))) as [ink | e]; cbn [bind];
      [| reflexivity].
    pose proof (segmentCommands_spec s h (strokeWidth el) ink p q Hs) as Hseg.
    unfold segmentCommands in Hseg. cbv zeta in Hseg.
    rewrite <- Hguard in Hseg.
    match type of Hseg with
    | context [Rlt_dec ?a ?c] => destruct (Rlt_dec a c); [| contradiction]
    end.
    rewrite Hseg. reflexivity.
  - apply Nat.ltb_ge in Hlen.
    destruct (points el) as [| p [| q rest]]; cbn [List.length] in Hlen;
      [reflexivity | reflexivity | lia].
Qed.

(** X8: A freehand stroke whose colour [rgb] accepts is exported as one
    rectangle for each pair of consecutive points that differ, in the order
    of the path: the rectangle starts at the first point of the pair in page
    coordinates, is as long as the segment divided by the zoom, as high as
    the stroke width divided by the zoom, and turned to the direction of the
    segment.  A pair of equal points is drawn by nothing, so a path of [n]
    points gives at most [n - 1] rectangles and a path of one point none.
    A path on which no two consecutive points differ is exported as nothing
    whatever its colour; on any other path the error of [rgb] on the colour
    is the error of the export. *)
Theorem freehand_stroke_segments (el : DrawingElement) (s h w : R)
    (font bold : PDFFont)
    (Hs : 0 < s)
    (Hty : type el = Draw) :
  (forall ink,
      inkOf (color el) = Ok ink ->
      drawElementOnPDF el s font bold w h =
        Ok (map (fun pq =>
                   drawRectangle
                     (segmentBox s h (strokeWidth el) ink (fst pq) (snd pq)))
              (moving_pairs (points el))))
  /\ (moving_pairs (points el) = [] ->
      drawElementOnPDF el s font bold w h = Ok [])
  /\ (forall e,
        inkOf (color el) = Throw e ->
        moving_pairs (points el) <> [] ->
        drawElementOnPDF el s font bold w h = Throw e)
  /\ (List.length (moving_pairs (points el)) <= List.length (points el) - 1)%nat.
Proof.
  rewrite (drawElementOnPDF_draw el s h w font bold Hs Hty).
  split; [| split; [| split]].
  - intros ink ->. destruct (moving_pairs (points el)); reflexivity.
  - intros ->. reflexivity.
  - intros e -> Hne. destruct (moving_pairs (points el)); [contradiction |].
    reflexivity.
  - apply moving_pairs_length.
Qed.

Lemma freehand_stroke_segments_witness :
  0 < 2
  /\ inkOf (color stroke_with_pause) = Ok (RGB (255 / 255) (0 / 255) (0 / 255))
  /\ drawElementOnPDF stroke_with_pause 2 (asciiFont Helvetica)
       (asciiFont HelveticaBold) 600 800 =
     Ok (map (fun pq =>
                drawRectangle
                  (segmentBox 2 800 (strokeWidth stroke_with_pause)
                     (RGB (255 / 255) (0 / 255) (0 / 255))
                     (fst pq) (snd pq)))
           (moving_pairs (points stroke_with_pause))).
Proof.
  assert (0 < 2) as H2 by lra.
  split; [exact H2 |]. split; [exact inkOf_ff0000 |].
  apply (proj1 (freehand_stroke_segments stroke_with_pause 2 800 600
                  (asciiFont Helvetica) (asciiFont HelveticaBold) H2 eq_refl)).
  exact inkOf_ff0000.
Defined.

Lemma drawRectangle_singleton_inj (a c : RectangleOptions.t) :
  [drawRectangle a] = [drawRectangle c] -> a = c.
Proof. intro H. injection H as H. exact H. Qed.

Lemma head_length (hl a ex ey : R) :
  0 <= hl ->
  sqrt ((ex - (ex - hl * cos a)) ^ 2 + (ey - (ey - hl * sin a)) ^ 2) = hl.
Proof.
  intro Hhl.
  replace ((ex - (ex - hl * cos a)) ^ 2 + (ey - (ey - hl * sin a)) ^ 2)
    with (hl ^ 2 * (Rsqr (sin a) + Rsqr (cos a))) by (unfold Rsqr; ring).
  rewrite sin2_cos2, Rmult_1_r. apply sqrt_pow2. exact Hhl.
Qed.

(** X9: An arrow whose first and last point differ and whose colour [rgb]
    accepts is exported as exactly three rectangles of that colour: the
    shaft, which is the segment from the first to the last point, and two
    strokes of the head that both start at the tip in page coordinates and
    are 15 canvas pixels long (15 divided by the zoom on the page) and as
    high as the stroke width divided by the zoom; when [rgb] throws, so does
    the export.  An arrow whose first and last point are equal is exported
    as nothing, whatever its colour. *)
Theorem arrow_commands (el : DrawingElement) (s h w : R) (font bold : PDFFont)
    (p q : Point) (mid : list Point)
    (Hs : 0 < s)
    (Hty : type el = Arrow)
    (Hpts : points el = p :: mid ++ [q]) :
  (p = q -> drawElementOnPDF el s font bold w h = Ok [])
  /\ (p <> q ->
      forall ink, inkOf (color el) = Ok ink ->
      exists left right,
        drawElementOnPDF el s font bold w h =
          Ok [drawRectangle (segmentBox s h (strokeWidth el) ink p q);
              drawRectangle left; drawRectangle right]
        /\ Forall (fun head =>
                     RectangleOptions.x head = Point.x q / s
                     /\ RectangleOptions.y head = h - Point.y q / s
                     /\ RectangleOptions.width head = 15 / s
                     /\ RectangleOptions.height head = strokeWidth el / s
                     /\ RectangleOptions.color head = Some ink
                     /\ RectangleOptions.borderColor head = None
                     /\ RectangleOptions.opacity head = None)
             [left; right])
  /\ (p <> q ->
      forall e, inkOf (color el) = Throw e ->
      drawElementOnPDF el s font bold w h = Throw e).
Proof.
  pose proof (segment_guard s h p q Hs) as Hguard. cbv zeta in Hguard.
  unfold drawElementOnPDF. rewrite Hty, Hpts, two_points_guard, last_point_app.
  cbn [at_index nth_error bind].
  match goal with
  | |- context [Rlt_dec ?a ?c] => destruct (Rlt_dec a c) as [Hlen | Hlen]
  end.
  - assert (p <> q) as Hpq.
    { intro Heq. apply same_point_true in Heq. rewrite Heq in Hguard.
      discriminate. }
    split; [intro Heq; contradiction |]. split.
    + intros _ ink Hink. unfold inkOf in Hink. cbv zeta in Hink.
      rewrite Hink. cbn [bind].
      pose proof (segmentCommands_spec s h (strokeWidth el) ink p q Hs) as Hseg.
      unfold segmentCommands in Hseg. cbv zeta in Hseg.
      rewrite <- Hguard in Hseg.
      match type of Hseg with
      | context [Rlt_dec ?a ?c] => destruct (Rlt_dec a c); [| contradiction]
      end.
      apply drawRectangle_singleton_inj in Hseg. rewrite Hseg.
      eexists; eexists; split; [reflexivity |].
      assert (0 <= 15 / s) as Hhl by (apply Rlt_le, Rdiv_lt_0_compat; lra).
      repeat constructor;
        cbn [RectangleOptions.width convertCoords Point.x Point.y];
        apply head_length; exact Hhl.
    + intros _ e Hink. unfold inkOf in Hink. cbv zeta in Hink.
      rewrite Hink. reflexivity.
  - assert (p = q) as Hpq by (apply same_point_true; symmetry; exact Hguard).
    split; [reflexivity |].
    split; intro Hne; contradiction.
Qed.

Lemma arrow_commands_witness :
  0 < 2
  /\ inkOf (color arrow_0_0_30_40) = Ok (RGB (255 / 255) (0 / 255) (0 / 255))
  /\ exists left right,
    drawElementOnPDF arrow_0_0_30_40 2 (asciiFont Helvetica)
      (asciiFont HelveticaBold) 600 800 =
      Ok [drawRectangle
            (segmentBox 2 800 (strokeWidth arrow_0_0_30_40)
               (RGB (255 / 255) (0 / 255) (0 / 255))
               (Point.mk 0 0) (Point.mk 30 40));
          drawRectangle left; drawRectangle right]
    /\ RectangleOptions.width left = 15 / 2
    /\ RectangleOptions.width right = 15 / 2.
Proof.
  assert (0 < 2) as H2 by lra.
  split; [exact H2 |]. split; [exact inkOf_ff0000 |].
  destruct (arrow_commands arrow_0_0_30_40 2 800 600 (asciiFont Helvetica)
              (asciiFont HelveticaBold)
              (Point.mk 0 0) (Point.mk 30 40) [] H2 eq_refl eq_refl)
    as (_ & Hdraw & _).
  destruct (Hdraw ltac:(intro H; injection H as H _; lra) _ inkOf_ff0000)
    as (left & right & Heq & Hheads).
  exists left, right. split; [exact Heq |].
  inversion Hheads as [| ? ? Hl Hrest]; subst.
  inversion Hrest as [| ? ? Hr _]; subst.
  split; [apply Hl | apply Hr].
Defined.

(** ** The component: zoom, pages, upload and download *)

Section ComponentFacts.

Variable Bytes : Type.
Variable load : Bytes -> result PDFDocument.
Variable save : PDFDocument -> Bytes.

Lemma quarterScale_range (s : R) : quarterScale s -> 1 / 4 <= s <= 3.
Proof.
  intros (k & [Hlo Hhi] & ->).
  apply IZR_le in Hlo, Hhi. lra.
Qed.

Lemma quarterScale_zoom_in (s : R) :
  quarterScale s -> quarterScale (Rmin (s + 25 / 100) 3).
Proof.
  intros (k & [Hlo Hhi] & ->).
  destruct (Z.eq_dec k 12) as [-> | Hne].
  - exists 12%Z. split; [lia |]. rewrite Rmin_right; lra.
  - exists (k + 1)%Z. split; [lia |].
    assert (k + 1 <= 12)%Z as Hk by lia.
    apply IZR_le in Hk. rewrite plus_IZR in *.
    rewrite Rmin_left; lra.
Qed.

Lemma quarterScale_zoom_out (s : R) :
  quarterScale s -> quarterScale (Rmax (s - 25 / 100) (25 / 100)).
Proof.
  intros (k & [Hlo Hhi] & ->).
  destruct (Z.eq_dec k 1) as [-> | Hne].
  - exists 1%Z. split; [lia |]. rewrite Rmax_right; lra.
  - exists (k - 1)%Z. split; [lia |].
    assert (1 <= k - 1)%Z as Hk by lia.
    apply IZR_le in Hk. rewrite minus_IZR in *.
    rewrite Rmax_left; lra.
Qed.

Lemma viewStep_frame (c : Component.t Bytes) (ev : ViewEvent) :
  Component.pdfFile (viewStep Bytes c ev) = Component.pdfFile c
  /\ Component.totalPages (viewStep Bytes c ev) = Component.totalPages c
  /\ Editor.elements (Component.editor (viewStep Bytes c ev))
     = Editor.elements (Component.editor c)
  /\ Editor.history (Component.editor (viewStep Bytes c ev))
     = Editor.history (Component.editor c)
  /\ Editor.historyIndex (Component.editor (viewStep Bytes c ev))
     = Editor.historyIndex (Component.editor c)
  /\ Editor.tools (Component.editor (viewStep Bytes c ev))
     = Editor.tools (Component.editor c).
Proof.
  destruct ev; cbn [viewStep].
  - unfold handlePreviousPage.
    destruct (Component.currentPage c <=? 1)%Z,  (1 <? Component.currentPage c)%Z;
      repeat split; reflexivity.
  - unfold handleNextPage.
    destruct (Component.totalPages c <=? Component.currentPage c)%Z,
      (Component.currentPage c <? Component.totalPages c)%Z;
      repeat split; reflexivity.
  - repeat split; reflexivity.
  - repeat split; reflexivity.
Qed.

Lemma viewStep_scale (c : Component.t Bytes) (ev : ViewEvent) :
  quarterScale (Editor.scale (Component.editor c)) ->
  quarterScale (Editor.scale (Component.editor (viewStep Bytes c ev))).
Proof.
  intro H. destruct ev; cbn [viewStep].
  - unfold handlePreviousPage.
    destruct (Component.currentPage c <=? 1)%Z,  (1 <? Component.currentPage c)%Z;
      exact H.
  - unfold handleNextPage.
    destruct (Component.totalPages c <=? Component.currentPage c)%Z,
      (Component.currentPage c <? Component.totalPages c)%Z; exact H.
  - apply quarterScale_zoom_in, H.
  - apply quarterScale_zoom_out, H.
Qed.

Lemma viewStep_page (c : Component.t Bytes) (ev : ViewEvent) :
  (1 <= Component.currentPage c <= Component.totalPages c)%Z ->
  (1 <= Component.currentPage (viewStep Bytes c ev)
   <= Component.totalPages c)%Z.
Proof.
  intro H. destruct ev; cbn [viewStep]; try exact H.
  - unfold handlePreviousPage.
    destruct (Component.currentPage c <=? 1)%Z; [exact H |].
    destruct (1 <? Component.currentPage c)%Z eqn:Hlt; [| exact H].
    apply Z.ltb_lt in Hlt. cbn [Component.currentPage]. lia.
  - unfold handleNextPage.
    destruct (Component.totalPages c <=? Component.currentPage c)%Z; [exact H |].
    destruct (Component.currentPage c <? Component.totalPages c)%Z eqn:Hlt;
      [| exact H].
    apply Z.ltb_lt in Hlt. cbn [Component.currentPage]. lia.
Qed.

Lemma viewRun_frame (evs : list ViewEvent) (c : Component.t Bytes) :
  Component.pdfFile (viewRun Bytes c evs) = Component.pdfFile c
  /\ Component.totalPages (viewRun Bytes c evs) = Component.totalPages c
  /\ Editor.elements (Component.editor (viewRun Bytes c evs))
     = Editor.elements (Component.editor c)
  /\ Editor.history (Component.editor (viewRun Bytes c evs))
     = Editor.history (Component.editor c)
  /\ Editor.historyIndex (Component.editor (viewRun Bytes c evs))
     = Editor.historyIndex (Component.editor c)
  /\ Editor.tools (Component.editor (viewRun Bytes c evs))
     = Editor.tools (Component.editor c).
Proof.
  revert c. induction evs as [| ev evs IH]; intro c.
  - repeat split; reflexivity.
  - unfold viewRun in *. cbn [fold_left].
    destruct (IH (viewStep Bytes c ev)) as (H1 & H2 & H3 & H4 & H5 & H6).
    destruct (viewStep_frame c ev) as (G1 & G2 & G3 & G4 & G5 & G6).
    rewrite H1, H2, H3, H4, H5, H6. repeat split; assumption.
Qed.

Lemma viewRun_page (evs : list ViewEvent) (c : Component.t Bytes) :
  (1 <= Component.currentPage c <= Component.totalPages c)%Z ->
  (1 <= Component.currentPage (viewRun Bytes c evs)
   <= Component.totalPages c)%Z.
Proof.
  revert c. induction evs as [| ev evs IH]; intros c H; [exact H |].
  unfold viewRun in *. cbn [fold_left].
  destruct (viewStep_frame c ev) as (_ & G2 & _).
  rewrite <- G2. apply IH. rewrite G2. apply viewStep_page, H.
Qed.

Lemma viewRun_scale_pos (evs : list ViewEvent) (c : Component.t Bytes) :
  0 < Editor.scale (Component.editor c) ->
  0 < Editor.scale (Component.editor (viewRun Bytes c evs)).
Proof.
  revert c. induction evs as [| ev evs IH]; intros c H; [exact H |].
  unfold viewRun in *. cbn [fold_left]. apply IH.
  destruct ev; cbn [viewStep].
  - unfold handlePreviousPage.
    destruct (Component.currentPage c <=? 1)%Z, (1 <? Component.currentPage c)%Z;
      exact H.
  - unfold handleNextPage.
    destruct (Component.totalPages c <=? Component.currentPage c)%Z,
      (Component.currentPage c <? Component.totalPages c)%Z; exact H.
  - unfold handleZoomIn, setScale.
    cbn [Component.editor Editor.scale].
    apply Rmin_glb_lt; lra.
  - unfold handleZoomOut, setScale.
    cbn [Component.editor Editor.scale].
    apply Rlt_le_trans with (25 / 100); [lra | apply Rmax_r].
Qed.

End ComponentFacts.

(** X10: The zoom stays on the quarters between 1/4 and 3: from a scale
    [k / 4] with [1 <= k <= 12], as the initial scale 1, any sequence of
    zoom and page buttons leaves a scale of that form, so between 1/4 and
    3 and positive; and these buttons change neither the elements, nor
    the history and its cursor, nor the tool settings, nor the file. *)
Theorem zoom_stays_on_quarters (Bytes : Type) (c : Component.t Bytes)
    (evs : list ViewEvent)
    (Hscale : quarterScale (Editor.scale (Component.editor c))) :
  let c' := viewRun Bytes c evs in
  quarterScale (Editor.scale (Component.editor c'))
  /\ 1 / 4 <= Editor.scale (Component.editor c') <= 3
  /\ Editor.elements (Component.editor c') = Editor.elements (Component.editor c)
  /\ Editor.history (Component.editor c') = Editor.history (Component.editor c)
  /\ Editor.historyIndex (Component.editor c')
     = Editor.historyIndex (Component.editor c)
  /\ Editor.tools (Component.editor c') = Editor.tools (Component.editor c)
  /\ Component.pdfFile c' = Component.pdfFile c.
Proof.
  intro c'.
  assert (quarterScale (Editor.scale (Component.editor c'))) as Hq.
  { unfold c', viewRun. clear c'. revert c Hscale.
    induction evs as [| ev evs IH]; intros c Hscale; [exact Hscale |].
    cbn [fold_left]. apply IH, viewStep_scale, Hscale. }
  destruct (viewRun_frame Bytes evs c) as (H1 & H2 & H3 & H4 & H5 & H6).
  split; [exact Hq |]. split; [apply quarterScale_range, Hq |].
  repeat split; assumption.
Qed.

Lemma zoom_stays_on_quarters_witness :
  quarterScale (Editor.scale (Component.editor (Component.initial unit)))
  /\ 1 / 4 <= Editor.scale
                (Component.editor
                   (viewRun unit (Component.initial unit)
                      [ZoomIn; ZoomIn; ZoomOut; NextPage])) <= 3.
Proof.
  assert (quarterScale (Editor.scale (Component.editor (Component.initial unit))))
    as H.
  { exists 4%Z. split; [lia |]. cbn [Component.initial Component.editor
      Editor.initial Editor.scale]. lra. }
  split; [exact H |].
  apply (zoom_stays_on_quarters unit (Component.initial unit)
           [ZoomIn; ZoomIn; ZoomOut; NextPage] H).
Defined.

(** X11: With a file that loads and whose number of pages is the total
    shown, and a positive scale, the page buttons keep the current page
    between 1 and the total and the zoom buttons keep the scale positive,
    so a download after any sequence of page and zoom buttons never fails
    for the page.  It saves the original bytes under the name [copy-...]
    when there is no element.  Otherwise the elements are drawn on the page
    shown at the time of the download, at the scale of that time, whichever
    page was shown when they were made: when that completes, the download
    saves that document under the name [edited-...] and nothing else; when
    [rgb] or [drawText] throws for an element, it saves nothing, logs the
    error and shows the alert.  With elements whose colour [rgb] accepts
    and whose texts the font encodes, the download saves exactly one file
    and shows no error. *)
Theorem download_after_navigation (Bytes : Type)
    (load : Bytes -> result PDFDocument) (save : PDFDocument -> Bytes)
    (embedFont : StandardFonts -> PDFFont)
    (c : Component.t Bytes) (evs : list ViewEvent)
    (file : File.t Bytes) (doc : PDFDocument)
    (Hfile : Component.pdfFile c = Some file)
    (Hload : load (File.arrayBuffer file) = Ok doc)
    (Htotal : Component.totalPages c = Z.of_nat (List.length doc))
    (Hpage : (1 <= Component.currentPage c <= Component.totalPages c)%Z)
    (Hscale : 0 < Editor.scale (Component.editor c)) :
  let c' := viewRun Bytes c evs in
  let els := Editor.elements (Component.editor c) in
  (1 <= Component.currentPage c' <= Component.totalPages c)%Z
  /\ 0 < Editor.scale (Component.editor c')
  /\ (els = [] ->
      handleDownload Bytes load save embedFont c'
      = [saveAs (File.arrayBuffer file) ("copy-" ++ File.name file)%string])
  /\ (els <> [] ->
      exists page,
        page_at doc (Component.currentPage c' - 1) = Some page
        /\ handleDownload Bytes load save embedFont c'
           = match drawElements els (Editor.scale (Component.editor c'))
                     (embedFont Helvetica) (embedFont HelveticaBold)
                     (pageWidth page) (pageHeight page) with
             | Ok cmds =>
                 [saveAs
                    (save (draw_on_page doc
                             (Z.to_nat (Component.currentPage c' - 1)) cmds))
                    ("edited-" ++ File.name file)%string]
             | Throw e =>
                 [console_error "Error downloading PDF:" e;
                  alert "Error downloading PDF. Please try again."]
             end)
  /\ (Forall (paintable (embedFont Helvetica)) els ->
      exists bytes name,
        handleDownload Bytes load save embedFont c' = [saveAs bytes name]).
Proof.
  intros c' els.
  pose proof (viewRun_page Bytes evs c Hpage) as Hpage'. fold c' in Hpage'.
  destruct (viewRun_frame Bytes evs c) as (Hf & _ & He & _). fold c' in Hf, He.
  destruct (proj1 (page_at_in_range doc (Component.currentPage c'))
              ltac:(lia)) as (page & Hp).
  assert (els <> [] ->
          handleDownload Bytes load save embedFont c'
          = match drawElements els (Editor.scale (Component.editor c'))
                    (embedFont Helvetica) (embedFont HelveticaBold)
                    (pageWidth page) (pageHeight page) with
            | Ok cmds =>
                [saveAs
                   (save (draw_on_page doc
                            (Z.to_nat (Component.currentPage c' - 1)) cmds))
                   ("edited-" ++ File.name file)%string]
            | Throw e =>
                [console_error "Error downloading PDF:" e;
                 alert "Error downloading PDF. Please try again."]
            end) as Hdraw.
  { intro Hne. unfold handleDownload. rewrite Hf, Hfile, He. fold els.
    destruct els as [| el rest] eqn:Hels; [contradiction |].
    cbn [List.length Nat.ltb Nat.leb].
    unfold mergePDFWithAnnotations. rewrite Hload. cbn [bind].
    rewrite Hp.
    destruct (drawElements (el :: rest) (Editor.scale (Component.editor c'))
                (embedFont Helvetica) (embedFont HelveticaBold)
                (pageWidth page) (pageHeight page)); reflexivity. }
  assert (els = [] ->
          handleDownload Bytes load save embedFont c'
          = [saveAs (File.arrayBuffer file) ("copy-" ++ File.name file)%string])
    as Hcopy.
  { intro Hnil. unfold handleDownload. rewrite Hf, Hfile, He. fold els.
    rewrite Hnil. reflexivity. }
  split; [exact Hpage' |].
  split; [exact (viewRun_scale_pos Bytes evs c Hscale) |].
  split; [exact Hcopy |]. split.
  - intro Hne. exists page. split; [exact Hp | exact (Hdraw Hne)].
  - intro Hpaint. destruct els as [| el rest] eqn:Hels.
    + do 2 eexists. apply Hcopy. reflexivity.
    + rewrite Hdraw by discriminate.
      destruct (drawElements_paintable (el :: rest)
                  (Editor.scale (Component.editor c'))
                  (embedFont Helvetica) (embedFont HelveticaBold)
                  (pageWidth page) (pageHeight page) Hpaint) as (cmds & ->).
      do 2 eexists. reflexivity.
Qed.

Lemma download_after_navigation_witness :
  0 < Editor.scale (Component.editor component_two_pages)
  /\ Forall (paintable (asciiFont Helvetica))
       (Editor.elements (Component.editor component_two_pages))
  /\ exists bytes name,
       handleDownload PDFDocument (fun d => Ok d) (fun d => d) asciiFont
         (viewRun PDFDocument component_two_pages [NextPage; ZoomIn])
       = [saveAs bytes name].
Proof.
  assert (Forall (paintable (asciiFont Helvetica))
            (Editor.elements (Component.editor component_two_pages))) as Hpaint.
  { constructor; [| constructor].
    split; [eexists; exact inkOf_ff0000 | discriminate]. }
  assert (0 < Editor.scale (Component.editor component_two_pages)) as Hscale.
  { cbn [component_two_pages Component.editor Editor.setElements
         Editor.initial Editor.scale]. lra. }
  split; [exact Hscale |]. split; [exact Hpaint |].
  destruct (download_after_navigation PDFDocument (fun d => Ok d) (fun d => d)
              asciiFont
              component_two_pages [NextPage; ZoomIn] file_two_pages
              two_page_document eq_refl eq_refl eq_refl
              ltac:(cbn [component_two_pages Component.currentPage
                           Component.totalPages]; lia) Hscale)
    as (_ & _ & _ & _ & Hsave).
  exact (Hsave Hpaint).
Defined.

(** X12: Uploading a file starts over: the toolbar passes on only a first
    file whose type is [application/pdf] and otherwise leaves the state as
    it is; after an upload there is no element, undo and redo do nothing
    (the earlier annotations cannot be brought back), the page is 1, and a
    download saves the bytes of the new file unchanged under the name
    [copy-...]; the zoom and the total number of pages are those of
    before. *)
Theorem upload_starts_over (Bytes : Type)
    (load : Bytes -> result PDFDocument) (save : PDFDocument -> Bytes)
    (embedFont : StandardFonts -> PDFFont)
    (files : list (File.t Bytes)) (c : Component.t Bytes) :
  let c' := Toolbar_handleFileUpload Bytes files c in
  match files with
  | file :: _ =>
      if String.eqb (File.type file) "application/pdf" then
        Component.pdfFile c' = Some file
        /\ Component.currentPage c' = 1%Z
        /\ Editor.elements (Component.editor c') = []
        /\ Editor.handleUndo (Component.editor c') = Ok (Component.editor c')
        /\ Editor.handleRedo (Component.editor c') = Ok (Component.editor c')
        /\ handleDownload Bytes load save embedFont c'
           = [saveAs (File.arrayBuffer file) ("copy-" ++ File.name file)%string]
        /\ Editor.scale (Component.editor c') = Editor.scale (Component.editor c)
        /\ Component.totalPages c' = Component.totalPages c
      else c' = c
  | [] => c' = c
  end.
Proof.
  intro c'. unfold c', Toolbar_handleFileUpload.
  destruct files as [| file rest]; [reflexivity |].
  destruct (String.eqb (File.type file) "application/pdf"); [| reflexivity].
  repeat split; reflexivity.
Qed.

(** ** Pointer gestures *)

Lemma run_app (measureText : R -> string -> R) (a a1 : App)
    (evs1 evs2 : list Event) :
  run measureText a evs1 = Ok a1 ->
  run measureText a (evs1 ++ evs2) = run measureText a1 evs2.
Proof.
  revert a. induction evs1 as [| ev evs1 IH]; intros a Hrun.
  - injection Hrun as ->. reflexivity.
  - cbn [run List.app] in *.
    destruct (step measureText a ev) as [a' |]; cbn [bind] in *;
      [| discriminate].
    apply IH, Hrun.
Qed.

Lemma last_cons_nonempty {A : Type} (a c d : A) (l : list A) :
  last (a :: c :: l) d = last (c :: l) d.
Proof. reflexivity. Qed.

(** The moves and the release of a gesture in progress. *)
Lemma moves_then_release (measureText : R -> string -> R)
    (moves : list (Env.t * MouseEvent)) (st : Editor.t)
    (i : string) (pts : list Point) (c : string) (w : R) (p0 : Point)
    (tm : Z) (le : option string) :
  isDrawingTool (ToolState.activeTool (Editor.tools st)) = true ->
  let t := ToolState.activeTool (Editor.tools st) in
  let moved := map (fun m => getMousePos (fst m) (snd m)) moves in
  run measureText
    (mkApp st
       (Refs.mk true
          (Some (mkElement i t pts c w None None None None None None))
          (Some p0) tm le))
    (map (fun m => MouseMove (fst m) (snd m)) moves ++ [MouseUp])
  = Ok (mkApp
          (Editor.handleElementAdd st
             (mkElement i t
                (match t with
                 | Draw => pts ++ moved
                 | _ => match moved with
                        | [] => pts
                        | _ => [p0; last moved p0]
                        end
                 end)
                c w None None None None None None))
          (Refs.mk false None None tm le)).
Proof.
  intros Htool t. revert pts.
  induction moves as [| [env e] moves IH]; intros pts moved.
  - cbn [map app run step handleMouseUp refs editor Refs.isDrawing
         Refs.currentElement Refs.lastClickTime Refs.lastClickElement bind].
    subst moved. cbn [map]. rewrite app_nil_r.
    destruct t; reflexivity.
  - subst moved. cbn [map app run fst snd].
    assert (step measureText
              (mkApp st
                 (Refs.mk true
                    (Some (mkElement i t pts c w None None None None None None))
                    (Some p0) tm le))
              (MouseMove env e)
            = Ok (mkApp st
                    (Refs.mk true
                       (Some (mkElement i t
                                (match t with
                                 | Draw => pts ++ [getMousePos env e]
                                 | _ => [p0; getMousePos env e]
                                 end)
                                c w None None None None None None))
                       (Some p0) tm le))) as Hstep.
    { cbn [step editor]. fold t. unfold handleMouseMove.
      cbn [refs editor Refs.isDrawing Refs.currentElement Refs.startPoint
           Refs.lastClickTime Refs.lastClickElement]. fold t.
      unfold isDrawingTool in Htool. fold t in Htool.
      destruct t; try discriminate; reflexivity. }
    rewrite Hstep. cbn [bind].
    specialize (IH (match t with
                    | Draw => pts ++ [getMousePos env e]
                    | _ => [p0; getMousePos env e]
                    end)).
    cbn zeta in IH. rewrite IH. do 3 f_equal.
    set (rest := map (fun m => getMousePos (fst m) (snd m)) moves).
    destruct t; try (rewrite <- app_assoc; reflexivity);
      destruct rest; reflexivity.
Qed.

(** The run of a gesture with the pen or a shape tool. *)
Lemma run_gesture (measureText : R -> string -> R)
    (app : App) (env0 : Env.t) (e0 : MouseEvent)
    (moves : list (Env.t * MouseEvent)) :
  isDrawingTool (ToolState.activeTool (Editor.tools (editor app))) = true ->
  Forall anchored (Editor.elements (editor app)) ->
  let tools := Editor.tools (editor app) in
  run measureText app (gesture env0 e0 moves)
  = Ok (mkApp
          (Editor.handleElementAdd (editor app)
             (mkElement (toString (Env.idNow env0)) (ToolState.activeTool tools)
                (gesturePoints (ToolState.activeTool tools)
                   (getMousePos env0 e0)
                   (map (fun m => getMousePos (fst m) (snd m)) moves))
                (ToolState.strokeColor tools) (ToolState.strokeWidth tools)
                None None None None None None))
          (Refs.mk false None None (Env.now env0) None)).
Proof.
  intros Htool Hanchored tools.
  unfold gesture.
  change (MouseDown env0 e0
          :: map (fun m => MouseMove (fst m) (snd m)) moves ++ [MouseUp])
    with ([MouseDown env0 e0]
          ++ (map (fun m => MouseMove (fst m) (snd m)) moves ++ [MouseUp])).
  destruct app as [st rf]. cbn [editor] in *.
  assert (run measureText (mkApp st rf) [MouseDown env0 e0]
          = Ok (mkApp st
                  (Refs.mk true
                     (Some (mkElement (toString (Env.idNow env0))
                              (ToolState.activeTool tools) [getMousePos env0 e0]
                              (ToolState.strokeColor tools)
                              (ToolState.strokeWidth tools)
                              None None None None None None))
                     (Some (getMousePos env0 e0)) (Env.now env0) None)))
    as Hdown.
  { cbn [run step editor]. fold tools.
    destruct (getTextElementAtPoint_total measureText env0
                (getMousePos env0 e0) (Editor.elements st) Hanchored)
      as (hit & Hhit & _).
    unfold handleMouseDown. cbn [editor refs]. rewrite Hhit. cbn [bind].
    fold tools. unfold isDrawingTool in Htool. fold tools in Htool.
    destruct (ToolState.activeTool tools); try discriminate;
      destruct hit; reflexivity. }
  rewrite (run_app _ _ _ _ _ Hdown).
  rewrite (moves_then_release measureText moves st _ _ _ _ _ _ _ Htool).
  reflexivity.
Qed.

(** X13: A gesture with the pen or a shape tool (a press, any number of
    moves, the release) adds exactly one element and one checkpoint,
    whatever was in progress before: the element has the identifier made
    at the press, the tool as type, the colour and the stroke width of the
    tool settings, and as points the whole path for the pen and the start
    and the last position for a shape; the refs are back to idle.  A press
    and release without a move adds an element of one point, which the
    export draws as nothing. *)
Theorem gesture_adds_one_element (measureText : R -> string -> R)
    (app : App) (env0 : Env.t) (e0 : MouseEvent)
    (moves : list (Env.t * MouseEvent))
    (Htool : isDrawingTool (ToolState.activeTool (Editor.tools (editor app)))
             = true)
    (Hanchored : Forall anchored (Editor.elements (editor app))) :
  let tools := Editor.tools (editor app) in
  let el :=
    mkElement (toString (Env.idNow env0)) (ToolState.activeTool tools)
      (gesturePoints (ToolState.activeTool tools) (getMousePos env0 e0)
         (map (fun m => getMousePos (fst m) (snd m)) moves))
      (ToolState.strokeColor tools) (ToolState.strokeWidth tools)
      None None None None None None in
  run measureText app (gesture env0 e0 moves)
  = Ok (mkApp (Editor.handleElementAdd (editor app) el)
          (Refs.mk false None None (Env.now env0) None))
  /\ Editor.elements (Editor.handleElementAdd (editor app) el)
     = Editor.elements (editor app) ++ [el]
  /\ (moves = [] ->
      forall s font bold w h, drawElementOnPDF el s font bold w h = Ok []).
Proof.
  intros tools el. split; [| split].
  - apply run_gesture; assumption.
  - reflexivity.
  - intros -> s font bold w h. unfold el, gesturePoints. cbn [map].
    unfold isDrawingTool in Htool. fold tools in Htool.
    destruct (ToolState.activeTool tools); try discriminate; reflexivity.
Qed.

Lemma gesture_adds_one_element_witness :
  run measure_10 app_rectangle_tool
    (gesture env_canvas_100_50 click_110_60 drag_10_10_50_40)
  = Ok (mkApp
          (Editor.handleElementAdd (editor app_rectangle_tool)
             (mkElement (toString (Env.idNow env_canvas_100_50)) Rectangle
                (gesturePoints Rectangle
                   (getMousePos env_canvas_100_50 click_110_60)
                   (map (fun m => getMousePos (fst m) (snd m))
                      drag_10_10_50_40))
                "#ff0000" 2 None None None None None None))
          (Refs.mk false None None (Env.now env_canvas_100_50) None)).
Proof.
  apply (gesture_adds_one_element measure_10 app_rectangle_tool
           env_canvas_100_50 click_110_60 drag_10_10_50_40 eq_refl
           (Forall_nil _)).
Defined.

(** X14: The eraser removes nothing: with the eraser active and no gesture
    in progress, every sequence of presses, moves and releases on the
    canvas leaves the elements, the history and the refs exactly as they
    were (the listeners only paint on the canvas, so what was rubbed out
    is drawn again at the next redraw and is exported). *)
Theorem eraser_changes_nothing (measureText : R -> string -> R) (a : App)
    (evs : list Event)
    (Htool : ToolState.activeTool (Editor.tools (editor a)) = Eraser)
    (Hidle : Refs.isDrawing (refs a) = false)
    (Hpointer : forallb isPointerEvent evs = true) :
  run measureText a evs = Ok a.
Proof.
  induction evs as [| ev evs IH]; [reflexivity |].
  cbn [forallb] in Hpointer. apply andb_true_iff in Hpointer as [Hev Hrest].
  cbn [run].
  assert (step measureText a ev = Ok a) as ->.
  { destruct ev; try discriminate; cbn [step]; rewrite ?Htool.
    - reflexivity.
    - destruct (buttons e =? 1)%Z; [reflexivity |].
      unfold handleMouseMove. rewrite Hidle. reflexivity.
    - unfold handleMouseUp. rewrite Hidle. reflexivity. }
  cbn [bind]. apply IH, Hrest.
Qed.

Lemma eraser_changes_nothing_witness :
  run measure_10 app_eraser_tool
    (gesture env_canvas_100_50 click_110_60 drag_10_10_50_40)
  = Ok app_eraser_tool.
Proof.
  apply (eraser_changes_nothing measure_10 app_eraser_tool
           (gesture env_canvas_100_50 click_110_60 drag_10_10_50_40)
           eq_refl eq_refl eq_refl).
Defined.

(** ** The hit test *)

Section HitTest.

Variable measureText : R -> string -> R.

Lemma lineAtPoint_no_canvas (env : Env.t) (point : Point)
    (el : DrawingElement) (lh : R) (lines : list string) (i : nat) :
  Env.canvas env = None \/ Env.context2d env = false ->
  lineAtPoint measureText env point el lh i lines = Ok false.
Proof.
  intro Hno. revert i. induction lines as [| line lines IH]; intro i;
    cbn [lineAtPoint]; [reflexivity |].
  destruct (Env.canvas env) as [rect |]; [| apply IH].
  destruct Hno as [Hno | Hno]; [discriminate |].
  rewrite Hno. cbn [negb]. apply IH.
Qed.

Lemma lineAtPoint_spec (env : Env.t) (rect : DOMRect) (point : Point)
    (el : DrawingElement) (p0 : Point) (more : list Point)
    (lines : list string) (i : nat) :
  Env.canvas env = Some rect ->
  Env.context2d env = true ->
  points el = p0 :: more ->
  exists hit,
    lineAtPoint measureText env point el
      (opt_num_or (fontSize el) 16 * (12 / 10)) i lines = Ok hit
    /\ (hit = true <->
        exists j line,
          nth_error lines j = Some line
          /\ inLineBox measureText el point (i + j) line).
Proof.
  intros Hcanvas Hctx Hpts. revert i.
  induction lines as [| line lines IH]; intro i; cbn [lineAtPoint].
  - exists false. split; [reflexivity |].
    split; [discriminate |]. intros (j & l & Hj & _). destruct j; discriminate.
  - rewrite Hcanvas, Hctx, Hpts. cbn [negb at_index nth_error bind].
    assert (~ inLineBox measureText el point i line ->
               exists hit,
                 lineAtPoint measureText env point el
                   (opt_num_or (fontSize el) 16 * (12 / 10)) (S i) lines = Ok hit
                 /\ (hit = true <->
                     exists j l,
                       nth_error (line :: lines) j = Some l
                       /\ inLineBox measureText el point (i + j) l)) as Hnext.
    { intro Hout. destruct (IH (S i)) as (hit & Hrun & Hiff).
      exists hit. split; [exact Hrun |]. rewrite Hiff. split.
      - intros (j & l & Hj & Hbox). exists (S j), l. split; [exact Hj |].
        rewrite Nat.add_succ_r. exact Hbox.
      - intros (j & l & Hj & Hbox). destruct j as [| j].
        + injection Hj as <-. rewrite Nat.add_0_r in Hbox. contradiction.
        + exists j, l. split; [exact Hj |].
          rewrite Nat.add_succ_r in Hbox. exact Hbox. }
    repeat match goal with
           | |- context [Rle_dec ?a ?c] =>
               destruct (Rle_dec a c) as [? | ?]
           end;
      try (apply Hnext;
           intros (q0 & m & Hq & Hbox); rewrite Hpts in Hq;
           injection Hq as <- <-; cbn zeta in Hbox; lra).
    exists true. split; [reflexivity |]. split; [| reflexivity].
    intros _. exists 0%nat, line. split; [reflexivity |].
    rewrite Nat.add_0_r. exists p0, more. split; [exact Hpts |].
    cbn zeta. lra.
Qed.

Lemma isCommittedText_type (el : DrawingElement) :
  isCommittedText el = true -> type el = Text.
Proof.
  unfold isCommittedText. intro H.
  apply andb_true_iff in H as [H _]. apply andb_true_iff in H as [H _].
  destruct (type el); try discriminate. reflexivity.
Qed.

Lemma textElementIn_no_canvas (env : Env.t) (point : Point)
    (l : list DrawingElement) :
  Env.canvas env = None \/ Env.context2d env = false ->
  textElementIn measureText env point l = Ok None.
Proof.
  intro Hno. induction l as [| el l IH]; cbn [textElementIn]; [reflexivity |].
  destruct (ToolType_eqb (type el) Text && truthy_string (text el)
            && negb (truthy_bool (isEditing el))); [| exact IH].
  rewrite (lineAtPoint_no_canvas env point el _ _ _ Hno). cbn [bind]. exact IH.
Qed.

Lemma textElementIn_spec (env : Env.t) (rect : DOMRect) (point : Point)
    (l : list DrawingElement) :
  Env.canvas env = Some rect ->
  Env.context2d env = true ->
  Forall anchored l ->
  exists hit,
    textElementIn measureText env point l = Ok hit
    /\ match hit with
       | Some el =>
           exists before after,
             l = before ++ el :: after
             /\ pointOnText measureText point el
             /\ Forall (fun e => ~ pointOnText measureText point e) before
       | None => Forall (fun e => ~ pointOnText measureText point e) l
       end.
Proof.
  intros Hcanvas Hctx. induction l as [| el l IH]; intro Hall;
    cbn [textElementIn].
  - exists None. split; [reflexivity | constructor].
  - inversion Hall as [| ? ? Hel Hl]; subst.
    destruct (IH Hl) as (hit & Hrun & Hspec).
    assert (~ pointOnText measureText point el ->
            exists hit',
              textElementIn measureText env point l = Ok hit'
              /\ match hit' with
                 | Some e =>
                     exists before after,
                       el :: l = before ++ e :: after
                       /\ pointOnText measureText point e
                       /\ Forall (fun e => ~ pointOnText measureText point e)
                            before
                 | None =>
                     Forall (fun e => ~ pointOnText measureText point e)
                       (el :: l)
                 end) as Hskip.
    { intro Hout. exists hit. split; [exact Hrun |].
      destruct hit as [e |].
      - destruct Hspec as (before & after & -> & Hon & Hbefore).
        exists (el :: before), after. split; [reflexivity |].
        split; [exact Hon | constructor; assumption].
      - constructor; assumption. }
    fold (isCommittedText el).
    destruct (isCommittedText el) eqn:Hcommitted.
    + pose proof (isCommittedText_type el Hcommitted) as Hty.
      destruct (points el) as [| p0 more] eqn:Hpts;
        [exfalso; apply (Hel Hty); exact Hpts |].
      destruct (lineAtPoint_spec env rect point el p0 more
                  (split_lines (string_value (text el))) 0
                  Hcanvas Hctx Hpts) as (b & Hb & Hiff).
      rewrite Hb. cbn [bind]. destruct b.
      * exists (Some el). split; [reflexivity |].
        exists [], l. split; [reflexivity |].
        split; [| constructor].
        split; [exact Hcommitted |]. apply Hiff. reflexivity.
      * apply Hskip. intros [_ Hon].
        assert (false = true) as Habs by (apply Hiff; exact Hon).
        discriminate.
    + apply Hskip. intros [Hon _]. congruence.
Qed.

End HitTest.

(** X15: The hit test returns the topmost text under the point: with a
    canvas and its context, and every text of the set anchored, it never
    throws; it returns an element of the set that is a committed text (a
    text with characters whose editor is closed) with the point in the box
    of one of its lines, and no element after it in the set (drawn over
    it) is such a text; it returns nothing exactly when the point is on no
    committed text.  Without a canvas or without its context it returns
    nothing. *)
Theorem hit_test_topmost (measureText : R -> string -> R) (env : Env.t)
    (els : list DrawingElement) (point : Point)
    (Hanchored : Forall anchored els) :
  exists hit,
    getTextElementAtPoint measureText env els point = Ok hit
    /\ match Env.canvas env, Env.context2d env with
       | Some _, true =>
           match hit with
           | Some el =>
               exists before after,
                 els = before ++ el :: after
                 /\ pointOnText measureText point el
                 /\ Forall (fun e => ~ pointOnText measureText point e) after
           | None => Forall (fun e => ~ pointOnText measureText point e) els
           end
       | _, _ => hit = None
       end.
Proof.
  unfold getTextElementAtPoint.
  destruct (Env.canvas env) as [rect |] eqn:Hcanvas.
  - destruct (Env.context2d env) eqn:Hctx.
    + destruct (textElementIn_spec measureText env rect point (rev els)
                  Hcanvas Hctx (Forall_rev Hanchored))
        as (hit & Hrun & Hspec).
      exists hit. split; [exact Hrun |].
      destruct hit as [el |].
      * destruct Hspec as (before & after & Hrev & Hon & Hbefore).
        exists (rev after), (rev before).
        split; [| split; [exact Hon | apply Forall_rev, Hbefore]].
        rewrite <- (rev_involutive els), Hrev, rev_app_distr.
        cbn [rev]. rewrite <- app_assoc. reflexivity.
      * rewrite <- (rev_involutive els). apply Forall_rev, Hspec.
    + exists None. split; [| reflexivity].
      apply textElementIn_no_canvas. right. exact Hctx.
  - exists None. split; [| reflexivity].
    apply textElementIn_no_canvas. left. exact Hcanvas.
Qed.

Lemma hit_test_topmost_witness :
  exists hit,
    getTextElementAtPoint measure_10 env_canvas_100_50
      [committed_text_5_20; text_over_5_20] (Point.mk 6 15) = Ok hit
    /\ match hit with
       | Some el =>
           exists before after,
             [committed_text_5_20; text_over_5_20] = before ++ el :: after
             /\ pointOnText measure_10 (Point.mk 6 15) el
             /\ Forall (fun e => ~ pointOnText measure_10 (Point.mk 6 15) e)
                  after
       | None =>
           Forall (fun e => ~ pointOnText measure_10 (Point.mk 6 15) e)
             [committed_text_5_20; text_over_5_20]
       end.
Proof.
  apply (hit_test_topmost measure_10 env_canvas_100_50
           [committed_text_5_20; text_over_5_20] (Point.mk 6 15)).
  repeat constructor; intros _; discriminate.
Defined.

(** ** Double click *)

(** X16: Two presses with the select tool on the same committed text open
    its editor exactly when the second comes less than 300 milliseconds
    after the first and no editor is open: the element gets the editing
    flag and its anchor in viewport coordinates, one font size higher, the
    click tracking is reset so that a third press starts anew, and no
    checkpoint is taken.  At 300 milliseconds or more the set is left as
    it is and the second press counts as a first one. *)
Theorem double_click_opens_editor (measureText : R -> string -> R) (a : App)
    (env1 env2 : Env.t) (e1 e2 : MouseEvent) (el : DrawingElement)
    (rect : DOMRect) (A : Point) (more : list Point)
    (Htool : ToolState.activeTool (Editor.tools (editor a)) = Select)
    (Hfresh : Refs.lastClickElement (refs a) = None)
    (Hhit1 : getTextElementAtPoint measureText env1
               (Editor.elements (editor a)) (getMousePos env1 e1)
             = Ok (Some el))
    (Hhit2 : getTextElementAtPoint measureText env2
               (Editor.elements (editor a)) (getMousePos env2 e2)
             = Ok (Some el))
    (Hcanvas : Env.canvas env2 = Some rect)
    (Hclosed : existsb isTextEditing (Editor.elements (editor a)) = false)
    (Hpts : points el = A :: more) :
  let size :=
    opt_num_or (option_map TextFormat.fontSize (textFormat el))
      (opt_num_or (fontSize el) 16) in
  let opened e :=
    if String.eqb (id e) (id el)
    then spread e
           (Partial.mk None None
              (Some [Point.mk (Point.x A + DOMRect.left rect)
                       (Point.y A + DOMRect.top rect - size)])
              None None None None None None (Some (Some true)) None)
    else e in
  exists a',
    run measureText a [MouseDown env1 e1; MouseDown env2 e2] = Ok a'
    /\ Editor.history (editor a') = Editor.history (editor a)
    /\ Editor.historyIndex (editor a') = Editor.historyIndex (editor a)
    /\ if (Env.now env2 - Env.now env1 <? 300)%Z
       then Editor.elements (editor a') = map opened (Editor.elements (editor a))
            /\ Refs.lastClickTime (refs a') = 0%Z
            /\ Refs.lastClickElement (refs a') = None
       else Editor.elements (editor a') = Editor.elements (editor a)
            /\ Refs.lastClickTime (refs a') = Env.now env2
            /\ Refs.lastClickElement (refs a') = Some (id el).
Proof.
  intros size opened. destruct a as [st rf]. cbn [editor refs] in *.
  cbn [run step editor]. rewrite Htool.
  unfold handleMouseDown at 1. cbn [editor refs]. rewrite Hhit1, Htool.
  cbn [bind]. rewrite Hfresh. cbn [opt_string_eqb]. rewrite andb_false_r.
  cbn [bind step editor]. rewrite Htool.
  unfold handleMouseDown. cbn [editor refs Refs.lastClickTime
                               Refs.lastClickElement Refs.isDrawing
                               Refs.currentElement Refs.startPoint].
  rewrite Hhit2, Htool. cbn [bind opt_string_eqb].
  rewrite String.eqb_refl, andb_true_r.
  destruct (Env.now env2 - Env.now env1 <? 300)%Z.
  - rewrite Hclosed. unfold editExistingText. rewrite Hcanvas, Hpts.
    cbn [at_index nth_error bind].
    eexists. split; [reflexivity |]. repeat split; reflexivity.
  - eexists. split; [reflexivity |]. repeat split; reflexivity.
Qed.

Lemma double_click_opens_editor_witness :
  exists a',
    run measure_10 app_select_tool
      [MouseDown env_canvas_100_50 click_106_65;
       MouseDown env_200ms_later click_106_65] = Ok a'
    /\ map isEditing (Editor.elements (editor a')) = [Some true].
Proof.
  destruct (double_click_opens_editor measure_10 app_select_tool
              env_canvas_100_50 env_200ms_later click_106_65 click_106_65
              committed_text_5_20 canvas_100_50 (Point.mk 5 20) []
              eq_refl eq_refl
              (hit_committed_text_5_20 env_canvas_100_50 eq_refl eq_refl)
              (hit_committed_text_5_20 env_200ms_later eq_refl eq_refl)
              eq_refl eq_refl eq_refl)
    as (a' & Hrun & _ & _ & Hcase).
  exists a'. split; [exact Hrun |].
  change (Env.now env_200ms_later - Env.now env_canvas_100_50 <? 300)%Z
    with true in Hcase.
  destruct Hcase as (Hels & _). rewrite Hels. reflexivity.
Defined.

(** ** At most one editor is open *)

Lemma openEditors_map_le (f : DrawingElement -> DrawingElement)
    (l : list DrawingElement) :
  (forall x, isTextEditing (f x) = true -> isTextEditing x = true) ->
  (List.length (openEditors (map f l)) <= List.length (openEditors l))%nat.
Proof.
  intro Hf. unfold openEditors.
  induction l as [| x l IH]; cbn [map filter]; [lia |].
  destruct (isTextEditing (f x)) eqn:Hfx.
  - rewrite (Hf x Hfx). cbn [List.length]. lia.
  - destruct (isTextEditing x); cbn [List.length]; lia.
Qed.

Lemma openEditors_filter_le (q : DrawingElement -> bool)
    (l : list DrawingElement) :
  (List.length (openEditors (filter q l)) <= List.length (openEditors l))%nat.
Proof.
  unfold openEditors. induction l as [| x l IH]; cbn [filter]; [lia |].
  destruct (q x); cbn [filter]; destruct (isTextEditing x);
    cbn [List.length]; lia.
Qed.

Lemma openEditors_none (l : list DrawingElement) :
  existsb isTextEditing l = false -> openEditors l = [].
Proof.
  unfold openEditors. induction l as [| x l IH]; cbn [existsb filter];
    [reflexivity |].
  intro H. apply orb_false_iff in H as [Hx Hl]. rewrite Hx. apply IH, Hl.
Qed.

Lemma openEditors_app (l1 l2 : list DrawingElement) :
  openEditors (l1 ++ l2) = openEditors l1 ++ openEditors l2.
Proof. apply filter_app. Qed.

(** Opening the element of one identifier, when none is open and the
    identifiers are distinct, opens at most one editor. *)
Lemma openEditors_open_one (i : string)
    (g : DrawingElement -> DrawingElement) (l : list DrawingElement) :
  NoDup (ids l) ->
  openEditors l = [] ->
  atMostOneOpen (map (fun e => if String.eqb (id e) i then g e else e) l).
Proof.
  unfold atMostOneOpen, openEditors.
  induction l as [| x l IH]; cbn [ids map filter]; intros Hnd Hnone;
    [cbn; lia |].
  inversion Hnd as [| ? ? Hnotin Hnd']; subst.
  assert (isTextEditing x = false /\ filter isTextEditing l = []) as [Hx Hl].
  { destruct (isTextEditing x); [discriminate | split; [reflexivity | exact Hnone]]. }
  destruct (String.eqb_spec (id x) i) as [Heq | Hne].
  - rewrite (map_unless_absent i g l) by (rewrite <- Heq; exact Hnotin).
    rewrite Hl. destruct (isTextEditing (g x)); cbn [List.length]; lia.
  - rewrite Hx. apply IH; assumption.
Qed.

Lemma oneEditor_setElements (st : Editor.t) (els : list DrawingElement) :
  atMostOneOpen els -> oneEditor st -> oneEditor (Editor.setElements st els).
Proof. intros Hels [_ Hh]. split; [exact Hels | exact Hh]. Qed.

Lemma oneEditor_pushHistory (st : Editor.t) (snapshot : list DrawingElement) :
  oneEditor st -> atMostOneOpen snapshot ->
  oneEditor (Editor.pushHistory st snapshot).
Proof.
  intros [Hels Hh] Hsnap.
  destruct (pushHistory_spec st snapshot) as (Hhist & _ & Hsame & _).
  split.
  - rewrite Hsame. exact Hels.
  - rewrite Hhist. apply Forall_app. split.
    + apply Forall_array_slice, Hh.
    + constructor; [exact Hsnap | constructor].
Qed.

Lemma oneEditor_handleElementAdd (st : Editor.t) (el : DrawingElement) :
  oneEditor st ->
  isTextEditing el = false \/ openEditors (Editor.elements st) = [] ->
  oneEditor (Editor.handleElementAdd st el).
Proof.
  intros Hst Hel.
  assert (atMostOneOpen (Editor.elements st ++ [el])) as Hnew.
  { unfold atMostOneOpen. rewrite openEditors_app, length_app.
    destruct Hst as [Hels _]. unfold atMostOneOpen in Hels.
    unfold openEditors at 2. cbn [filter].
    destruct Hel as [-> | ->]; [cbn [List.length]; lia |].
    destruct (isTextEditing el); cbn [List.length]; lia. }
  unfold Editor.handleElementAdd.
  apply oneEditor_pushHistory; [| exact Hnew].
  apply oneEditor_setElements; assumption.
Qed.

Lemma atMostOneOpen_map (f : DrawingElement -> DrawingElement)
    (l : list DrawingElement) :
  (forall x, isTextEditing (f x) = true -> isTextEditing x = true) ->
  atMostOneOpen l -> atMostOneOpen (map f l).
Proof.
  intros Hf Hl. unfold atMostOneOpen in *.
  pose proof (openEditors_map_le f l Hf). lia.
Qed.

Lemma atMostOneOpen_filter (q : DrawingElement -> bool)
    (l : list DrawingElement) :
  atMostOneOpen l -> atMostOneOpen (filter q l).
Proof.
  intro Hl. unfold atMostOneOpen in *.
  pose proof (openEditors_filter_le q l). lia.
Qed.

Lemma isTextEditing_confirmElement (canvas : option DOMRect) (i text' : string)
    (fmt : option TextFormat) (x : DrawingElement) :
  isTextEditing (Editor.confirmElement canvas i text' fmt x) = true ->
  isTextEditing x = true.
Proof.
  unfold Editor.confirmElement. destruct (String.eqb (id x) i); [| trivial].
  unfold isTextEditing, spread. cbn [type isEditing override Partial.type
                                     Partial.isEditing truthy_bool].
  rewrite andb_false_r. discriminate.
Qed.

Lemma oneEditor_handleConfirm (st : Editor.t) (canvas : option DOMRect)
    (i text' : string) (format : TextFormat) :
  oneEditor st -> oneEditor (handleConfirm canvas i text' format st).
Proof.
  intro Hst. unfold handleConfirm. destruct (trim text').
  - unfold Editor.handleTextCancel.
    apply oneEditor_setElements; [| exact Hst].
    apply atMostOneOpen_filter, Hst.
  - unfold Editor.handleTextConfirm.
    assert (atMostOneOpen
              (map (Editor.confirmElement canvas i (String a s) (Some format))
                 (Editor.elements st))) as Hnew.
    { apply atMostOneOpen_map; [| apply Hst].
      apply isTextEditing_confirmElement. }
    apply oneEditor_pushHistory; [| exact Hnew].
    apply oneEditor_setElements; assumption.
Qed.

Lemma oneEditor_history_move (st st' : Editor.t) :
  Editor.history st' = Editor.history st ->
  st' = st
  \/ (exists i, array_get (Editor.history st) i
                = Some (HistoryState.mk (Editor.elements st'))) ->
  oneEditor st -> oneEditor st'.
Proof.
  intros Hhist Hcase Hst. destruct Hcase as [-> | (i & Hget)]; [exact Hst |].
  destruct Hst as [_ Hh]. split; [| rewrite Hhist; exact Hh].
  rewrite Forall_forall in Hh.
  apply (Hh _ (array_get_In _ _ _ Hget)).
Qed.

Lemma editExistingText_oneEditor (env : Env.t) (el : DrawingElement)
    (st st' : Editor.t) :
  NoDup (ids (Editor.elements st)) ->
  existsb isTextEditing (Editor.elements st) = false ->
  oneEditor st ->
  editExistingText env el st = Ok st' ->
  oneEditor st'.
Proof.
  intros Hnd Hnone Hst. unfold editExistingText.
  destruct (Env.canvas env) as [rect |]; [| intro H; injection H as <-; exact Hst].
  destruct (at_index (points el) 0) as [p0 |]; cbn [bind]; [| discriminate].
  intro H; injection H as <-. unfold Editor.handleElementUpdate.
  apply oneEditor_setElements; [| exact Hst].
  apply openEditors_open_one; [exact Hnd | apply openEditors_none, Hnone].
Qed.

Lemma handleMouseDown_oneEditor (measureText : R -> string -> R) (env : Env.t)
    (e : MouseEvent) (a a' : App) :
  NoDup (ids (Editor.elements (editor a))) ->
  oneEditor (editor a) ->
  handleMouseDown measureText env e a = Ok a' ->
  oneEditor (editor a').
Proof.
  intros Hnd Hst. unfold handleMouseDown.
  destruct (getTextElementAtPoint measureText env (Editor.elements (editor a))
              (getMousePos env e)) as [hit |]; cbn [bind]; [| discriminate].
  assert (forall el rf,
             existsb isTextEditing (Editor.elements (editor a)) = false ->
             (let* st' := editExistingText env el (editor a) in Ok (mkApp st' rf))
             = Ok a' ->
             oneEditor (editor a')) as Hedit.
  { intros el rf Hnone H.
    destruct (editExistingText env el (editor a)) as [st' |] eqn:Hrun;
      cbn [bind] in H; [| discriminate].
    injection H as <-. cbn [editor].
    apply (editExistingText_oneEditor env el (editor a)); assumption. }
  assert (forall rf, Ok (mkApp (editor a) rf) = Ok a' -> oneEditor (editor a'))
    as Hsame by (intros rf H; injection H as <-; exact Hst).
  destruct (existsb isTextEditing (Editor.elements (editor a))) eqn:Hnone.
  - destruct hit as [el |];
      destruct (ToolState.activeTool (Editor.tools (editor a)));
      try apply Hsame.
    + destruct (_ && _); [destruct a; apply Hsame | apply Hsame].
  - destruct hit as [el |];
      destruct (ToolState.activeTool (Editor.tools (editor a)));
      try apply Hsame; try (apply Hedit; reflexivity).
    + destruct (_ && _); [apply Hedit; reflexivity | apply Hsame].
    + intro H; injection H as <-. cbn [editor].
      apply oneEditor_handleElementAdd; [exact Hst |].
      right. apply openEditors_none, Hnone.
Qed.

Lemma handleMouseUp_oneEditor (a : App) :
  safe a -> oneEditor (editor a) -> oneEditor (editor (handleMouseUp a)).
Proof.
  intros [_ Hpend] Hst. unfold handleMouseUp.
  destruct (Refs.isDrawing (refs a)); [| exact Hst].
  destruct (Refs.currentElement (refs a)) as [current |] eqn:Hcur; [| exact Hst].
  cbn [editor]. apply oneEditor_handleElementAdd; [exact Hst |].
  left. destruct (Hpend current eq_refl) as [Hty _].
  unfold isTextEditing. destruct (type current); try reflexivity.
  contradiction.
Qed.

Lemma isTextEditing_spread (x : DrawingElement) (u : Partial.t) :
  Partial.type u = None -> Partial.isEditing u = None ->
  isTextEditing (spread x u) = isTextEditing x.
Proof.
  intros Hty Hed. unfold isTextEditing, spread. cbn [type isEditing].
  rewrite Hty, Hed. reflexivity.
Qed.

Lemma step_oneEditor (measureText : R -> string -> R) (ev : Event)
    (a a' : App) :
  NoDup (ids (Editor.elements (editor a))) ->
  safe a ->
  oneEditor (editor a) ->
  step measureText a ev = Ok a' ->
  oneEditor (editor a').
Proof.
  intros Hnd Hsafe Hst.
  assert (Ok a = Ok a' -> oneEditor (editor a')) as Hsame
    by (intro H; injection H as <-; exact Hst).
  assert (forall env e, handleMouseMove env e a = Ok a' -> oneEditor (editor a'))
    as Hmove.
  { intros env e H. destruct (handleMouseMove_ids env e a a' H) as [-> _].
    exact Hst. }
  assert (forall f,
             (forall x, isTextEditing (f x) = true -> isTextEditing x = true) ->
             oneEditor (Editor.setElements (editor a)
                          (map f (Editor.elements (editor a))))) as Hmap.
  { intros f Hf. apply oneEditor_setElements; [| exact Hst].
    apply atMostOneOpen_map; [exact Hf | apply Hst]. }
  destruct ev; cbn [step].
  - destruct (ToolState.activeTool (Editor.tools (editor a)));
      try (apply handleMouseDown_oneEditor; assumption).
    exact Hsame.
  - destruct (ToolState.activeTool (Editor.tools (editor a)));
      try apply Hmove.
    destruct (buttons e =? 1)%Z; [exact Hsame | apply Hmove].
  - intro H; injection H as <-. apply handleMouseUp_oneEditor; assumption.
  - intro H; injection H as <-. exact Hst.
  - destruct (Editor.handleUndo (editor a)) as [st' |] eqn:Hu; cbn [bind];
      [| discriminate].
    intro H; injection H as <-. cbn [withEditor editor].
    destruct (handleUndo_frame _ _ Hu) as (Hhist & _ & _ & Hcase).
    apply (oneEditor_history_move (editor a)); [exact Hhist | | exact Hst].
    destruct Hcase as [-> | [_ Hget]]; [left; reflexivity | right; eauto].
  - destruct (Editor.handleRedo (editor a)) as [st' |] eqn:Hr; cbn [bind];
      [| discriminate].
    intro H; injection H as <-. cbn [withEditor editor].
    destruct (handleRedo_frame _ _ Hr) as (Hhist & _ & _ & Hcase).
    apply (oneEditor_history_move (editor a)); [exact Hhist | | exact Hst].
    destruct Hcase as [-> | [_ Hget]]; [left; reflexivity | right; eauto].
  - intro H; injection H as <-. apply oneEditor_handleConfirm, Hst.
  - intro H; injection H as <-. cbn [withEditor editor].
    unfold Editor.handleTextCancel.
    apply oneEditor_setElements; [| exact Hst].
    apply atMostOneOpen_filter, Hst.
  - intro H; injection H as <-. cbn [withEditor editor].
    unfold Editor.handleTextChange. apply Hmap.
    intros x. destruct (String.eqb (id x) id'); [| trivial].
    rewrite isTextEditing_spread by reflexivity. trivial.
  - intro H; injection H as <-. cbn [withEditor editor].
    unfold Editor.handleTextMove. apply Hmap.
    intros x. destruct (String.eqb (id x) id'); [| trivial].
    rewrite isTextEditing_spread by reflexivity. trivial.
Qed.

Lemma run_oneEditor (measureText : R -> string -> R) (evs : list Event)
    (T : Z) (a : App) :
  idsInvariant T a -> safe a -> oneEditor (editor a) ->
  increasing_stamps T evs ->
  exists a', run measureText a evs = Ok a' /\ oneEditor (editor a').
Proof.
  revert T a. induction evs as [| ev rest IH]; intros T a Hids Hsafe Hone Hstamps.
  - exists a. split; [reflexivity | exact Hone].
  - cbn [run].
    destruct (step_safe measureText ev a Hsafe) as (a1 & Hstep & Hsafe1).
    rewrite Hstep. cbn [bind].
    apply increasing_stamps_cons in Hstamps as [Hev Hrest].
    apply (IH (next_stamp T ev) a1).
    + apply (step_ids measureText T ev a a1); assumption.
    + exact Hsafe1.
    + apply (step_oneEditor measureText ev a a1); try assumption.
      destruct Hids as [[(Hnd & _) _] _]. exact Hnd.
    + exact Hrest.
Qed.

(** X17: At most one text editor is open at any time: after every sequence
    of events from the initial state whose presses make identifiers from
    strictly increasing clock readings, the set holds at most one text with
    the editing flag, and so does every snapshot of the history, so that
    undo and redo never bring up two editors. *)
Theorem at_most_one_editor (measureText : R -> string -> R)
    (evs : list Event) (T : Z) (Hstamps : increasing_stamps T evs) :
  exists a,
    run measureText initialApp evs = Ok a
    /\ (List.length (openEditors (Editor.elements (editor a))) <= 1)%nat
    /\ Forall (fun h =>
                 (List.length (openEditors (HistoryState.elements h)) <= 1)%nat)
         (Editor.history (editor a)).
Proof.
  destruct (run_oneEditor measureText evs T initialApp
              (idsInvariant_initial T) safe_initial) as (a & Hrun & Hone).
  - split; [unfold atMostOneOpen; cbn; lia | constructor].
  - exact Hstamps.
  - exists a. split; [exact Hrun | exact Hone].
Qed.

Lemma at_most_one_editor_witness :
  increasing_stamps 0 two_text_presses
  /\ exists a,
       run measure_10 initialApp two_text_presses = Ok a
       /\ (List.length (openEditors (Editor.elements (editor a))) <= 1)%nat.
Proof.
  assert (increasing_stamps 0 two_text_presses) as Hstamps by (cbn; lia).
  split; [exact Hstamps |].
  destruct (at_most_one_editor measure_10 two_text_presses 0 Hstamps)
    as (a & Hrun & Hone & _).
  exists a. split; assumption.
Defined.

(** ** The life of a text *)







(** ** Dragging a text *)

Lemma movedBy_zero (el : DrawingElement) : movedBy 0 0 el = el.
Proof.
  unfold movedBy, spread. destruct el as [i t pts c w tx fs wd ht ed tf].
  cbn [id type points color strokeWidth text fontSize width height isEditing
       textFormat override Partial.id Partial.type Partial.points
       Partial.color Partial.strokeWidth Partial.text Partial.fontSize
       Partial.width Partial.height Partial.isEditing Partial.textFormat].
  f_equal. induction pts as [| [x y] pts IH]; [reflexivity |].
  cbn [map Point.x Point.y]. rewrite IH. f_equal. f_equal; ring.
Qed.

Lemma movedBy_movedBy (dx dy dx' dy' : R) (el : DrawingElement) :
  movedBy dx' dy' (movedBy dx dy el) = movedBy (dx + dx') (dy + dy') el.
Proof.
  unfold movedBy, spread.
  cbn [id type points color strokeWidth text fontSize width height isEditing
       textFormat override Partial.id Partial.type Partial.points
       Partial.color Partial.strokeWidth Partial.text Partial.fontSize
       Partial.width Partial.height Partial.isEditing Partial.textFormat].
  f_equal. rewrite map_map. apply map_ext. intros [x y].
  cbn [Point.x Point.y]. f_equal; ring.
Qed.

Lemma last_cons_default {A : Type} (m : A) (ms : list A) (p : A) :
  last (m :: ms) p = last ms m.
Proof.
  revert m p. induction ms as [| x ms IH]; intros m p; [reflexivity |].
  change (last (m :: x :: ms) p) with (last (x :: ms) p).
  rewrite (IH x p), (IH x m). reflexivity.
Qed.

Lemma movedBy_id (dx dy : R) (el : DrawingElement) :
  id (movedBy dx dy el) = id el.
Proof. reflexivity. Qed.

Lemma handleTextMove_movedBy (st : Editor.t) (i : string) (dx dy : R) :
  Editor.handleTextMove st i dx dy
  = Editor.setElements st
      (map (fun el => if String.eqb (id el) i then movedBy dx dy el else el)
         (Editor.elements st)).
Proof. reflexivity. Qed.

(** X19: Dragging the in-place editor moves the text by the total
    displacement of the pointer: after a press on the input at [e0] and
    any moves, the points of the element of the editor are those of before
    shifted by the last position minus the position of the press, however
    the path went; the other elements, the history and its cursor are left
    alone (the move takes no checkpoint); and once the button is released
    further moves change nothing. *)
Theorem drag_moves_by_total (i : string) (e0 : MouseEvent)
    (moves : list MouseEvent) (s : InPlaceTextEditor.DragState)
    (st : Editor.t) :
  let final := InPlaceTextEditor.drag i e0 moves (s, st) in
  let e' := last moves e0 in
  Editor.elements (snd final)
  = map (fun el =>
           if String.eqb (id el) i
           then movedBy (clientX e' - clientX e0) (clientY e' - clientY e0) el
           else el)
      (Editor.elements st)
  /\ Editor.history (snd final) = Editor.history st
  /\ Editor.historyIndex (snd final) = Editor.historyIndex st
  /\ fst final
     = InPlaceTextEditor.mkDragState true (Point.mk (clientX e') (clientY e'))
  /\ forall e,
       InPlaceTextEditor.handleMouseMove i e
         (InPlaceTextEditor.handleMouseUp (fst final), snd final)
       = (InPlaceTextEditor.handleMouseUp (fst final), snd final).
Proof.
  unfold InPlaceTextEditor.drag. cbn [fst snd InPlaceTextEditor.handleMouseDown].
  assert (forall (ms : list MouseEvent) (p : MouseEvent) (st1 : Editor.t),
             let final :=
               fold_left
                 (fun acc e => InPlaceTextEditor.handleMouseMove i e acc) ms
                 (InPlaceTextEditor.mkDragState true
                    (Point.mk (clientX p) (clientY p)), st1) in
             let e' := last ms p in
             Editor.elements (snd final)
             = map (fun el =>
                      if String.eqb (id el) i
                      then movedBy (clientX e' - clientX p)
                             (clientY e' - clientY p) el
                      else el)
                 (Editor.elements st1)
             /\ Editor.history (snd final) = Editor.history st1
             /\ Editor.historyIndex (snd final) = Editor.historyIndex st1
             /\ fst final
                = InPlaceTextEditor.mkDragState true
                    (Point.mk (clientX e') (clientY e'))) as Hgen.
  { induction ms as [| m ms IH]; intros p st1.
    - cbn [fold_left last fst snd]. repeat split.
      rewrite !Rminus_diag. symmetry.
      rewrite <- (map_id (Editor.elements st1)) at 2.
      apply map_ext. intro el.
      destruct (String.eqb (id el) i); [apply movedBy_zero | reflexivity].
    - cbn [fold_left].
      change (InPlaceTextEditor.handleMouseMove i m
                (InPlaceTextEditor.mkDragState true
                   (Point.mk (clientX p) (clientY p)), st1))
        with (InPlaceTextEditor.mkDragState true
                (Point.mk (clientX m) (clientY m)),
              Editor.handleTextMove st1 i (clientX m - clientX p)
                (clientY m - clientY p)).
      destruct (IH m (Editor.handleTextMove st1 i (clientX m - clientX p)
                        (clientY m - clientY p))) as (Hel & Hh & Hi & Hs).
      cbn zeta in *.
      rewrite (last_cons_default m ms p).
      rewrite Hel, Hh, Hi, Hs. repeat split.
      rewrite handleTextMove_movedBy. cbn [Editor.elements Editor.setElements].
      rewrite map_map. apply map_ext. intro el.
      destruct (String.eqb (id el) i) eqn:Heq.
      + rewrite movedBy_id, Heq, movedBy_movedBy. f_equal; ring.
      + rewrite Heq. reflexivity. }
  destruct (Hgen moves e0 st) as (Hel & Hh & Hi & Hs). cbn zeta in *.
  split; [exact Hel |]. split; [exact Hh |]. split; [exact Hi |].
  split; [exact Hs |].
  intro e. rewrite Hs. reflexivity.
Qed.

(** ** What the export reads *)

(** X20: The export of an element reads its type, points, colour, stroke
    width, text and font size, and nothing else: two elements that agree
    on these six are exported alike, whatever their text format, editing
    flag, identifier, width and height, and whatever the bold font and the
    page width.  So the family, the size, bold, italic, underline, the
    colour and the background chosen in the in-place editor do not reach
    the document. *)
Theorem export_reads_six_fields (el1 el2 : DrawingElement) (s h w w' : R)
    (font bold bold' : PDFFont)
    (Htype : type el1 = type el2)
    (Hpoints : points el1 = points el2)
    (Hcolor : color el1 = color el2)
    (Hwidth : strokeWidth el1 = strokeWidth el2)
    (Htext : text el1 = text el2)
    (Hsize : fontSize el1 = fontSize el2) :
  drawElementOnPDF el1 s font bold w h = drawElementOnPDF el2 s font bold' w' h.
Proof.
  unfold drawElementOnPDF.
  rewrite Htype, Hpoints, Hcolor, Hwidth, Htext, Hsize. reflexivity.
Qed.

Lemma export_reads_six_fields_witness :
  drawElementOnPDF committed_text_5_20 1 (asciiFont Helvetica)
    (asciiFont HelveticaBold) 600 800
  = drawElementOnPDF committed_text_restyled 1 (asciiFont Helvetica)
      (asciiFont Helvetica) 500 800.
Proof.
  apply (export_reads_six_fields committed_text_5_20 committed_text_restyled
           1 800 600 500 (asciiFont Helvetica) (asciiFont HelveticaBold)
           (asciiFont Helvetica));
    reflexivity.
Defined.

(** X21: A colour written as [#] and six hexadecimal digits, as the
    swatches and the colour input give it, is exported with the three
    channels that its pairs of digits denote, divided by 255: each is a
    number between 0 and 1, none is NaN.  A colour that does not start
    with [#], as a colour name, is exported as pure red. *)
Theorem hex_colour_channels (c1 c2 c3 c4 c5 c6 : ascii)
    (H1 : isHexDigit c1 = true) (H2 : isHexDigit c2 = true)
    (H3 : isHexDigit c3 = true) (H4 : isHexDigit c4 = true)
    (H5 : isHexDigit c5 = true) (H6 : isHexDigit c6 = true) :
  (exists r' g' b',
      parseColor
        (String "#" (String c1 (String c2 (String c3 (String c4 (String c5
           (String c6 EmptyString)))))))
      = mkColor (Some r') (Some g') (Some b')
      /\ r' = IZR (hexPair c1 c2) / 255
      /\ g' = IZR (hexPair c3 c4) / 255
      /\ b' = IZR (hexPair c5 c6) / 255
      /\ 0 <= r' <= 1 /\ 0 <= g' <= 1 /\ 0 <= b' <= 1)
  /\ (forall name,
        startsWith name "#" = false ->
        parseColor name = mkColor (Some 1) (Some 0) (Some 0)).
Proof.
  split.
  - destruct (parseColor_hex6 c1 c2 c3 c4 c5 c6 H1 H2 H3 H4 H5 H6)
      as (Hparse & Hr & Hg & Hb).
    do 3 eexists. split; [exact Hparse |].
    repeat split; try reflexivity; tauto.
  - apply parseColor_no_hash.
Qed.

Lemma hex_colour_channels_witness :
  exists r' g' b',
    parseColor "#0066ff" = mkColor (Some r') (Some g') (Some b')
    /\ 0 <= r' <= 1 /\ 0 <= g' <= 1 /\ 0 <= b' <= 1.
Proof.
  destruct (hex_colour_channels "0" "0" "6" "6" "f" "f"
              eq_refl eq_refl eq_refl eq_refl eq_refl eq_refl)
    as [(r' & g' & b' & Hparse & _ & _ & _ & Hr & Hg & Hb) _].
  exists r', g', b'. repeat split; tauto.
Defined.

(** ** Canvas rendering *)

Section CanvasFacts.

Variable measure : CanvasFont.t -> string -> R.

Lemma drawLines_fillRect (el : DrawingElement) (format : TextFormat)
    (p0 : Point) (lh : R) (lines : list string) (i : nat) (x y w h : R) :
  In (fillRect x y w h) (drawLines measure el format p0 lh i lines) ->
  exists j line,
    nth_error lines j = Some line
    /\ x = Point.x p0 - 2
    /\ y = Point.y p0 + INR (i + j) * lh - TextFormat.fontSize format - 2
    /\ w = measure (fontStyle format) line + 4
    /\ h = TextFormat.fontSize format + 4.
Proof.
  revert i. induction lines as [| line lines IH]; intro i; cbn [drawLines];
    [intros [] |].
  intro Hin. apply in_app_or in Hin as [Hin | Hin].
  - exists 0%nat, line. rewrite Nat.add_0_r. split; [reflexivity |].
    unfold drawLine in Hin.
    repeat (apply in_app_or in Hin as [Hin | Hin]).
    + destruct (_ && _); [| destruct Hin].
      destruct Hin as [Hin | [Hin | []]]; [discriminate |].
      injection Hin as <- <- <- <-. repeat split; reflexivity.
    + destruct (_ && _); [| destruct Hin].
      destruct Hin as [Hin | [Hin | []]]; [discriminate |].
      injection Hin as <- <- <- <-. repeat split; reflexivity.
    + destruct Hin as [Hin | [Hin | []]]; discriminate.
    + destruct (TextFormat.isUnderline format); [| destruct Hin].
      repeat (destruct Hin as [Hin | Hin]; [discriminate |]). destruct Hin.
  - destruct (IH (S i) Hin) as (j & l & Hj & Hx & Hy & Hw & Hh).
    exists (S j), l. rewrite Nat.add_succ_r. auto.
Qed.

End CanvasFacts.

(** X22: What the canvas shows as the box of a committed text can be
    clicked: for a text with characters whose editor is closed and whose
    format is a plain Arial of the font size of the element (as the text
    tool makes it), every point of every rectangle that [drawElement]
    fills for it is a point on the text for the hit test, under the same
    measure of the lines. *)
Theorem drawn_text_box_is_clickable (measure : CanvasFont.t -> string -> R)
    (el : DrawingElement)
    (Hcommitted : isCommittedText el = true)
    (Hfont : fontStyle (canvasFormat el)
             = CanvasFont.mk false false (opt_num_or (fontSize el) 16) "Arial") :
  exists cmds,
    drawElement measure el = Ok cmds
    /\ forall x y w h point,
         In (fillRect x y w h) cmds ->
         x <= Point.x point <= x + w ->
         y <= Point.y point <= y + h ->
         pointOnText
           (fun size line => measure (CanvasFont.mk false false size "Arial") line)
           point el.
Proof.
  pose proof (isCommittedText_type el Hcommitted) as Hty.
  assert (truthy_string (text el) = true) as Htext.
  { unfold isCommittedText in Hcommitted.
    apply andb_true_iff in Hcommitted as [H _].
    apply andb_true_iff in H as [_ H]. exact H. }
  assert (TextFormat.fontSize (canvasFormat el) = opt_num_or (fontSize el) 16)
    as Hsize by (apply (f_equal CanvasFont.size) in Hfont; exact Hfont).
  unfold drawElement. rewrite Hty, Htext.
  destruct (points el) as [| p0 more] eqn:Hpts.
  - eexists. split; [reflexivity |].
    intros x y w h point Hin. cbn [app] in Hin.
    repeat (destruct Hin as [Hin | Hin]; [discriminate |]). destruct Hin.
  - cbn [List.length Nat.ltb Nat.leb andb at_index nth_error bind].
    eexists. split; [reflexivity |].
    intros x y w h point Hin Hx Hy.
    apply in_app_or in Hin as [Hin | Hin];
      [repeat (destruct Hin as [Hin | Hin]; [discriminate |]); destruct Hin |].
    apply in_app_or in Hin as [Hin | Hin];
      [repeat (destruct Hin as [Hin | Hin]; [discriminate |]); destruct Hin |].
    apply drawLines_fillRect in Hin
      as (j & line & Hj & -> & -> & -> & ->).
    rewrite Nat.add_0_l, Hfont, Hsize in *.
    split; [exact Hcommitted |].
    exists j, line. split; [exact Hj |].
    exists p0, more. split; [exact Hpts |]. cbn zeta. lra.
Qed.

Lemma drawn_text_box_is_clickable_witness :
  exists cmds,
    drawElement measure_font committed_text_5_20 = Ok cmds
    /\ forall x y w h point,
         In (fillRect x y w h) cmds ->
         x <= Point.x point <= x + w ->
         y <= Point.y point <= y + h ->
         pointOnText
           (fun size line =>
              measure_font (CanvasFont.mk false false size "Arial") line)
           point committed_text_5_20.
Proof.
  apply (drawn_text_box_is_clickable measure_font committed_text_5_20 eq_refl).
  cbn [fontStyle canvasFormat committed_text_5_20 textFormat fontSize
       opt_num_or TextFormat.isItalic TextFormat.isBold TextFormat.fontSize
       TextFormat.fontFamily].
  rewrite num_or_nonzero by lra. reflexivity.
Defined.

(** X23: A highlight dragged along a horizontal line, of a colour that
    [rgb] accepts, is shown under the line and exported over it: the canvas
    fills the 20 pixels below the height of the press, from [y] to
    [y + 20], whereas the rectangle of the export, 20 canvas pixels high as
    well and filled with that colour, has its lower edge at the page
    position of [y] and its upper edge at the page position of [y - 20],
    which is the band above the line on the canvas. *)
Theorem flat_highlight_canvas_and_export
    (measure : CanvasFont.t -> string -> R) (el : DrawingElement)
    (s h w : R) (font bold : PDFFont) (p q : Point) (mid : list Point)
    (ink : Color)
    (Hs : 0 < s)
    (Hty : type el = Highlight)
    (Hpts : points el = p :: mid ++ [q])
    (Hflat : Point.y q = Point.y p)
    (Hink : inkOf (color el) = Ok ink) :
  drawElement measure el
  = Ok [setStrokeStyle (color el); setLineWidth (strokeWidth el);
        setLineCap "round"; setLineJoin "round";
        setGlobalAlpha (3 / 10); setFillStyle (color el);
        fillRect (Point.x p) (Point.y p) (Point.x q - Point.x p) 20;
        setGlobalAlpha 1]
  /\ exists opts,
       drawElementOnPDF el s font bold w h = Ok [drawRectangle opts]
       /\ RectangleOptions.y opts
          = Point.y (convertCoords s h (Point.x p) (Point.y p))
       /\ RectangleOptions.y opts + RectangleOptions.height opts
          = Point.y (convertCoords s h (Point.x p) (Point.y p - 20))
       /\ RectangleOptions.color opts = Some ink.
Proof.
  split.
  - unfold drawElement. rewrite Hty, Hpts, two_points_guard, last_point_app.
    cbn [at_index nth_error bind app]. rewrite Hflat, Rminus_diag.
    unfold num_or. destruct (Req_dec_T 0 0) as [_ | Hne]; [reflexivity |].
    contradiction.
  - unfold inkOf in Hink. cbv zeta in Hink.
    unfold drawElementOnPDF.
    rewrite Hty, Hpts, two_points_guard, last_point_app.
    cbn [at_index nth_error bind convertCoords Point.x Point.y].
    rewrite Hink. cbn [bind].
    eexists. split; [reflexivity |].
    cbn [RectangleOptions.y RectangleOptions.height RectangleOptions.color].
    rewrite Hflat.
    replace (h - Point.y p / s - (h - Point.y p / s)) with 0 by ring.
    rewrite Rabs_R0, Rmin_left by lra.
    unfold num_or. destruct (Req_dec_T 0 0) as [_ | Hne]; [| contradiction].
    split; [reflexivity |]. split; [field; lra | reflexivity].
Qed.

Lemma flat_highlight_canvas_and_export_witness :
  0 < 2
  /\ inkOf (color highlight_flat) = Ok (RGB (255 / 255) (255 / 255) (0 / 255))
  /\ exists opts,
    drawElementOnPDF highlight_flat 2 (asciiFont Helvetica)
      (asciiFont HelveticaBold) 600 800
    = Ok [drawRectangle opts]
    /\ RectangleOptions.y opts + RectangleOptions.height opts
       = Point.y (convertCoords 2 800 10 (30 - 20)).
Proof.
  assert (0 < 2) as H2 by lra.
  split; [exact H2 |]. split; [exact inkOf_ffff00 |].
  destruct (flat_highlight_canvas_and_export measure_font highlight_flat
              2 800 600 (asciiFont Helvetica) (asciiFont HelveticaBold)
              (Point.mk 10 30) (Point.mk 90 30) [] _ H2 eq_refl eq_refl
              eq_refl inkOf_ffff00)
    as (_ & opts & Hdraw & _ & Htop & _).
  exists opts. split; [exact Hdraw | exact Htop].
Defined.

(** X24: Drawing an element on the canvas never throws, and an element
    for which the canvas draws nothing but the four stroke settings is
    exported as nothing: a shape of fewer than two points, a pen stroke of
    a single point, a text without characters or without an anchor, and an
    element of a type without a case.  (The converse does not hold: a pen
    stroke or an arrow whose points coincide is stroked on the canvas and
    absent from the export.) *)
Theorem unseen_on_canvas_is_not_exported
    (measure : CanvasFont.t -> string -> R) (el : DrawingElement) :
  exists shape,
    drawElement measure el
    = Ok ([setStrokeStyle (color el); setLineWidth (strokeWidth el);
           setLineCap "round"; setLineJoin "round"] ++ shape)
    /\ (shape = [] ->
        forall s font bold w h, drawElementOnPDF el s font bold w h = Ok []).
Proof.
  assert (forall (guard : bool) (body : result (list CanvasCommand)),
             (guard = true -> exists c cs, body = Ok (c :: cs)) ->
             (guard = false ->
              forall s font bold w h, drawElementOnPDF el s font bold w h = Ok []) ->
             exists shape,
               (let* shape := (if guard then body else Ok []) in
                Ok ([setStrokeStyle (color el); setLineWidth (strokeWidth el);
                     setLineCap "round"; setLineJoin "round"] ++ shape))
               = Ok ([setStrokeStyle (color el); setLineWidth (strokeWidth el);
                      setLineCap "round"; setLineJoin "round"] ++ shape)
               /\ (shape = [] ->
                   forall s font bold w h,
                     drawElementOnPDF el s font bold w h = Ok [])) as Hcase.
  { intros guard body Htrue Hfalse. destruct guard.
    - destruct (Htrue eq_refl) as (c & cs & ->). cbn [bind].
      eexists. split; [reflexivity | discriminate].
    - exists []. split; [reflexivity |]. intros _. apply Hfalse. reflexivity. }
  assert (forall body : Point -> Point -> list CanvasCommand,
             (forall a c, body a c <> []) ->
             (2 <=? List.length (points el))%nat = true ->
             exists c cs,
               (let* start := at_index (points el) 0 in
                let* end_ := last_point (points el) in
                Ok (body start end_)) = Ok (c :: cs)) as Hshape.
  { intros body Hne Hlen.
    destruct (at_least_two_points _ Hlen) as (p & mid & q & ->).
    rewrite last_point_app. cbn [at_index nth_error bind].
    destruct (body p q) as [| c cs] eqn:Hb; [destruct (Hne p q Hb) |].
    exists c, cs. reflexivity. }
  unfold drawElement.
  destruct (type el) eqn:Hty.
  - (* select *)
    exists []. split; [reflexivity |]. intros _ s font bold w h.
    unfold drawElementOnPDF. rewrite Hty. reflexivity.
  - (* text *)
    apply Hcase.
    + intro Hguard. apply andb_true_iff in Hguard as [_ Hlen].
      destruct (points el) as [| p0 more]; [discriminate |].
      cbn [at_index nth_error bind app]. eexists; eexists; reflexivity.
    + intros Hguard s font bold w h.
      unfold drawElementOnPDF. rewrite Hty, Hguard. reflexivity.
  - (* draw *)
    apply Hcase.
    + intro Hlen. apply Nat.ltb_lt in Hlen.
      destruct (at_index_in_range (points el) 0 ltac:(lia)) as (p0 & ->).
      destruct (for_loop_total
                  (fun i => let* p := at_index (points el) i in
                            Ok [lineTo (Point.x p) (Point.y p)])
                  (List.length (points el) - 1) 1) as (path & ->).
      * intros j Hj.
        destruct (at_index_in_range (points el) j ltac:(lia)) as (pj & ->).
        eexists; reflexivity.
      * cbn [bind app]. eexists; eexists; reflexivity.
    + intros Hguard s font bold w h.
      unfold drawElementOnPDF. rewrite Hty, Hguard. reflexivity.
  - (* highlight *)
    apply Hcase.
    + apply (Hshape (fun start end_ => [_; _; _; _])). discriminate.
    + intros Hguard s font bold w h.
      unfold drawElementOnPDF. rewrite Hty, Hguard. reflexivity.
  - (* eraser *)
    exists []. split; [reflexivity |]. intros _ s font bold w h.
    unfold drawElementOnPDF. rewrite Hty. reflexivity.
  - (* rectangle *)
    apply Hcase.
    + apply (Hshape (fun start end_ => [_])). discriminate.
    + intros Hguard s font bold w h.
      unfold drawElementOnPDF. rewrite Hty, Hguard. reflexivity.
  - (* circle *)
    apply Hcase.
    + apply (Hshape (fun start end_ => [_; _; _])). discriminate.
    + intros Hguard s font bold w h.
      unfold drawElementOnPDF. rewrite Hty, Hguard. reflexivity.
  - (* arrow *)
    apply Hcase.
    + apply (Hshape (fun start end_ => [_; _; _; _; _; _; _; _; _; _])).
      discriminate.
    + intros Hguard s font bold w h.
      unfold drawElementOnPDF. rewrite Hty, Hguard. reflexivity.
Qed.

(** ** From the gesture to the document *)

Lemma gesturePoints_shape_last (tool : ToolType) (start : Point)
    (moved : list Point) (q : Point) :
  tool <> Draw ->
  gesturePoints tool start (moved ++ [q]) = [start; q].
Proof.
  intro Htool. unfold gesturePoints.
  assert (match moved ++ [q] with
          | [] => [start]
          | _ :: _ => [start; last (moved ++ [q]) start]
          end = [start; q]) as H.
  { rewrite last_last. destruct moved; reflexivity. }
  destruct tool; try exact H. contradiction.
Qed.

(** X25: From the drag to the file: with a file that loads, the page
    shown in it, a positive scale, the rectangle tool and no element yet,
    a press at the canvas point [p], moves that end at the canvas point
    [q] and the release add one element, and the download that follows
    depends on the stroke colour alone.  When [rgb] accepts it, as it does
    a colour [#rrggbb] of the toolbar, the download saves exactly one file,
    [edited-...], in which the page shown has gained one rectangle and the
    other pages nothing: its corner is at (min x / scale, page height -
    max y / scale), its width and height are the distances between [p]
    and [q] divided by the scale, its border has the stroke colour and the
    stroke width divided by the scale.  When [rgb] throws, the download
    saves nothing, logs the error and shows the alert. *)
Theorem drawn_rectangle_reaches_the_page (Bytes : Type)
    (load : Bytes -> result PDFDocument) (save : PDFDocument -> Bytes)
    (embedFont : StandardFonts -> PDFFont)
    (measureText : R -> string -> R)
    (c : Component.t Bytes) (rf : Refs.t) (env0 : Env.t) (e0 : MouseEvent)
    (before : list (Env.t * MouseEvent)) (lastMove : Env.t * MouseEvent)
    (file : File.t Bytes) (doc : PDFDocument) (page : PDFPage)
    (Htool : ToolState.activeTool (Editor.tools (Component.editor c))
             = Rectangle)
    (Hempty : Editor.elements (Component.editor c) = [])
    (Hfile : Component.pdfFile c = Some file)
    (Hload : load (File.arrayBuffer file) = Ok doc)
    (Hpage : page_at doc (Component.currentPage c - 1) = Some page)
    (Hscale : 0 < Editor.scale (Component.editor c)) :
  let tools := Editor.tools (Component.editor c) in
  let s := Editor.scale (Component.editor c) in
  let p := getMousePos env0 e0 in
  let q := getMousePos (fst lastMove) (snd lastMove) in
  exists a',
    run measureText (mkApp (Component.editor c) rf)
      (gesture env0 e0 (before ++ [lastMove])) = Ok a'
    /\ handleDownload Bytes load save embedFont (withApp c a')
       = match inkOf (ToolState.strokeColor tools) with
         | Ok ink =>
             [saveAs
                (save
                   (draw_on_page doc (Z.to_nat (Component.currentPage c - 1))
                      [drawRectangle
                         (RectangleOptions.mk
                            (Rmin (Point.x p) (Point.x q) / s)
                            (pageHeight page - Rmax (Point.y p) (Point.y q) / s)
                            (Rabs (Point.x q - Point.x p) / s)
                            (Rabs (Point.y q - Point.y p) / s)
                            (Some ink) (Some (ToolState.strokeWidth tools / s))
                            None None None)]))
                ("edited-" ++ File.name file)%string]
         | Throw e =>
             [console_error "Error downloading PDF:" e;
              alert "Error downloading PDF. Please try again."]
         end.
Proof.
  intros tools s p q.
  eexists. split.
  - apply (run_gesture measureText (mkApp (Component.editor c) rf)).
    + cbn [editor]. rewrite Htool. reflexivity.
    + cbn [editor]. rewrite Hempty. constructor.
  - cbn [editor]. unfold tools. rewrite Htool.
    rewrite map_app. cbn [map].
    rewrite gesturePoints_shape_last by discriminate. fold p q.
    unfold handleDownload, withApp.
    cbn [editor Component.pdfFile Component.editor Component.currentPage].
    rewrite Hfile. unfold Editor.handleElementAdd, Editor.pushHistory.
    cbn [Editor.elements Editor.setElements Editor.setHistory
         Editor.setHistoryIndex Editor.scale].
    rewrite Hempty. cbn [app List.length Nat.ltb Nat.leb].
    unfold mergePDFWithAnnotations. rewrite Hload. cbn [bind].
    rewrite Hpage. cbn [drawElements].
    match goal with
    | |- context [drawElementOnPDF ?el _ _ _ _ _] =>
        rewrite (drawElementOnPDF_rectangle el _ (pageHeight page)
                   (pageWidth page) (embedFont Helvetica)
                   (embedFont HelveticaBold) p q [] Hscale
                   eq_refl eq_refl)
    end.
    cbn [color strokeWidth].
    destruct (inkOf (ToolState.strokeColor (Editor.tools (Component.editor c))));
      reflexivity.
Qed.

Lemma drawn_rectangle_reaches_the_page_witness :
  exists a',
    run measure_10 (mkApp (Component.editor component_rectangle_tool)
                      Refs.initial)
      (gesture env_canvas_100_50 click_110_60 drag_10_10_50_40) = Ok a'
    /\ exists data,
         handleDownload PDFDocument (fun d => Ok d) (fun d => d) asciiFont
           (withApp component_rectangle_tool a')
         = [saveAs data "edited-a.pdf"].
Proof.
  destruct (drawn_rectangle_reaches_the_page PDFDocument (fun d => Ok d)
              (fun d => d) asciiFont measure_10 component_rectangle_tool
              Refs.initial
              env_canvas_100_50 click_110_60
              [(env_canvas_100_50, mkMouseEvent 130 70 1)]
              (env_canvas_100_50, mkMouseEvent 150 90 1)
              file_two_pages two_page_document (mkPage 600 800 [])
              eq_refl eq_refl eq_refl eq_refl eq_refl)
    as (a' & Hrun & Hsave).
  - cbn [component_rectangle_tool Component.editor Editor.setActiveTool
         Editor.initial Editor.scale]. lra.
  - exists a'. split; [exact Hrun |].
    change (ToolState.strokeColor
              (Editor.tools (Component.editor component_rectangle_tool)))
      with "#ff0000"%string in Hsave.
    rewrite inkOf_ff0000 in Hsave.
    eexists. exact Hsave.
Defined.

(** ** A page count that arrives late *)

Lemma viewRun_next_pages (Bytes : Type) (k : nat) (c : Component.t Bytes) :
  (Component.currentPage c + Z.of_nat k <= Component.totalPages c)%Z ->
  viewRun Bytes c (repeat NextPage k)
  = Component.mk (Component.pdfFile c)
      (Component.currentPage c + Z.of_nat k) (Component.totalPages c)
      (Component.editor c).
Proof.
  revert c. induction k as [| k IH]; intros c Hk.
  - cbn [repeat viewRun fold_left]. rewrite Z.add_0_r. destruct c; reflexivity.
  - cbn [repeat]. unfold viewRun in *. cbn [fold_left viewStep].
    destruct (Z.leb_spec (Component.totalPages c) (Component.currentPage c));
      [lia |].
    unfold handleNextPage.
    destruct (Z.ltb_spec (Component.currentPage c) (Component.totalPages c));
      [| lia].
    rewrite IH by (cbn [Component.currentPage Component.totalPages]; lia).
    cbn [Component.pdfFile Component.currentPage Component.totalPages
         Component.editor].
    f_equal. lia.
Qed.

(** X26: the page is not adjusted when the page count of a new file
    arrives: after an upload the total of the former file stays until the
    new document reports its own, and the next-page button goes by it; if
    in between it was pressed [k] times, with [k] at least the number of
    pages of the new document, the page shown is [1 + k], beyond the new
    total, and a download with an element saves nothing: it logs
    [Page 1+k not found] and raises the alert. *)
Theorem late_page_count_breaks_download (Bytes : Type)
    (load : Bytes -> result PDFDocument) (save : PDFDocument -> Bytes)
    (embedFont : StandardFonts -> PDFFont)
    (c : Component.t Bytes) (file : File.t Bytes) (doc : PDFDocument)
    (k : nat) (el : DrawingElement)
    (Hload : load (File.arrayBuffer file) = Ok doc)
    (Hk : (List.length doc <= k)%nat)
    (Hold : (Z.of_nat k < Component.totalPages c)%Z) :
  let c1 := handleFileUpload Bytes file c in
  let c2 := viewRun Bytes c1 (repeat NextPage k) in
  let c3 :=
    componentAdd
      (handleDocumentLoadSuccess Bytes (Z.of_nat (List.length doc)) c2) el in
  Component.currentPage c3 = (1 + Z.of_nat k)%Z
  /\ (Component.totalPages c3 < Component.currentPage c3)%Z
  /\ handleDownload Bytes load save embedFont c3
     = [console_error "Error downloading PDF:"
          (PageNotFound (1 + Z.of_nat k));
        alert "Error downloading PDF. Please try again."].
Proof.
  intros c1 c2 c3.
  assert (c2 = Component.mk (Some file) (1 + Z.of_nat k)
                 (Component.totalPages c) (Component.editor c1)) as Hc2.
  { unfold c2. rewrite viewRun_next_pages.
    - reflexivity.
    - unfold c1.
      cbn [handleFileUpload Component.currentPage Component.totalPages].
      lia. }
  unfold c3. rewrite Hc2. unfold c1.
  unfold componentAdd, handleDocumentLoadSuccess.
  cbn [componentAdd handleDocumentLoadSuccess Component.currentPage
       Component.totalPages Component.pdfFile Component.editor].
  split; [reflexivity |]. split; [lia |].
  unfold handleDownload.
  cbn [Component.pdfFile Component.editor Component.currentPage].
  unfold Editor.handleElementAdd, Editor.pushHistory.
  cbn [Editor.elements Editor.setElements Editor.setHistory
       Editor.setHistoryIndex Editor.scale handleFileUpload
       Component.editor].
  cbn [app List.length Nat.ltb Nat.leb].
  unfold mergePDFWithAnnotations. rewrite Hload. cbn [bind].
  destruct (page_at doc (1 + Z.of_nat k - 1)) as [page |] eqn:Hpage;
    [| reflexivity].
  assert (1 <= 1 + Z.of_nat k <= Z.of_nat (List.length doc))%Z
    by (apply page_at_in_range; exists page; exact Hpage).
  lia.
Qed.

Lemma late_page_count_breaks_download_witness :
  handleDownload PDFDocument (fun d => Ok d) (fun d => d) asciiFont
    (componentAdd
       (handleDocumentLoadSuccess PDFDocument 1
          (viewRun PDFDocument
             (handleFileUpload PDFDocument file_one_page component_two_pages)
             [NextPage]))
       rectangle_10_10_50_40)
  = [console_error "Error downloading PDF:" (PageNotFound 2);
     alert "Error downloading PDF. Please try again."].
Proof.
  apply (late_page_count_breaks_download PDFDocument (fun d => Ok d)
           (fun d => d) asciiFont component_two_pages file_one_page
           [mkPage 600 800 []] 1 rectangle_10_10_50_40 eq_refl).
  - cbn [List.length]. lia.
  - cbn [component_two_pages Component.totalPages]. lia.
Defined.
